(** * Skip-gram tutorial: vocabulary builder and batch sampler

    A shallow embedding of the two functions of
    [tutorial-visualize-embeddings.ipynb] that carry the algorithmic
    content of the notebook, [build_dataset] and [generate_batch], with
    the properties the specification states about them.

    Python integers are [Z].  The built-in operations the two functions
    rely on are modelled with the exceptions they raise: indexing,
    slicing, [range], [enumerate] and the deque in [Module Py]; [%],
    [assert], [np.ndarray] and [random.sample] next to the sampler, in
    the monad of its globals; [dict] and [collections.Counter] next to
    the vocabulary builder.  The definitions come first, the facts about
    them after. *)

From Stdlib Require Import ZArith Lia.
From stdpp Require Import base list strings sorting.

(** ** Python built-ins *)

Module Py.

Local Open Scope Z_scope.

(** The exceptions the modelled code can raise. *)
Inductive exn : Set :=
| AssertionError
| ZeroDivisionError
| ValueError
| TypeError
| IndexError
| OverflowError.

(** How a computation ends: with a value or with an exception.
    [Unfinished] is not an end the code has: it marks a run in which the
    model has stopped following a loop that the code sets no bound to. *)
Inductive outcome (A : Type) : Type :=
| Ret (a : A)
| Raise (e : exn)
| Unfinished.
Arguments Ret {A} a.
Arguments Raise {A} e.
Arguments Unfinished {A}.

(** [len(l)] as a Python integer. *)
Definition len {A} (l : list A) : Z := Z.of_nat (length l).

(** Index normalisation of Python sequences: [i] counts from the end
    when negative; out of range there is no element (an [IndexError]). *)
Definition norm_index (n : Z) (i : Z) : option nat :=
  if (0 <=? i) && (i <? n) then Some (Z.to_nat i)
  else if (- n <=? i) && (i <? 0) then Some (Z.to_nat (n + i))
  else None.

Definition getitem {A} (l : list A) (i : Z) : option A :=
  match norm_index (len l) i with
  | Some k => l !! k
  | None => None
  end.

Definition setitem {A} (l : list A) (i : Z) (v : A) : option (list A) :=
  match norm_index (len l) i with
  | Some k => Some (<[k := v]> l)
  | None => None
  end.

(** A slice bound: negative bounds count from the end, and every bound
    is clamped to [0, len]; slicing never raises. *)
Definition clamp (n : Z) (i : Z) : nat :=
  Z.to_nat (if i <? 0 then Z.max (n + i) 0 else Z.min i n).

(** [l[lo:hi]] *)
Definition slice {A} (l : list A) (lo hi : Z) : list A :=
  let a := clamp (len l) lo in
  let b := clamp (len l) hi in
  take (b - a)%nat (drop a l).

(** [range(n)]: empty when [n <= 0]. *)
Definition range (n : Z) : list Z := seqZ 0 n.

(** [enumerate(l)] *)
Definition enumerate_from {A} (j : Z) (l : list A) : list (Z * A) :=
  zip (seqZ j (len l)) l.
Definition enumerate {A} (l : list A) : list (Z * A) := enumerate_from 0 l.

(** [collections.deque(maxlen = m)]: the items, oldest first.  Appending
    to a full deque discards items from the left. *)
Definition deque_append (maxlen : Z) (d : list Z) (x : Z) : list Z :=
  let d' := d ++ [x] in
  drop (length d' - Z.to_nat maxlen)%nat d'.

Definition deque_extend (maxlen : Z) (d : list Z) (xs : list Z) : list Z :=
  foldl (deque_append maxlen) d xs.

End Py.

(** ** The batch sampler *)

Module Sampler.

Import Py.
Local Open Scope Z_scope.

(** The mutable globals a call of [generate_batch] touches: the cursor
    [data_index], and the state of the [random] module, kept as the
    number of draws made so far from the injected source (declared
    below).  [reads] is a
    ghost field: it records every corpus position the call asks for
    ([i] for [data[i]], every [lo <= i < hi] for [data[lo:hi]]). *)
Record globals : Set := Globals {
  data_index : Z;
  rng_calls : nat;
  reads : list Z
}.

Definition set_data_index (v : Z) (g : globals) : globals :=
  Globals v (rng_calls g) (reads g).

(** Computations over the globals that may raise.  The globals of the
    moment an exception is raised are kept: Python does not roll back
    assignments made before it. *)
Definition M (A : Type) : Type := globals -> outcome A * globals.

Definition ret {A} (a : A) : M A := fun g => (Ret a, g).
Definition raise {A} (e : exn) : M A := fun g => (Raise e, g).
Definition unfinished {A} : M A := fun g => (Unfinished, g).
Definition bind {A B} (m : M A) (k : A -> M B) : M B :=
  fun g =>
    match m g with
    | (Ret a, g') => k a g'
    | (Raise e, g') => (Raise e, g')
    | (Unfinished, g') => (Unfinished, g')
    end.

Notation "x <- m ;; k" := (bind m (fun x => k))
  (at level 100, m at next level, right associativity).
Notation "m ;;; k" := (bind m (fun _ => k))
  (at level 100, right associativity).

Definition lift {A} (e : exn) (o : option A) : M A :=
  match o with
  | Some a => ret a
  | None => raise e
  end.

Definition py_assert (b : bool) : M unit :=
  if b then ret tt else raise AssertionError.

(** [a % b] *)
Definition py_mod (a b : Z) : M Z :=
  if b =? 0 then raise ZeroDivisionError else ret (a mod b).

Definition get_data_index : M Z := fun g => (Ret (data_index g), g).
Definition put_data_index (v : Z) : M unit :=
  fun g => (Ret tt, set_data_index v g).

Definition log_reads (l : list Z) : M unit :=
  fun g => (Ret tt, Globals (data_index g) (rng_calls g) (reads g ++ l)).

(** [for x in xs: body], threading the loop-carried locals. *)
Fixpoint for_each {A S} (xs : list A) (body : A -> S -> M S) (s : S) : M S :=
  match xs with
  | [] => ret s
  | x :: xs' => s' <- body x s ;; for_each xs' body s'
  end.

(** [np.ndarray(shape = n, dtype = np.int32)]: [n] cells that hold
    nothing yet ([None] is a cell never written). *)
Definition np_ndarray (n : Z) : M (list (option Z)) :=
  if n <? 0 then raise ValueError else ret (replicate (Z.to_nat n) None).

(** [a[i] = v] on an [np.int32] array, for a Python integer [v]: the
    index is checked first, then the value, which the cell stores
    unchanged when it fits in 32 bits.  NumPy 2 raises [OverflowError]
    for a value that does not fit (NumPy 1 stored it wrapped around);
    the two agree on the values in the [int32] range. *)
Definition is_int32 (v : Z) : bool :=
  (-2147483648 <=? v) && (v <=? 2147483647).

Definition ndarray_setitem (a : list (option Z)) (i v : Z)
  : M (list (option Z)) :=
  a' <- lift IndexError (setitem a i (Some v)) ;;
  if is_int32 v then ret a' else raise OverflowError.

(** A corpus all of whose items fit in an [np.int32] cell. *)
Definition int32_corpus (data : list Z) : Prop :=
  forallb is_int32 data = true.

(** The injected random source.  [draw rand i] is the number the [i]-th
    call of the generator's [_randbelow] draws, before it is reduced
    below the bound of that call.  [patience rand] bounds the model, not
    the code: it is the number of redraws in a row for which the model
    follows the rejection loop of [random.sample]. *)
Record source : Set := Source {
  draw : nat -> nat;
  patience : nat
}.

(** [collections.deque(maxlen = m)] *)
Definition deque_new (maxlen : Z) : M (list Z) :=
  if maxlen <? 0 then raise ValueError else ret [].

Section WithCorpus.

(** The global [data] (the encoded corpus; [generate_batch] only reads
    it) and the injected random source. *)
Variable data : list Z.
Variable rand : source.

(** [data[i]] *)
Definition data_getitem (i : Z) : M Z :=
  log_reads [i] ;;; lift IndexError (getitem data i).

(** [data[lo:hi]] *)
Definition data_slice (lo hi : Z) : M (list Z) :=
  log_reads (seqZ lo (hi - lo)) ;;; ret (slice data lo hi).

(** [randbelow(n)]: one draw below [n] from the source ([n] is never 0
    where [random.sample] calls it). *)
Definition randbelow (n : nat) : M nat :=
  fun g => (Ret (draw rand (rng_calls g) mod n)%nat,
            Globals (data_index g) (S (rng_calls g)) (reads g)).

(** [random.sample(population, k)], as CPython's [random.py] has it.
    [setsize] is the population size up to which the sample is drawn
    from a copy of the population:
    [21 + 4 ** ceil(log(k * 3, 4))] for [k > 5], and 21 otherwise
    ([k * 3] is no power of 4, so the ceiling is the least [e] with
    [k * 3 <= 4 ** e]). *)
Definition setsize (k : Z) : Z :=
  if 5 <? k then 21 + 4 ^ ((Z.log2_up (k * 3) + 1) / 2) else 21.

(** The loop for a population of at most [setsize] items:
    [j = randbelow(n - i); result[i] = pool[j]; pool[j] = pool[n - i - 1]].
    [result] is filled from the left, so its first [i] items stand for
    it. *)
Definition sample_from_pool (n : Z) (i : Z) (s : list Z * list Z)
  : M (list Z * list Z) :=
  let '(result, pool) := s in
  j <- randbelow (Z.to_nat (n - i)) ;;
  x <- lift IndexError (getitem pool (Z.of_nat j)) ;;
  y <- lift IndexError (getitem pool (n - i - 1)) ;;
  pool' <- lift IndexError (setitem pool (Z.of_nat j) y) ;;
  ret (result ++ [x], pool').

(** [while j in selected: j = randbelow(n)].  The code sets no bound to
    the number of redraws; the model follows [fuel] of them. *)
Fixpoint redraw (fuel : nat) (n : nat) (selected : list nat) (j : nat) : M nat :=
  if decide (j ∈ selected) then
    match fuel with
    | O => unfinished
    | S fuel' => j' <- randbelow n ;; redraw fuel' n selected j'
    end
  else ret j.

(** The loop for a larger population:
    [j = randbelow(n); while j in selected: ...; selected_add(j);
    result[i] = population[j]]. *)
Definition sample_by_index (population : list Z) (n : Z) (i : Z)
    (s : list Z * list nat) : M (list Z * list nat) :=
  let '(result, selected) := s in
  j <- randbelow (Z.to_nat n) ;;
  j <- redraw (patience rand) (Z.to_nat n) selected j ;;
  x <- lift IndexError (getitem population (Z.of_nat j)) ;;
  ret (result ++ [x], j :: selected).

Definition random_sample (population : list Z) (k : Z) : M (list Z) :=
  let n := len population in
  if (k <? 0) || (n <? k) then raise ValueError
  else if n <=? setsize k then
    s <- for_each (range k) (sample_from_pool n) ([], population) ;;
    ret s.1
  else
    s <- for_each (range k) (sample_by_index population n) ([], []) ;;
    ret s.1.

(** The locals carried around the loops of [generate_batch].  [labels]
    has shape [(batch_size, 1)]: its single column is kept. *)
Record locals : Set := Locals {
  batch : list (option Z);
  labels : list (option Z);
  buffer : list Z
}.

Section Call.

Variables batch_size num_skips skip_window : Z.

Definition span : Z := 2 * skip_window + 1.

(** The body of [for j, context_word in enumerate(words_to_use)]. *)
Definition pair_body (i : Z) (jc : Z * Z) (l : locals) : M locals :=
  let '(j, context_word) := jc in
  c <- lift IndexError (getitem (buffer l) skip_window) ;;
  batch' <- ndarray_setitem (batch l) (i * num_skips + j) c ;;
  x <- lift IndexError (getitem (buffer l) context_word) ;;
  labels' <- ndarray_setitem (labels l) (i * num_skips + j) x ;;
  ret (Locals batch' labels' (buffer l)).

(** Sliding the window at the end of a group.  [buffer[:] = data[:span]]
    evaluates the slice and then fails: a deque takes integer indices
    only, so the slice assignment raises [TypeError] and the assignment
    [data_index = span] after it is not reached. *)
Definition slide (l : locals) : M locals :=
  di <- get_data_index ;;
  if di =? len data then
    _ <- data_slice 0 span ;;
    raise TypeError
  else
    x <- data_getitem di ;;
    put_data_index (di + 1) ;;;
    ret (Locals (batch l) (labels l) (deque_append span (buffer l) x)).

(** The body of [for i in range(batch_size // num_skips)]. *)
Definition group_body (i : Z) (l : locals) : M locals :=
  let context_words := filter (fun w => w <> skip_window) (range span) in
  words_to_use <- random_sample context_words num_skips ;;
  l' <- for_each (enumerate words_to_use) (pair_body i) l ;;
  slide l'.

(** The call up to and including the loop over the groups. *)
Definition generate_groups : M locals :=
  r <- py_mod batch_size num_skips ;;
  py_assert (r =? 0) ;;;
  py_assert (num_skips <=? 2 * skip_window) ;;;
  batch0 <- np_ndarray batch_size ;;
  labels0 <- np_ndarray batch_size ;;
  buffer0 <- deque_new span ;;
  di <- get_data_index ;;
  (if di + span >? len data then put_data_index 0 else ret tt) ;;;
  di <- get_data_index ;;
  w <- data_slice di (di + span) ;;
  put_data_index (di + span) ;;;
  for_each (range (batch_size / num_skips)) group_body
           (Locals batch0 labels0 (deque_extend span buffer0 w)).

(** The backtracking assignment after the loop. *)
Definition backtrack : M unit :=
  di <- get_data_index ;;
  v <- py_mod (di + len data - span) (len data) ;;
  put_data_index v.

Definition generate_batch : M (list (option Z) * list (option Z)) :=
  l <- generate_groups ;;
  backtrack ;;;
  ret (batch l, labels l).

End Call.

(** Successive calls, as the training loop makes them: the batches of
    all the calls, in order. *)
Definition run_calls (calls : list (Z * Z * Z))
  : M (list (list (option Z) * list (option Z))) :=
  for_each calls
    (fun '(batch_size, num_skips, skip_window) outs =>
       r <- generate_batch batch_size num_skips skip_window ;;
       ret (outs ++ [r]))
    [].

(** The window of a group: the [span] corpus items from [start] on. *)
Definition window_at (skip_window : Z) (start : Z) : list Z :=
  slice data start (start + span skip_window).

(** Where a call starts reading: the cursor, or 0 when fewer than [span]
    items are left from the cursor on. *)
Definition first_start (skip_window : Z) (g : globals) : Z :=
  if data_index g + span skip_window >? len data then 0 else data_index g.

End WithCorpus.

(** What the [i]-th group of [num_skips] consecutive output pairs owes to
    the window [w]: one center, the item in the middle of [w], for all
    its pairs, and contexts read from [w] at pairwise distinct positions
    [ps], none of them the middle one. *)
Definition group_from_window (num_skips skip_window : Z) (w : list Z)
    (b lb : list (option Z)) (i : Z) : Prop :=
  exists (c : Z) (ps : list Z),
    w !! Z.to_nat skip_window = Some c /\
    len ps = num_skips /\
    NoDup ps /\
    (forall p, p ∈ ps -> 0 <= p < span skip_window /\ p <> skip_window) /\
    forall (j : nat) (p : Z), ps !! j = Some p ->
      b !! Z.to_nat (i * num_skips + Z.of_nat j) = Some (Some c) /\
      exists x, w !! Z.to_nat p = Some x /\
        lb !! Z.to_nat (i * num_skips + Z.of_nat j) = Some (Some x).

(** What the loop of [random.sample] over the indices keeps: the items
    drawn are distinct items of the population, and the index of each of
    them is among the selected ones. *)
Definition drawn_by_index (population : list Z) (result : list Z)
    (selected : list nat) : Prop :=
  NoDup result /\ result ⊆ population /\
  forall (j : nat) x, population !! j = Some x -> x ∈ result -> j ∈ selected.

(** Two sources that give the same next [d] draws, each from its own
    position. *)
Definition same_draws (rand1 rand2 : source) (d : nat) (g1 g2 : globals)
  : Prop :=
  forall j, (j < d)%nat ->
    draw rand1 (rng_calls g1 + j)%nat = draw rand2 (rng_calls g2 + j)%nat.

(** The number of draws a computation takes from the source. *)
Definition draws_used {A} (m : M A) (g : globals) : nat :=
  (rng_calls (m g).2 - rng_calls g)%nat.

(** Two computations that cannot be told apart from states with the
    same cursor by sources that give the same draws as far as the first
    computation uses them: the same outcome, the same cursor afterwards,
    and the same number of draws used.  The ghost field [reads] of the
    two states is left free. *)
Definition alike {A} (rand1 rand2 : source) (m1 m2 : M A) : Prop :=
  forall g1 g2,
    data_index g1 = data_index g2 ->
    (rng_calls g1 <= rng_calls (m1 g1).2)%nat /\
    (same_draws rand1 rand2 (draws_used m1 g1) g1 g2 ->
     (m1 g1).1 = (m2 g2).1 /\
     data_index (m1 g1).2 = data_index (m2 g2).2 /\
     rng_calls (m2 g2).2 = (rng_calls g2 + draws_used m1 g1)%nat).

(** The state before the first call, and small inputs to run the
    sampler on. *)
Definition initial : globals := Globals 0 0 [].
Definition initial_with_history : globals := Globals 0 0 [7; 8; 9].
Definition toy_corpus : list Z := [5; 2; 2; 0; 5; 2; 7; 1; 1; 3].
Definition short_corpus : list Z := [0; 1; 2; 3].
Definition tiny_corpus : list Z := [1; 2].
Definition draws : source := Source (fun i => i) 64.
Definition draws_then_zero : source :=
  Source (fun i => if (i <? 8)%nat then i else 0%nat) 64.

(** A corpus and a source on which [random.sample] has to redraw: thirty
    items, and the draws 5, 5, 7, 0, 0, ... *)
Definition long_corpus : list Z := seqZ 0 30.
Definition repeating_draws : source :=
  Source (fun i => match i with 0 | 1 => 5 | 2 => 7 | _ => 0 end)%nat 64.
Definition repeating_then_one : source :=
  Source (fun i => match i with 0 | 1 => 5 | 2 => 7 | _ => 1 end)%nat 64.

End Sampler.

(** ** The vocabulary builder *)

Module Vocab.

Import Py.
Local Open Scope Z_scope.

(** A Python [dict]: the items in insertion order.  Assigning to a key
    that is present replaces its value in place; a new key goes last. *)
Section Dict.

Context {K V : Type} `{EqDecision K}.

Fixpoint dict_get (d : list (K * V)) (k : K) : option V :=
  match d with
  | [] => None
  | (k', v) :: d' => if decide (k' = k) then Some v else dict_get d' k
  end.

Fixpoint dict_set (d : list (K * V)) (k : K) (v : V) : list (K * V) :=
  match d with
  | [] => [(k, v)]
  | (k', v') :: d' =>
      if decide (k' = k) then (k', v) :: d' else (k', v') :: dict_set d' k v
  end.

(** [dict(pairs)] *)
Definition dict_of (pairs : list (K * V)) : list (K * V) :=
  foldl (fun d kv => dict_set d kv.1 kv.2) [] pairs.

Definition keys (d : list (K * V)) : list K := d.*1.
Definition values (d : list (K * V)) : list V := d.*2.

End Dict.

(** [collections.Counter(words)]: every distinct word with the number of
    its occurrences, in the order of first occurrence. *)
Definition counter_add (c : list (string * Z)) (w : string) : list (string * Z) :=
  match dict_get c w with
  | Some n => dict_set c w (n + 1)
  | None => dict_set c w 1
  end.

Definition Counter (words : list string) : list (string * Z) :=
  foldl counter_add [] words.

(** [Counter.most_common(n)]: the [n] items with the largest counts,
    largest first, items of equal count in the order of the counter;
    nothing when [n <= 0]. *)
Fixpoint insert_desc (x : string * Z) (l : list (string * Z)) : list (string * Z) :=
  match l with
  | [] => [x]
  | y :: l' => if x.2 <? y.2 then y :: insert_desc x l' else x :: y :: l'
  end.

Definition sort_desc (l : list (string * Z)) : list (string * Z) :=
  foldr insert_desc [] l.

Definition most_common (c : list (string * Z)) (n : Z) : list (string * Z) :=
  take (Z.to_nat n) (sort_desc c).

(** [count[0][1] = v]; [count] always holds the sentinel item first. *)
Definition set_first_count (count : list (string * Z)) (v : Z) : list (string * Z) :=
  match count with
  | [] => []
  | (w, _) :: rest => (w, v) :: rest
  end.

Record dataset : Type := Dataset {
  data : list Z;
  count : list (string * Z);
  dictionary : list (string * Z);
  reversed_dictionary : list (Z * string)
}.

(** The loop [for word, _ in count: dictionary[word] = len(dictionary)]. *)
Definition rank_step (d : list (string * Z)) (wc : string * Z)
  : list (string * Z) :=
  dict_set d wc.1 (len d).

Definition assign_ranks (count : list (string * Z)) : list (string * Z) :=
  foldl rank_step [] count.

(** [dictionary.get(word, 0)] *)
Definition rank_of (dictionary : list (string * Z)) (word : string) : Z :=
  default 0 (dict_get dictionary word).

(** The loop over [words]: the encoded corpus and [unk_count]. *)
Definition encode (dictionary : list (string * Z)) (words : list string)
  : list Z * Z :=
  foldl (fun '(data, unk_count) word =>
           let index := rank_of dictionary word in
           (data ++ [index], if index =? 0 then unk_count + 1 else unk_count))
        ([], 0) words.

Definition build_dataset (words : list string) (n_words : Z) : dataset :=
  let count := ("UNK"%string, -1) :: most_common (Counter words) (n_words - 1) in
  let dictionary := assign_ranks count in
  let '(data, unk_count) := encode dictionary words in
  let count := set_first_count count unk_count in
  let reversed_dictionary := dict_of (zip (values dictionary) (keys dictionary)) in
  Dataset data count dictionary reversed_dictionary.

(** The words that keep a rank of their own: the [n_words - 1] most
    common ones. *)
Definition top_words (words : list string) (n_words : Z) : list string :=
  keys (most_common (Counter words) (n_words - 1)).

(** The number of occurrences of a word among the input tokens, and the
    count a counter holds for it ([Counter[w]] is 0 for a missing [w]). *)
Definition occurrences (w : string) (words : list string) : Z :=
  len (filter (fun x => x = w) words).

Definition count_of (c : list (string * Z)) (w : string) : Z :=
  default 0 (dict_get c w).

(** The order of [most_common]: larger counts first. *)
Definition by_count_desc (x y : string * Z) : Prop := y.2 <= x.2.

(** The same order with the ties settled by an order [B] of the items. *)
Definition by_count_then (B : relation (string * Z)) (x y : string * Z) : Prop :=
  y.2 < x.2 \/ (y.2 = x.2 /\ B x y).

(** The position of the first occurrence of a word among the tokens
    (the number of tokens for a word that does not occur), and the
    distinct tokens in the order of their first occurrence. *)
Fixpoint first_occurrence (w : string) (words : list string) : nat :=
  match words with
  | [] => 0
  | x :: words' => if decide (x = w) then 0%nat else S (first_occurrence w words')
  end.

Fixpoint firsts (words : list string) : list string :=
  match words with
  | [] => []
  | x :: words' => x :: filter (fun w => w <> x) (firsts words')
  end.

(** The order of the vocabulary: the word with more occurrences comes
    first, and of two words with the same number of occurrences the one
    met first among the tokens. *)
Definition precedes (words : list string) (w w' : string) : Prop :=
  occurrences w' words < occurrences w words \/
  (occurrences w' words = occurrences w words /\
   (first_occurrence w words < first_occurrence w' words)%nat).

(** Small inputs to run the builder on. *)
Definition toy_words : list string := ["b"; "a"; "b"; "c"; "a"; "d"]%string.
Definition unk_words : list string := ["UNK"; "a"]%string.

End Vocab.

(** ** The cells around the two functions *)

Module Glue.

Import Py Sampler Vocab.
Local Open Scope Z_scope.

(** [[reverse_dictionary[i] for i in range(n)]], the labels of the plots;
    [None] is the [KeyError] of a rank the dictionary lacks. *)
Definition words_of_ranks (rd : list (Z * string)) (n : Z) : option (list string) :=
  mapM (dict_get rd) (range n).

(** One line of the loop that shows a batch:
    [batch[i], reverse_dictionary[batch[i]], labels[i, 0],
    reverse_dictionary[labels[i, 0]]].  [None] is an exception
    ([IndexError] past the batch, [KeyError] for a rank the dictionary
    lacks); a cell never written has no value to show and gives [None]
    as well. *)
Definition pair_line (rd : list (Z * string)) (b lb : list (option Z)) (i : Z)
  : option (Z * string * Z * string) :=
  match getitem b i, getitem lb i with
  | Some (Some c), Some (Some x) =>
      match dict_get rd c, dict_get rd x with
      | Some w, Some v => Some (c, w, x, v)
      | _, _ => None
      end
  | _, _ => None
  end.

(** [for i in range(n): print(...)] *)
Definition show_pairs (rd : list (Z * string)) (b lb : list (option Z)) (n : Z)
  : option (list (Z * string * Z * string)) :=
  mapM (pair_line rd b lb) (range n).

(** The word a token is shown as after encoding and decoding. *)
Definition shown_word (top : list string) (w : string) : string :=
  if decide (w ∈ top) then w else "UNK"%string.

(** The sum of the counts of a count table. *)
Definition total (c : list (string * Z)) : Z :=
  foldr (fun x acc => x.2 + acc) 0 c.

End Glue.

(** ** Fetching the corpus *)

Module Download.

Import Py.
Local Open Scope Z_scope.

Inductive io_exn : Set :=
| DownloadError
| FileNotFoundError
| Failure (message : string).

Inductive printed : Set :=
| Line (s : string)
| Number (n : Z).

Definition url : string := "http://mattmahoney.net/dc/".

Section OS.

(** The files and the network, as far as [maybe_download] sees them:
    [os.path.exists], the [st_size] of [os.stat] ([None]: the file is not
    there, [FileNotFoundError]), and [urllib.request.urlretrieve], which
    stores what it fetches under the file name it is given and returns
    that name ([false]: it raised). *)
Variable W : Type.
Variable path_exists : W -> string -> bool.
Variable st_size : W -> string -> option Z.
Variable urlretrieve : W -> string -> string -> bool * W.

Definition maybe_download (path filename : string) (expected_bytes : Z)
    (w : W) (out : list printed)
  : (io_exn + string) * W * list printed :=
  let '(fetched, w1) :=
    if negb (path_exists w (path ++ filename))
    then urlretrieve w (url ++ filename) filename
    else (true, w) in
  if negb fetched then (inl DownloadError, w1, out)
  else
    match st_size w1 (path ++ filename) with
    | None => (inl FileNotFoundError, w1, out)
    | Some size =>
        if size =? expected_bytes
        then (inr filename, w1,
              out ++ [Line ("Found and verified " ++ filename)])
        else (inl (Failure ("Failed to verify " ++ filename
                            ++ ". Can you get to it with a browser?")),
              w1, out ++ [Number size])
    end.

End OS.

(** A world to run [maybe_download] in: the local files and the remote
    files, each a table from names to sizes.  Fetching a remote file
    that is there stores it under the local name. *)
Record world : Set := World {
  local_files : list (string * Z);
  remote_files : list (string * Z)
}.

Fixpoint size_in (files : list (string * Z)) (name : string) : option Z :=
  match files with
  | [] => None
  | (n, size) :: files' =>
      if decide (n = name) then Some size else size_in files' name
  end.

Definition world_exists (w : world) (name : string) : bool :=
  bool_decide (is_Some (size_in (local_files w) name)).

Definition world_size (w : world) (name : string) : option Z :=
  size_in (local_files w) name.

Definition world_fetch (w : world) (address name : string) : bool * world :=
  match size_in (remote_files w) address with
  | Some size => (true, World ((name, size) :: local_files w) (remote_files w))
  | None => (false, w)
  end.

Definition remote_only : world :=
  World [] [("http://mattmahoney.net/dc/text8.zip"%string, 31344016)].

End Download.

(** ** Plotting *)

Module Plot.

Import Py.
Local Open Scope Z_scope.

Inductive plot_exn : Set :=
| AssertionError (message : string)
| IndexError
| ValueError.

Section Coordinates.

(** The numbers of the embedding, which the plot only passes on. *)
Variable C : Type.

Inductive drawn : Type :=
| Figure (width height : Z)
| Scatter (x y : C)
| Annotate (label : string) (x y : C).

(** [x, y = low_dim_embs[i, :]] and the two drawing calls of a label.
    The result is the exception raised, if any, and the figure so far. *)
Definition plot_label (low_dim_embs : list (list C)) (il : Z * string)
    (out : list drawn) : option plot_exn * list drawn :=
  let '(i, label) := il in
  match getitem low_dim_embs i with
  | None => (Some IndexError, out)
  | Some [x; y] => (None, out ++ [Scatter x y; Annotate label x y])
  | Some _ => (Some ValueError, out)
  end.

Fixpoint plot_labels (low_dim_embs : list (list C)) (ils : list (Z * string))
    (out : list drawn) : option plot_exn * list drawn :=
  match ils with
  | [] => (None, out)
  | il :: ils' =>
      match plot_label low_dim_embs il out with
      | (Some e, out') => (Some e, out')
      | (None, out') => plot_labels low_dim_embs ils' out'
      end
  end.

(** The source has a third parameter, [filename], which its body never
    reads; the remaining arguments of [plt.annotate] ([xytext],
    [textcoords], [ha], [va]) are constants. *)
Definition plot_with_labels (low_dim_embs : list (list C)) (labels : list string)
    (out : list drawn) : option plot_exn * list drawn :=
  if len low_dim_embs <? len labels
  then (Some (AssertionError "More labels than embeddings"), out)
  else plot_labels low_dim_embs (enumerate labels) (out ++ [Figure 18 18]).

End Coordinates.

End Plot.

(** * Properties *)

(** ** Facts about the built-ins *)

Module PyFacts.

Import Py.
Local Open Scope Z_scope.

Lemma len_nonneg {A} (l : list A) : 0 <= len l.
Proof. unfold len. lia. Qed.

Lemma norm_index_nonneg n i k :
  0 <= i -> norm_index n i = Some k -> k = Z.to_nat i /\ i < n.
Proof.
  unfold norm_index. intros Hi.
  destruct (0 <=? i) eqn:E0; [|lia].
  destruct (i <? n) eqn:E1; simpl.
  - intros [= <-]. split; [done|lia].
  - destruct (- n <=? i); simpl; [|done].
    destruct (i <? 0) eqn:E2; [lia|done].
Qed.

Lemma norm_index_in_range n i :
  0 <= i < n -> norm_index n i = Some (Z.to_nat i).
Proof.
  intros Hi. unfold norm_index.
  destruct (0 <=? i) eqn:E0; [|lia].
  destruct (i <? n) eqn:E1; [done|lia].
Qed.

Lemma getitem_nonneg {A} (l : list A) i x :
  0 <= i -> getitem l i = Some x -> l !! Z.to_nat i = Some x.
Proof.
  unfold getitem. intros Hi.
  destruct (norm_index (len l) i) as [k|] eqn:E; [|done].
  apply norm_index_nonneg in E as [-> _]; done.
Qed.

Lemma getitem_in_range {A} (l : list A) i :
  0 <= i < len l -> getitem l i = l !! Z.to_nat i.
Proof. intros Hi. unfold getitem. by rewrite norm_index_in_range. Qed.

Lemma setitem_nonneg {A} (l l' : list A) i v :
  0 <= i -> setitem l i v = Some l' ->
  l' = <[Z.to_nat i := v]> l /\ i < len l.
Proof.
  unfold setitem. intros Hi.
  destruct (norm_index (len l) i) as [k|] eqn:E; [|done].
  apply norm_index_nonneg in E as [-> ?]; [|done].
  by intros [= <-].
Qed.

Lemma setitem_in_range {A} (l : list A) i v :
  0 <= i < len l -> setitem l i v = Some (<[Z.to_nat i := v]> l).
Proof. intros Hi. unfold setitem. by rewrite norm_index_in_range. Qed.

(** A slice with non-negative bounds, read position by position. *)
Lemma lookup_slice {A} (l : list A) lo hi (k : nat) :
  0 <= lo -> 0 <= hi ->
  slice l lo hi !! k =
    if decide (lo + Z.of_nat k < hi) then l !! (Z.to_nat lo + k)%nat else None.
Proof.
  intros Hlo Hhi. unfold slice, clamp.
  destruct (lo <? 0) eqn:E; [lia|]. clear E.
  destruct (hi <? 0) eqn:E; [lia|]. clear E.
  pose proof (len_nonneg l) as Hn. unfold len in *.
  destruct (decide (lo + Z.of_nat k < hi)) as [Hk|Hk].
  - destruct (decide (lo + Z.of_nat k < Z.of_nat (length l))) as [Hin|Hout].
    + rewrite lookup_take_lt by lia. rewrite lookup_drop. f_equal. lia.
    + rewrite (proj2 (lookup_ge_None l (Z.to_nat lo + k)%nat)) by lia.
      apply lookup_ge_None. rewrite length_take, length_drop. lia.
  - apply lookup_ge_None. rewrite length_take, length_drop. lia.
Qed.

Lemma length_slice {A} (l : list A) lo hi :
  0 <= lo -> lo <= hi -> hi <= len l ->
  length (slice l lo hi) = Z.to_nat (hi - lo).
Proof.
  intros Hlo Hhi Hn. unfold slice, clamp, len in *.
  destruct (lo <? 0) eqn:E; [lia|]. destruct (hi <? 0) eqn:E'; [lia|].
  rewrite length_take, length_drop. lia.
Qed.


Lemma length_slice_le {A} (l : list A) lo hi :
  0 <= lo -> 0 <= hi -> Z.of_nat (length (slice l lo hi)) <= Z.max 0 (hi - lo).
Proof.
  intros Hlo Hhi. unfold slice, clamp, len in *.
  destruct (lo <? 0) eqn:E; [lia|]. destruct (hi <? 0) eqn:E'; [lia|].
  rewrite length_take, length_drop. lia.
Qed.

(** Floor division of a non-negative integer by a negative one. *)
Lemma floordiv_nonneg_neg a b : 0 <= a -> b < 0 -> a / b <= 0.
Proof.
  intros Ha Hb.
  pose proof (Z.div_mod a b ltac:(lia)) as E.
  pose proof (Z.mod_neg_bound a b Hb) as Hr. nia.
Qed.

(** Extending an empty deque with no more items than it can hold keeps
    them all. *)
Lemma deque_append_room m d x :
  Z.of_nat (length d) < m -> deque_append m d x = d ++ [x].
Proof.
  intros H. unfold deque_append.
  replace (length (d ++ [x]) - Z.to_nat m)%nat with 0%nat; [done|].
  rewrite length_app. cbn [length]. lia.
Qed.

Lemma deque_extend_room m xs d :
  Z.of_nat (length d + length xs) <= m -> deque_extend m d xs = d ++ xs.
Proof.
  unfold deque_extend. revert d. induction xs as [|x xs IH]; intros d H; simpl.
  - by rewrite app_nil_r.
  - cbn [length] in H. rewrite deque_append_room by lia.
    rewrite IH; [by rewrite <- app_assoc|]. rewrite length_app. cbn [length]. lia.
Qed.

(** Appending to a full deque drops its oldest item. *)
Lemma deque_append_full m d x :
  0 < m -> Z.of_nat (length d) = m -> deque_append m d x = drop 1 d ++ [x].
Proof.
  intros Hm H. unfold deque_append.
  replace (length (d ++ [x]) - Z.to_nat m)%nat with 1%nat
    by (rewrite length_app; cbn [length]; lia).
  destruct d as [|y d]; [cbn [length] in H; lia|]. done.
Qed.

(** Sliding a full window over a list by one position. *)
Lemma slide_slice (l : list Z) s m x :
  0 <= s -> 0 < m -> s + m < len l ->
  getitem l (s + m) = Some x ->
  deque_append m (slice l s (s + m)) x = slice l (s + 1) (s + m + 1).
Proof.
  intros Hs Hm Hlt Hx.
  apply getitem_nonneg in Hx; [|lia].
  rewrite deque_append_full; [|done|rewrite length_slice; lia].
  apply list_eq. intros k.
  destruct (decide (k < Z.to_nat m - 1)%nat) as [Hk|Hk].
  - rewrite lookup_app_l
      by (rewrite length_drop, length_slice; lia).
    rewrite lookup_drop, !lookup_slice by lia.
    rewrite !decide_True by lia. f_equal. lia.
  - destruct (decide (k = Z.to_nat m - 1)%nat) as [->|Hk'].
    + rewrite lookup_app_r
        by (rewrite length_drop, length_slice; lia).
      rewrite length_drop, length_slice by lia.
      replace (Z.to_nat m - 1 - (Z.to_nat (s + m - s) - 1))%nat with 0%nat by lia.
      simpl. rewrite lookup_slice by lia. rewrite decide_True by lia.
      rewrite <- Hx. f_equal. lia.
    + rewrite lookup_slice by lia. rewrite decide_False by lia.
      apply lookup_ge_None. rewrite length_app, length_drop, length_slice by lia.
      simpl. lia.
Qed.

End PyFacts.

(** ** Facts about the sampler *)

Module SamplerFacts.

Import Py PyFacts Sampler.
Local Open Scope Z_scope.

(** *** Inversion of successful computations *)

Lemma bind_Ret {A B} (m : M A) (k : A -> M B) g b g' :
  bind m k g = (Ret b, g') ->
  exists a g1, m g = (Ret a, g1) /\ k a g1 = (Ret b, g').
Proof.
  unfold bind. destruct (m g) as [[a|e|] g1]; [eauto|discriminate..].
Qed.

Lemma bind_Raise {A B} (m : M A) (k : A -> M B) g e g' :
  m g = (Raise e, g') -> bind m k g = (Raise e, g').
Proof. unfold bind. by intros ->. Qed.

Lemma bind_step {A B} (m : M A) (k : A -> M B) g a g1 :
  m g = (Ret a, g1) -> bind m k g = k a g1.
Proof. unfold bind. by intros ->. Qed.

Lemma ret_Ret {A} (a b : A) g g' : ret a g = (Ret b, g') -> b = a /\ g' = g.
Proof. by intros [= -> ->]. Qed.

Lemma lift_Ret {A} e (o : option A) a g g' :
  lift e o g = (Ret a, g') -> o = Some a /\ g' = g.
Proof. destruct o; [by intros [= -> ->]|discriminate]. Qed.

Lemma py_assert_Ret b u g g' :
  py_assert b g = (Ret u, g') -> b = true /\ g' = g.
Proof. destruct b; [by intros [= _ ->]|discriminate]. Qed.

Lemma py_mod_Ret a b r g g' :
  py_mod a b g = (Ret r, g') -> b <> 0 /\ r = a mod b /\ g' = g.
Proof.
  unfold py_mod. destruct (b =? 0) eqn:E; [discriminate|].
  intros [= <- <-]. split; [lia|done].
Qed.

Lemma np_ndarray_Ret n a g g' :
  np_ndarray n g = (Ret a, g') ->
  0 <= n /\ a = replicate (Z.to_nat n) None /\ g' = g.
Proof.
  unfold np_ndarray. destruct (n <? 0) eqn:E; [discriminate|].
  intros [= <- <-]. split; [lia|done].
Qed.

Lemma ndarray_setitem_Ret a i v a' g g' :
  ndarray_setitem a i v g = (Ret a', g') ->
  setitem a i (Some v) = Some a' /\ is_int32 v = true /\ g' = g.
Proof.
  unfold ndarray_setitem. intros H.
  apply bind_Ret in H as (a1 & g1 & H1 & H). apply lift_Ret in H1 as [H1 ->].
  destruct (is_int32 v); [|discriminate].
  apply ret_Ret in H as [-> ->]. done.
Qed.

Lemma ndarray_setitem_run a i v g :
  0 <= i < len a -> is_int32 v = true ->
  ndarray_setitem a i v g = (Ret (<[Z.to_nat i := Some v]> a), g).
Proof.
  intros Hi Hv. unfold ndarray_setitem, bind.
  rewrite setitem_in_range by done. cbn [lift]. unfold ret. by rewrite Hv.
Qed.

Lemma int32_corpus_Forall data :
  int32_corpus data <-> Forall (fun v => is_int32 v = true) data.
Proof.
  unfold int32_corpus. induction data as [|v data IH]; cbn [forallb].
  - split; [constructor|done].
  - rewrite andb_true_iff, Forall_cons. by rewrite IH.
Qed.

Lemma getitem_elem_of {A} (l : list A) i x : getitem l i = Some x -> x ∈ l.
Proof.
  unfold getitem. destruct (norm_index (len l) i) as [k|]; [|done].
  apply list_elem_of_lookup_2.
Qed.

Lemma deque_new_Ret m d g g' :
  deque_new m g = (Ret d, g') -> 0 <= m /\ d = [] /\ g' = g.
Proof.
  unfold deque_new. destruct (m <? 0) eqn:E; [discriminate|].
  intros [= <- <-]. split; [lia|done].
Qed.

Lemma for_each_cons_Ret {A S} (x : A) xs (body : A -> S -> M S) s g s' g' :
  for_each (x :: xs) body s g = (Ret s', g') ->
  exists s1 g1, body x s g = (Ret s1, g1) /\ for_each xs body s1 g1 = (Ret s', g').
Proof. simpl. apply bind_Ret. Qed.

Lemma for_each_app {A S} (xs ys : list A) (body : A -> S -> M S) s g :
  for_each (xs ++ ys) body s g =
  bind (for_each xs body s) (for_each ys body) g.
Proof.
  revert s g. induction xs as [|x xs IH]; intros s g; simpl; [done|].
  unfold bind. destruct (body x s g) as [[s1|e|] g1]; [|done..].
  by rewrite IH.
Qed.

(** *** Sampling without replacement *)

(** Moving the last item of the part of the pool not drawn yet into the
    place of the item drawn leaves the other items of that part. *)
Lemma take_swap_last (pool : list Z) (m j : nat) x y :
  (j < m)%nat -> (m <= length pool)%nat ->
  pool !! j = Some x -> pool !! (m - 1)%nat = Some y ->
  x :: take (m - 1) (<[j := y]> pool) ≡ₚ take m pool.
Proof.
  intros Hj Hm Hx Hy.
  replace m with (S (m - 1)) at 2 by lia.
  rewrite (take_S_r _ _ _ Hy).
  destruct (decide (j = m - 1)%nat) as [->|Hne].
  - assert (x = y) as -> by congruence.
    rewrite take_insert_ge by lia. apply Permutation_cons_append.
  - rewrite take_insert_lt by lia.
    assert (Ht : take (m - 1) pool !! j = Some x)
      by (rewrite lookup_take_lt by lia; done).
    rewrite insert_take_drop by (rewrite length_take; lia).
    rewrite <- (take_drop_middle _ _ _ Ht) at 3.
    rewrite <- !app_assoc. cbn [app].
    rewrite <- (Permutation_middle _ (_ ++ [y]) x).
    apply Permutation_cons; [done|]. apply Permutation_app_head.
    apply Permutation_cons_append.
Qed.

Section Sampling.

Variable rand : source.

(** The loop over a copy of the population always runs to its end, with
    one draw per item; the items drawn and the part of the pool that is
    left are together what they were before. *)
Lemma pool_loop n (m : nat) : forall i result pool g,
  0 <= i -> i + Z.of_nat m <= n -> len pool = n ->
  exists result' pool',
    for_each (seqZ i (Z.of_nat m)) (sample_from_pool rand n) (result, pool) g =
      (Ret (result', pool'),
       Globals (data_index g) (rng_calls g + m) (reads g)) /\
    len pool' = n /\
    length result' = (length result + m)%nat /\
    result' ++ take (Z.to_nat (n - i - Z.of_nat m)) pool' ≡ₚ
      result ++ take (Z.to_nat (n - i)) pool.
Proof.
  induction m as [|m IH]; intros i result pool g Hi Hm Hlen.
  - exists result, pool. cbn [seqZ for_each]. unfold ret.
    rewrite Nat.add_0_r, Z.sub_0_r. destruct g. repeat split; try done; lia.
  - rewrite seqZ_cons by lia.
    replace (Z.pred (Z.of_nat (S m))) with (Z.of_nat m) by lia.
    cbn [for_each]. unfold len in Hlen.
    set (j := (draw rand (rng_calls g) mod Z.to_nat (n - i))%nat).
    assert (Hj : (j < Z.to_nat (n - i))%nat)
      by (apply Nat.mod_upper_bound; lia).
    destruct (lookup_lt_is_Some_2 pool j) as [x Hx]; [lia|].
    destruct (lookup_lt_is_Some_2 pool (Z.to_nat (n - i) - 1)) as [y Hy]; [lia|].
    set (g1 := Globals (data_index g) (S (rng_calls g)) (reads g)).
    assert (Hbody : sample_from_pool rand n i (result, pool) g =
              (Ret (result ++ [x], <[j := y]> pool), g1)).
    { unfold sample_from_pool, bind at 1, randbelow. fold j. fold g1.
      rewrite getitem_in_range by (unfold len; lia).
      rewrite Nat2Z.id, Hx. cbn [lift]. rewrite (bind_step _ _ _ x g1) by done.
      rewrite getitem_in_range by (unfold len; lia).
      replace (Z.to_nat (n - i - 1)) with (Z.to_nat (n - i) - 1)%nat by lia.
      rewrite Hy. cbn [lift]. rewrite (bind_step _ _ _ y g1) by done.
      rewrite setitem_in_range by (unfold len; lia).
      rewrite Nat2Z.id. cbn [lift]. by rewrite (bind_step _ _ _ _ g1) by done. }
    rewrite (bind_step _ _ _ _ _ Hbody).
    destruct (IH (Z.succ i) (result ++ [x]) (<[j := y]> pool) g1)
      as (result' & pool' & Hrun & Hlen' & Hres & Hperm);
      [lia|lia|unfold len; rewrite length_insert; lia|].
    exists result', pool'. split; [|split; [done|split]].
    + rewrite Hrun. subst g1. cbn [data_index rng_calls reads].
      f_equal. f_equal. lia.
    + rewrite Hres, length_app. cbn [length]. lia.
    + replace (n - i - Z.of_nat (S m)) with (n - Z.succ i - Z.of_nat m) by lia.
      rewrite Hperm, <- app_assoc. f_equiv. cbn [app].
      replace (Z.to_nat (n - Z.succ i)) with (Z.to_nat (n - i) - 1)%nat by lia.
      apply take_swap_last; try done; lia.
Qed.

(** The rejection loop ends on an index that was not selected before. *)
Lemma redraw_Ret fuel : forall n selected j g j' g',
  redraw rand fuel n selected j g = (Ret j', g') ->
  (j' ∉ selected) /\
  data_index g' = data_index g /\ reads g' = reads g /\
  (rng_calls g <= rng_calls g')%nat.
Proof.
  induction fuel as [|fuel IH]; intros n selected j g j' g' H; cbn [redraw] in H.
  - destruct (decide (j ∈ selected)); [discriminate|].
    apply ret_Ret in H as [-> ->]. done.
  - destruct (decide (j ∈ selected)).
    + apply bind_Ret in H as (j1 & g1 & H1 & H).
      unfold randbelow in H1. injection H1 as <- <-.
      apply IH in H as (? & ? & ? & ?). cbn [data_index rng_calls reads] in *.
      repeat split; try done. lia.
    + apply ret_Ret in H as [-> ->]. done.
Qed.

Lemma index_loop_Ret population n xs : forall result selected g result' selected' g',
  NoDup population ->
  drawn_by_index population result selected ->
  for_each xs (sample_by_index rand population n) (result, selected) g =
    (Ret (result', selected'), g') ->
  drawn_by_index population result' selected' /\
  length result' = (length result + length xs)%nat /\
  data_index g' = data_index g /\ reads g' = reads g /\
  (rng_calls g + length xs <= rng_calls g')%nat.
Proof.
  induction xs as [|i xs IH];
    intros result selected g result' selected' g' Hnd Hinv Hrun.
  - apply ret_Ret in Hrun as [[= -> ->] ->]. cbn [length].
    repeat split; try apply Hinv; lia.
  - apply for_each_cons_Ret in Hrun as ([result1 selected1] & g1 & Hbody & Hrest).
    unfold sample_by_index in Hbody.
    apply bind_Ret in Hbody as (j0 & g2 & H0 & Hbody).
    unfold randbelow in H0. injection H0 as <- <-.
    apply bind_Ret in Hbody as (j & g3 & Hj & Hbody).
    apply redraw_Ret in Hj as (Hfresh & Hdi & Hreads & Hrng).
    apply bind_Ret in Hbody as (x & g4 & Hx & Hbody).
    apply lift_Ret in Hx as [Hx ->].
    apply ret_Ret in Hbody as [[= -> ->] ->].
    apply getitem_nonneg in Hx; [|lia]. rewrite Nat2Z.id in Hx.
    cbn [data_index rng_calls reads] in *.
    destruct Hinv as (Hnd1 & Hsub & Hsel).
    apply IH in Hrest as (Hinv' & Hlen & Hdi' & Hreads' & Hrng'); [|done|].
    + split; [done|]. rewrite Hlen, length_app. cbn [length].
      split; [lia|]. split; [congruence|]. split; [congruence|]. lia.
    + split; [|split].
      * apply NoDup_app. split; [done|]. split; [|apply NoDup_singleton].
        intros z Hz Hz'. apply list_elem_of_singleton in Hz' as ->.
        apply Hfresh. by apply (Hsel j x).
      * intros z Hz. apply elem_of_app in Hz as [Hz|Hz]; [by apply Hsub|].
        apply list_elem_of_singleton in Hz as ->.
        by apply list_elem_of_lookup_2 in Hx.
      * intros j' z Hj' Hz. apply elem_of_app in Hz as [Hz|Hz].
        -- right. by apply (Hsel j' z).
        -- apply list_elem_of_singleton in Hz as ->.
           rewrite (NoDup_lookup _ _ _ _ Hnd Hj' Hx). left.
Qed.

(** A sample that is returned holds [k] distinct items of the
    population; drawing it took at least [k] draws and touched neither
    the cursor nor the corpus. *)
Lemma random_sample_Ret population k ws g g' :
  NoDup population ->
  random_sample rand population k g = (Ret ws, g') ->
  0 <= k /\ len ws = k /\ NoDup ws /\ ws ⊆ population /\
  data_index g' = data_index g /\ reads g' = reads g /\
  (rng_calls g + Z.to_nat k <= rng_calls g')%nat.
Proof.
  intros Hnd. unfold random_sample.
  destruct ((k <? 0) || (len population <? k)) eqn:E; [discriminate|].
  apply orb_false_iff in E as [E1 E2].
  destruct (len population <=? setsize k) eqn:Eset.
  - destruct (pool_loop (len population) (Z.to_nat k) 0 [] population g)
      as (result & pool & Hrun & _ & Hlen & Hperm); [done|lia|done|].
    unfold range. rewrite <- (Z2Nat.id k) at 1 by lia.
    rewrite (bind_step _ _ _ _ _ Hrun). intros [= <- <-].
    cbn [fst data_index rng_calls reads app length] in *.
    rewrite Z.sub_0_r in Hperm. unfold len in Hperm at 2.
    rewrite Nat2Z.id, firstn_all in Hperm.
    rewrite <- Hperm in Hnd. apply NoDup_app in Hnd as (Hnd & _ & _).
    unfold len. repeat split; try done; try lia.
    intros x Hx. rewrite <- Hperm. apply elem_of_app. by left.
  - intros H. apply bind_Ret in H as ([result selected] & g1 & Hrun & H).
    apply ret_Ret in H as [-> ->]. cbn [fst].
    apply index_loop_Ret in Hrun as ((Hnd' & Hsub & _) & Hlen & Hdi & Hreads & Hrng);
      [|done|].
    + unfold range in Hlen, Hrng. rewrite length_seqZ in Hlen, Hrng.
      cbn [length] in Hlen. unfold len. repeat split; try done; lia.
    + split; [constructor|]. split; [by intros x ?%elem_of_nil|].
      by intros j x _ ?%elem_of_nil.
Qed.

(** From a population of at most [setsize] items the sample is always
    returned, after exactly [k] draws. *)
Lemma random_sample_pool population k g :
  0 <= k <= len population -> len population <= setsize k ->
  exists ws,
    random_sample rand population k g =
      (Ret ws, Globals (data_index g) (rng_calls g + Z.to_nat k) (reads g)).
Proof.
  intros Hk Hset. unfold random_sample.
  destruct (k <? 0) eqn:E1; [lia|]. destruct (len population <? k) eqn:E2; [lia|].
  destruct (len population <=? setsize k) eqn:E3; [|lia]. cbn [orb].
  destruct (pool_loop (len population) (Z.to_nat k) 0 [] population g)
    as (result & pool & Hrun & _); [done|lia|done|].
  exists result. unfold range. rewrite <- (Z2Nat.id k) at 1 by lia.
  by rewrite (bind_step _ _ _ _ _ Hrun).
Qed.

End Sampling.

(** The positions a group may draw its contexts from. *)
Lemma context_words_NoDup sw :
  NoDup (filter (fun w => w <> sw) (range (span sw))).
Proof. apply NoDup_filter, NoDup_seqZ. Qed.

Lemma elem_of_context_words sw p :
  p ∈ filter (fun w => w <> sw) (range (span sw)) <->
  0 <= p < span sw /\ p <> sw.
Proof.
  rewrite list_elem_of_filter. unfold range. rewrite elem_of_seqZ. lia.
Qed.

(** *** The loop over the pairs of a group *)

Lemma enumerate_from_cons {A} j (x : A) xs :
  enumerate_from j (x :: xs) = (j, x) :: enumerate_from (j + 1) xs.
Proof.
  unfold enumerate_from, len. rewrite seqZ_cons by (cbn [length]; lia).
  cbn [zip zip_with]. do 3 f_equal; cbn [length]; lia.
Qed.

Lemma pair_body_Ret ns sw i j p l g l' g' :
  pair_body ns sw i (j, p) l g = (Ret l', g') ->
  exists c x b' lb',
    getitem (buffer l) sw = Some c /\
    setitem (batch l) (i * ns + j) (Some c) = Some b' /\
    getitem (buffer l) p = Some x /\
    setitem (labels l) (i * ns + j) (Some x) = Some lb' /\
    l' = Locals b' lb' (buffer l) /\ g' = g.
Proof.
  unfold pair_body. intros H.
  apply bind_Ret in H as (c & g1 & H1 & H). apply lift_Ret in H1 as [H1 ->].
  apply bind_Ret in H as (b' & g1 & H2 & H).
  apply ndarray_setitem_Ret in H2 as (H2 & _ & ->).
  apply bind_Ret in H as (x & g1 & H3 & H). apply lift_Ret in H3 as [H3 ->].
  apply bind_Ret in H as (lb' & g1 & H4 & H).
  apply ndarray_setitem_Ret in H4 as (H4 & _ & ->).
  apply ret_Ret in H as [-> ->]. by exists c, x, b', lb'.
Qed.

Lemma pairs_Ret ns sw i ws : forall j l g l' g',
  0 <= sw -> 0 <= i * ns + j -> (forall p, p ∈ ws -> 0 <= p) ->
  for_each (enumerate_from j ws) (pair_body ns sw i) l g = (Ret l', g') ->
  g' = g /\ buffer l' = buffer l /\
  length (batch l') = length (batch l) /\
  length (labels l') = length (labels l) /\
  (forall q, (q < Z.to_nat (i * ns + j))%nat ->
     batch l' !! q = batch l !! q /\ labels l' !! q = labels l !! q) /\
  forall (k : nat) p, ws !! k = Some p ->
    exists c x,
      buffer l !! Z.to_nat sw = Some c /\
      buffer l !! Z.to_nat p = Some x /\
      batch l' !! Z.to_nat (i * ns + j + Z.of_nat k) = Some (Some c) /\
      labels l' !! Z.to_nat (i * ns + j + Z.of_nat k) = Some (Some x).
Proof.
  induction ws as [|p ws IH]; intros j l g l' g' Hsw Hij Hpos Hrun.
  - unfold enumerate_from in Hrun. simpl in Hrun.
    apply ret_Ret in Hrun as [-> ->]. repeat split; done.
  - rewrite enumerate_from_cons in Hrun.
    apply for_each_cons_Ret in Hrun as (l1 & g1 & Hbody & Hrest).
    apply pair_body_Ret in Hbody as (c0 & x0 & b' & lb' & Hc & Hb & Hx & Hlb & -> & ->).
    apply getitem_nonneg in Hc; [|done].
    apply getitem_nonneg in Hx; [|apply Hpos; left].
    apply setitem_nonneg in Hb as [-> Hb]; [|done].
    apply setitem_nonneg in Hlb as [-> Hlb]; [|done].
    apply IH in Hrest as (-> & Hbuf & Hlen1 & Hlen2 & Hframe & Hks);
      [|done|lia|intros; apply Hpos; by right].
    cbn [batch labels buffer] in *. rewrite length_insert in Hlen1, Hlen2.
    unfold len in Hb, Hlb.
    split; [done|]. split; [done|]. split; [done|]. split; [done|]. split.
    + intros q Hq. destruct (Hframe q) as [-> ->]; [lia|].
      rewrite !list_lookup_insert_ne by lia. done.
    + intros [|k] q Hk.
      * injection Hk as <-. exists c0, x0.
        destruct (Hframe (Z.to_nat (i * ns + j))) as [E1 E2]; [lia|].
        replace (i * ns + j + Z.of_nat 0) with (i * ns + j) by lia.
        rewrite E1, E2, !list_lookup_insert_eq by lia. done.
      * destruct (Hks k q Hk) as (c & y & ? & ? & ? & ?).
        exists c, y.
        replace (i * ns + j + Z.of_nat (S k)) with (i * ns + (j + 1) + Z.of_nat k) by lia.
        done.
Qed.

(** *** One group *)

Section Groups.

Variable data : list Z.
Variable rand : source.
Variables ns sw : Z.

Lemma slide_Ret l g l' g' :
  slide data sw l g = (Ret l', g') ->
  exists x,
    data_index g <> len data /\
    getitem data (data_index g) = Some x /\
    l' = Locals (batch l) (labels l) (deque_append (span sw) (buffer l) x) /\
    g' = Globals (data_index g + 1) (rng_calls g) (reads g ++ [data_index g]).
Proof.
  unfold slide. intros H.
  apply bind_Ret in H as (di & g1 & H1 & H).
  unfold get_data_index in H1. injection H1 as <- <-.
  destruct (data_index g =? len data) eqn:E.
  - apply bind_Ret in H as (? & ? & _ & H). discriminate.
  - apply bind_Ret in H as (x & g1 & H1 & H).
    unfold data_getitem in H1.
    apply bind_Ret in H1 as ([] & g2 & H0 & H1).
    unfold log_reads in H0. injection H0 as <-.
    apply lift_Ret in H1 as [H1 ->].
    apply bind_Ret in H as ([] & g3 & H2 & H).
    unfold put_data_index in H2. injection H2 as <-.
    apply ret_Ret in H as [-> ->].
    exists x. split; [lia|]. done.
Qed.

(** At the corpus end the slide raises, whatever the window holds. *)
Lemma slide_at_end l g :
  data_index g = len data ->
  slide data sw l g =
    (Raise TypeError,
     Globals (data_index g) (rng_calls g) (reads g ++ seqZ 0 (span sw))).
Proof.
  intros H. unfold slide, bind, get_data_index. rewrite H, Z.eqb_refl.
  unfold data_slice, bind, log_reads, ret, raise. cbn.
  by rewrite H, Z.sub_0_r.
Qed.

Lemma group_frame w b lb b' lb' i :
  0 <= i -> 0 < ns ->
  (forall q, (q < Z.to_nat ((i + 1) * ns))%nat ->
     b' !! q = b !! q /\ lb' !! q = lb !! q) ->
  group_from_window ns sw w b lb i -> group_from_window ns sw w b' lb' i.
Proof.
  intros Hi Hns Hframe (c & ps & Hc & Hlen & Hnd & Hps & Hpairs).
  exists c, ps. split; [done|]. split; [done|]. split; [done|]. split; [done|].
  intros j p Hj. pose proof (lookup_lt_Some _ _ _ Hj) as Hlt.
  unfold len in Hlen.
  destruct (Hframe (Z.to_nat (i * ns + Z.of_nat j))) as [-> ->]; [nia|].
  by apply Hpairs.
Qed.

Lemma group_body_Ret i l g l' g' :
  0 <= sw -> 0 < ns -> 0 <= i ->
  group_body data rand ns sw i l g = (Ret l', g') ->
  exists x,
    data_index g <> len data /\
    getitem data (data_index g) = Some x /\
    buffer l' = deque_append (span sw) (buffer l) x /\
    data_index g' = data_index g + 1 /\
    reads g' = reads g ++ [data_index g] /\
    (rng_calls g + Z.to_nat ns <= rng_calls g')%nat /\
    length (batch l') = length (batch l) /\
    length (labels l') = length (labels l) /\
    (forall q, (q < Z.to_nat (i * ns))%nat ->
       batch l' !! q = batch l !! q /\ labels l' !! q = labels l !! q) /\
    group_from_window ns sw (buffer l) (batch l') (labels l') i.
Proof.
  intros Hsw Hns Hi H. unfold group_body in H.
  apply bind_Ret in H as (ws & g1 & Hsample & H).
  apply random_sample_Ret in Hsample as (_ & Hlen & Hnd & Hsub & Hdi1 & Hr1 & Hrng1);
    [|apply context_words_NoDup].
  apply bind_Ret in H as (l1 & g2 & Hpairs & H).
  unfold enumerate in Hpairs.
  apply pairs_Ret in Hpairs as (-> & Hbuf & Hl1 & Hl2 & Hframe & Hks);
    [|done|nia|].
  2:{ intros p Hp. apply Hsub, elem_of_context_words in Hp. lia. }
  apply slide_Ret in H as (x & Hne & Hx & -> & ->).
  cbn [data_index rng_calls reads batch labels buffer] in *.
  rewrite Hdi1 in *. rewrite Hr1.
  exists x. rewrite Hbuf.
  split; [done|]. split; [done|]. split; [done|]. split; [done|].
  split; [done|]. split; [done|].
  split; [done|]. split; [done|]. split.
  - intros q Hq. apply Hframe. lia.
  - destruct ws as [|p0 ws'] eqn:Ews; [unfold len in Hlen; simpl in Hlen; lia|].
    destruct (Hks 0%nat p0 eq_refl) as (c & _ & Hc & _).
    rewrite <- Ews in *. clear Ews.
    exists c, ws. split; [done|]. split; [done|]. split; [done|]. split.
    + intros p Hp. by apply elem_of_context_words, Hsub.
    + intros j p Hj. destruct (Hks j p Hj) as (c' & y & Hc' & Hy & Hb & Hlb).
      rewrite Z.add_0_r in Hb, Hlb.
      assert (c' = c) as -> by congruence.
      split; [done|]. by exists y.
Qed.

(** *** The loop over the groups *)

Lemma groups_Ret (n : nat) : forall i l g l' g',
  0 <= sw -> 0 < ns -> 0 <= i ->
  0 <= data_index g - span sw ->
  buffer l = window_at data sw (data_index g - span sw) ->
  for_each (seqZ i (Z.of_nat n)) (group_body data rand ns sw) l g = (Ret l', g') ->
  data_index g' = data_index g + Z.of_nat n /\
  ((0 < n)%nat -> data_index g' <= len data) /\
  buffer l' = window_at data sw (data_index g' - span sw) /\
  (rng_calls g + n * Z.to_nat ns <= rng_calls g')%nat /\
  reads g' = reads g ++ seqZ (data_index g) (Z.of_nat n) /\
  length (batch l') = length (batch l) /\
  length (labels l') = length (labels l) /\
  (forall q, (q < Z.to_nat (i * ns))%nat ->
     batch l' !! q = batch l !! q /\ labels l' !! q = labels l !! q) /\
  forall k : nat, (k < n)%nat ->
    group_from_window ns sw
      (window_at data sw (data_index g - span sw + Z.of_nat k))
      (batch l') (labels l') (i + Z.of_nat k).
Proof.
  induction n as [|n IH]; intros i l g l' g' Hsw Hns Hi Hs Hbuf Hrun.
  - simpl in Hrun. apply ret_Ret in Hrun as [-> ->].
    rewrite Z.add_0_r, Nat.add_0_r, app_nil_r.
    repeat split; try done; lia.
  - rewrite seqZ_cons in Hrun by lia.
    replace (Z.pred (Z.of_nat (S n))) with (Z.of_nat n) in Hrun by lia.
    apply for_each_cons_Ret in Hrun as (l1 & g1 & Hbody & Hrest).
    apply group_body_Ret in Hbody
      as (x & Hne & Hx & Hbuf1 & Hdi1 & Hr1 & Hrng1 & Hl1 & Hl2 & Hframe1 & Hgroup);
      try done.
    assert (Hlt : data_index g < len data).
    { unfold getitem in Hx.
      destruct (norm_index (len data) (data_index g)) eqn:E; [|done].
      apply norm_index_nonneg in E; unfold span in *; lia. }
    assert (Hbuf' : buffer l1 =
              window_at data sw (data_index g + 1 - span sw)).
    { rewrite Hbuf1, Hbuf. unfold window_at.
      replace (data_index g + 1 - span sw)
        with (data_index g - span sw + 1) by lia.
      replace (data_index g - span sw + 1 + span sw)
        with (data_index g - span sw + span sw + 1) by lia.
      apply slide_slice; unfold span in *; try lia.
      by replace (data_index g - (2 * sw + 1) + (2 * sw + 1))
        with (data_index g) by lia. }
    apply IH in Hrest as (Hdi & Hle & Hb' & Hrng & Hreads & Hl1' & Hl2' & Hframe & Hgroups);
      rewrite ?Hdi1; try done; try lia.
    rewrite Hdi1, ?Hr1 in *.
    split; [lia|]. split.
    { intros _. destruct n; [lia|]. apply Hle. lia. }
    split; [done|]. split; [lia|]. split.
    { rewrite Hreads, <- app_assoc. f_equal.
      rewrite (seqZ_cons (data_index g)) by lia. simpl. do 2 f_equal; lia. }
    split; [congruence|]. split; [congruence|]. split.
    { intros q Hq. destruct (Hframe q) as [-> ->]; [nia|]. by apply Hframe1. }
    intros [|k] Hk.
    + rewrite !Z.add_0_r. rewrite <- Hbuf.
      eapply group_frame; [done|done| |exact Hgroup].
      intros q Hq. apply Hframe. replace (Z.succ i) with (i + 1) by lia. done.
    + replace (data_index g - span sw + Z.of_nat (S k))
        with (data_index g + 1 - span sw + Z.of_nat k) by lia.
      replace (i + Z.of_nat (S k)) with (Z.succ i + Z.of_nat k) by lia.
      apply Hgroups. lia.
Qed.

End Groups.

(** *** A whole call *)

Section Calls.

Variable data : list Z.
Variable rand : source.
Variables bs ns sw : Z.

Lemma first_start_nonneg g : 0 <= data_index g -> 0 <= first_start data sw g.
Proof. unfold first_start. destruct (_ >? _); lia. Qed.

(** Everything a successful run of the loop tells about the call. *)
Lemma generate_groups_Ret g l g1 :
  0 <= data_index g ->
  generate_groups data rand bs ns sw g = (Ret l, g1) ->
  let start := first_start data sw g in
  let G := Z.max 0 (bs / ns) in
  ns <> 0 /\ bs mod ns = 0 /\ ns <= 2 * sw /\ 0 <= bs /\ 0 <= sw /\
  (0 < G -> 0 < ns) /\
  data_index g1 = start + span sw + G /\
  (0 < G -> data_index g1 <= len data) /\
  buffer l = window_at data sw (start + G) /\
  (rng_calls g + Z.to_nat G * Z.to_nat ns <= rng_calls g1)%nat /\
  reads g1 = reads g ++ seqZ start (span sw + G) /\
  length (batch l) = Z.to_nat bs /\
  length (labels l) = Z.to_nat bs /\
  forall k, 0 <= k < G ->
    group_from_window ns sw (window_at data sw (start + k))
      (batch l) (labels l) k.
Proof.
  intros Hdi H start G. unfold generate_groups in H.
  apply bind_Ret in H as (r & g' & Hmod & H).
  apply py_mod_Ret in Hmod as (Hns0 & -> & ->).
  apply bind_Ret in H as ([] & g' & Ha1 & H).
  apply py_assert_Ret in Ha1 as [Ha1 ->]. apply Z.eqb_eq in Ha1.
  apply bind_Ret in H as ([] & g' & Ha2 & H).
  apply py_assert_Ret in Ha2 as [Ha2 ->]. apply Z.leb_le in Ha2.
  apply bind_Ret in H as (b0 & g' & Hb0 & H).
  apply np_ndarray_Ret in Hb0 as (Hbs & -> & ->).
  apply bind_Ret in H as (lb0 & g' & Hlb0 & H).
  apply np_ndarray_Ret in Hlb0 as (_ & -> & ->).
  apply bind_Ret in H as (d0 & g' & Hd0 & H).
  apply deque_new_Ret in Hd0 as (Hspan & -> & ->).
  assert (Hsw : 0 <= sw) by (unfold span in Hspan; lia).
  apply bind_Ret in H as (di & g' & Hget & H).
  unfold get_data_index in Hget. injection Hget as <- <-.
  apply bind_Ret in H as ([] & g2 & Hreset & H).
  assert (Hg2 : g2 = set_data_index start g).
  { subst start. unfold first_start.
    destruct (data_index g + span sw >? len data).
    - unfold put_data_index in Hreset. by injection Hreset as <-.
    - apply ret_Ret in Hreset as [_ ->]. by destruct g. }
  subst g2. clear Hreset.
  apply bind_Ret in H as (di & g' & Hget & H).
  unfold get_data_index in Hget. injection Hget as <- <-.
  cbn [set_data_index data_index] in H.
  apply bind_Ret in H as (w & g' & Hslice & H).
  unfold data_slice in Hslice.
  apply bind_Ret in Hslice as ([] & g3 & Hlog & Hslice).
  unfold log_reads in Hlog. injection Hlog as <-.
  apply ret_Ret in Hslice as [-> ->].
  apply bind_Ret in H as ([] & g' & Hput & H).
  unfold put_data_index in Hput. injection Hput as <-.
  cbn [set_data_index data_index rng_calls reads] in H.
  pose proof (first_start_nonneg g Hdi) as Hstart. fold start in Hstart.
  rewrite deque_extend_room in H.
  2:{ pose proof (length_slice_le data start (start + span sw)) as Hl.
      cbn [length]. unfold span in *. lia. }
  rewrite app_nil_l in H.
  replace (start + span sw - start) with (span sw) in H by lia.
  unfold range in H.
  destruct (Z.le_gt_cases (bs / ns) 0) as [HG|HG].
  - rewrite seqZ_nil in H by done. apply ret_Ret in H as [-> ->].
    cbn [data_index rng_calls reads batch labels buffer].
    replace G with 0 by lia.
    rewrite !Z.add_0_r, Nat.add_0_r, !length_replicate.
    repeat split; try done; try lia.
  - assert (Hns : 0 < ns).
    { destruct (Z.lt_trichotomy ns 0) as [Hn|[Hn|Hn]]; [|lia|done].
      pose proof (floordiv_nonneg_neg bs ns Hbs Hn). lia. }
    replace (bs / ns) with (Z.of_nat (Z.to_nat G)) in H by lia.
    unfold set_data_index in H. cbn [data_index rng_calls reads] in H.
    apply groups_Ret in H
      as (Hdi' & Hle & Hbuf & Hrng & Hreads & Hl1 & Hl2 & _ & Hgroups);
      cbn [data_index rng_calls reads batch labels buffer] in *;
      try done; try lia.
    2:{ unfold window_at. f_equal; lia. }
    rewrite length_replicate in Hl1, Hl2.
    split; [done|]. split; [done|]. split; [done|]. split; [done|].
    split; [done|]. split; [done|]. split; [lia|]. split.
    { intros _. apply Hle. lia. }
    split. { rewrite Hbuf. f_equal. lia. }
    split; [lia|]. split.
    { rewrite Hreads, <- app_assoc. f_equal.
      rewrite seqZ_app by lia. do 2 f_equal. lia. }
    split; [done|]. split; [done|].
    intros k Hk. specialize (Hgroups (Z.to_nat k) ltac:(lia)).
    replace (start + span sw - span sw + Z.of_nat (Z.to_nat k))
      with (start + k) in Hgroups by lia.
    by replace (0 + Z.of_nat (Z.to_nat k)) with k in Hgroups by lia.
Qed.

Lemma generate_batch_Ret g b lb g' :
  generate_batch data rand bs ns sw g = (Ret (b, lb), g') ->
  exists l g1,
    generate_groups data rand bs ns sw g = (Ret l, g1) /\
    b = batch l /\ lb = labels l /\ len data <> 0 /\
    g' = set_data_index
           ((data_index g1 + len data - span sw) mod len data) g1.
Proof.
  unfold generate_batch. intros H.
  apply bind_Ret in H as (l & g1 & Hgroups & H).
  apply bind_Ret in H as ([] & g2 & Hback & H).
  apply ret_Ret in H as [[= -> ->] ->].
  unfold backtrack in Hback.
  apply bind_Ret in Hback as (di & g3 & Hget & Hback).
  unfold get_data_index in Hget. injection Hget as <- <-.
  apply bind_Ret in Hback as (v & g3 & Hmod & Hback).
  apply py_mod_Ret in Hmod as (HN & -> & ->).
  unfold put_data_index in Hback. injection Hback as <-.
  by exists l, g1.
Qed.

End Calls.

(** *** Calls that return, calls that raise *)

Lemma filter_all {A} (P : A -> Prop) `{!forall x, Decision (P x)} (l : list A) :
  Forall P l -> filter P l = l.
Proof.
  induction 1 as [|x l Hx Hl IH]; [done|].
  by rewrite filter_cons_True, IH.
Qed.

Lemma context_words_eq sw :
  0 <= sw ->
  filter (fun w => w <> sw) (range (span sw)) = seqZ 0 sw ++ seqZ (sw + 1) sw.
Proof.
  intros Hsw. unfold range, span.
  replace (2 * sw + 1) with (sw + (1 + sw)) by lia.
  rewrite seqZ_app by lia. rewrite (seqZ_cons (0 + sw)) by lia.
  rewrite filter_app, filter_cons_False by lia.
  rewrite !filter_all.
  - do 2 f_equal; lia.
  - apply Forall_forall. intros x Hx%elem_of_seqZ. lia.
  - apply Forall_forall. intros x Hx%elem_of_seqZ. lia.
Qed.

Lemma length_context_words sw :
  0 <= sw -> len (filter (fun w => w <> sw) (range (span sw))) = 2 * sw.
Proof.
  intros Hsw. rewrite context_words_eq by done.
  unfold len. rewrite length_app, !length_seqZ. lia.
Qed.

Section Runs.

Variable data : list Z.
Variable rand : source.
Variables bs ns sw : Z.

Lemma pairs_run i ws : forall j l g,
  0 <= sw < len (buffer l) ->
  Forall (fun v => is_int32 v = true) (buffer l) ->
  (forall p, p ∈ ws -> 0 <= p < len (buffer l)) ->
  0 <= i * ns + j ->
  i * ns + j + len ws <= len (batch l) ->
  i * ns + j + len ws <= len (labels l) ->
  exists l', for_each (enumerate_from j ws) (pair_body ns sw i) l g = (Ret l', g).
Proof.
  induction ws as [|p ws IH]; intros j l g Hsw Hint Hws Hj Hb Hlb.
  - exists l. done.
  - rewrite enumerate_from_cons. cbn [for_each].
    unfold len in Hb, Hlb. cbn [length] in Hb, Hlb.
    destruct (lookup_lt_is_Some_2 (buffer l) (Z.to_nat sw)) as [c Hc];
      [unfold len in Hsw; lia|].
    destruct (lookup_lt_is_Some_2 (buffer l) (Z.to_nat p)) as [x Hx].
    { specialize (Hws p ltac:(left)). unfold len in Hws. lia. }
    pose proof (Forall_lookup_1 _ _ _ _ Hint Hc) as Hcv.
    pose proof (Forall_lookup_1 _ _ _ _ Hint Hx) as Hxv.
    cbv beta in Hcv, Hxv.
    assert (Hrb : 0 <= i * ns + j < len (batch l)) by (unfold len; lia).
    assert (Hrl : 0 <= i * ns + j < len (labels l)) by (unfold len; lia).
    set (l1 := Locals (<[Z.to_nat (i * ns + j) := Some c]> (batch l))
                      (<[Z.to_nat (i * ns + j) := Some x]> (labels l))
                      (buffer l)).
    assert (Hbody : pair_body ns sw i (j, p) l g = (Ret l1, g)).
    { unfold pair_body.
      rewrite getitem_in_range, Hc by done. cbn [lift].
      rewrite (bind_step _ _ _ c g) by done.
      rewrite (bind_step _ _ _ _ _ (ndarray_setitem_run _ _ c g Hrb Hcv)).
      rewrite getitem_in_range, Hx by (apply Hws; left). cbn [lift].
      rewrite (bind_step _ _ _ x g) by done.
      by rewrite (bind_step _ _ _ _ _ (ndarray_setitem_run _ _ x g Hrl Hxv)). }
    rewrite (bind_step _ _ _ _ _ Hbody).
    apply IH; subst l1; cbn [batch labels buffer]; try done.
    + intros q Hq. apply Hws. by right.
    + lia.
    + unfold len. rewrite length_insert. lia.
    + unfold len. rewrite length_insert. lia.
Qed.

(** The items of a window are items of the corpus. *)
Lemma int32_window s :
  int32_corpus data ->
  Forall (fun v => is_int32 v = true) (window_at data sw s).
Proof.
  intros Hint%int32_corpus_Forall. unfold window_at, slice.
  by apply Forall_take, Forall_drop.
Qed.

(** The part of a group before the slide always runs on a full window
    of items that fit the cells, when the sample is drawn from a copy of
    the population. *)
Lemma group_pairs_run i l g :
  0 <= sw -> 0 < ns <= 2 * sw -> 2 * sw <= setsize ns -> 0 <= i ->
  len (buffer l) = span sw ->
  Forall (fun v => is_int32 v = true) (buffer l) ->
  (i + 1) * ns <= len (batch l) -> (i + 1) * ns <= len (labels l) ->
  exists ws l',
    random_sample rand (filter (fun w => w <> sw) (range (span sw))) ns g =
      (Ret ws, Globals (data_index g) (rng_calls g + Z.to_nat ns) (reads g)) /\
    for_each (enumerate ws) (pair_body ns sw i) l
      (Globals (data_index g) (rng_calls g + Z.to_nat ns) (reads g)) =
      (Ret l', Globals (data_index g) (rng_calls g + Z.to_nat ns) (reads g)) /\
    buffer l' = buffer l.
Proof.
  intros Hsw Hns Hpool Hi Hbuf Hint Hb Hlb.
  pose proof (length_context_words sw Hsw) as Hcw.
  destruct (random_sample_pool rand
              (filter (fun w => w <> sw) (range (span sw))) ns g)
    as (ws & Hrs); [lia|lia|].
  pose proof Hrs as Hinv.
  apply random_sample_Ret in Hinv as (_ & Hlen & Hnd & Hsub & _);
    [|apply context_words_NoDup].
  set (g1 := Globals (data_index g) (rng_calls g + Z.to_nat ns) (reads g)) in *.
  destruct (pairs_run i ws 0 l g1) as [l' Hl'].
  - unfold span in Hbuf. lia.
  - done.
  - intros p Hp%Hsub%elem_of_context_words. lia.
  - nia.
  - unfold len in *. nia.
  - unfold len in *. nia.
  - exists ws, l'. split; [done|]. split; [done|].
    apply pairs_Ret in Hl' as (_ & ? & _); try done; [nia|].
    intros p Hp%Hsub%elem_of_context_words. lia.
Qed.

Lemma group_run i l g :
  0 <= sw -> 0 < ns <= 2 * sw -> 2 * sw <= setsize ns -> 0 <= i ->
  len (buffer l) = span sw ->
  Forall (fun v => is_int32 v = true) (buffer l) ->
  (i + 1) * ns <= len (batch l) -> (i + 1) * ns <= len (labels l) ->
  0 <= data_index g < len data ->
  exists l' g', group_body data rand ns sw i l g = (Ret l', g').
Proof.
  intros Hsw Hns Hpool Hi Hbuf Hint Hb Hlb Hdi.
  destruct (group_pairs_run i l g) as (ws & l1 & Hrs & Hpairs & _); try done.
  destruct (lookup_lt_is_Some_2 data (Z.to_nat (data_index g))) as [x Hx];
    [unfold len in Hdi; lia|].
  unfold group_body.
  rewrite (bind_step _ _ _ _ _ Hrs), (bind_step _ _ _ _ _ Hpairs).
  unfold slide, bind at 1, get_data_index. cbn [data_index].
  destruct (data_index g =? len data) eqn:E; [lia|].
  unfold data_getitem, bind, log_reads, put_data_index, ret.
  rewrite getitem_in_range, Hx by done. simpl. eauto.
Qed.

(** With the cursor at the corpus end the group raises. *)
Lemma group_raises i l g :
  0 <= sw -> 0 < ns <= 2 * sw -> 2 * sw <= setsize ns -> 0 <= i ->
  len (buffer l) = span sw ->
  Forall (fun v => is_int32 v = true) (buffer l) ->
  (i + 1) * ns <= len (batch l) -> (i + 1) * ns <= len (labels l) ->
  data_index g = len data ->
  group_body data rand ns sw i l g =
    (Raise TypeError,
     Globals (len data) (rng_calls g + Z.to_nat ns)
             (reads g ++ seqZ 0 (span sw))).
Proof.
  intros Hsw Hns Hpool Hi Hbuf Hint Hb Hlb Hdi.
  destruct (group_pairs_run i l g) as (ws & l1 & Hrs & Hpairs & _); try done.
  unfold group_body.
  rewrite (bind_step _ _ _ _ _ Hrs), (bind_step _ _ _ _ _ Hpairs).
  rewrite slide_at_end by done. cbn [data_index rng_calls reads].
  by rewrite Hdi.
Qed.

Lemma groups_run (n : nat) : forall i l g,
  0 <= sw -> 0 < ns <= 2 * sw -> 2 * sw <= setsize ns -> 0 <= i ->
  int32_corpus data ->
  0 <= data_index g - span sw ->
  buffer l = window_at data sw (data_index g - span sw) ->
  (i + Z.of_nat n) * ns <= len (batch l) ->
  (i + Z.of_nat n) * ns <= len (labels l) ->
  data_index g + Z.of_nat n <= len data ->
  exists l' g',
    for_each (seqZ i (Z.of_nat n)) (group_body data rand ns sw) l g = (Ret l', g').
Proof.
  induction n as [|n IH]; intros i l g Hsw Hns Hpool Hi Hint Hs Hbuf Hb Hlb Hdi.
  - exists l, g. done.
  - rewrite seqZ_cons by lia.
    replace (Z.pred (Z.of_nat (S n))) with (Z.of_nat n) by lia.
    assert (Hfull : len (buffer l) = span sw).
    { rewrite Hbuf. unfold window_at, len. rewrite length_slice; unfold span in *; lia. }
    destruct (group_run i l g) as (l1 & g1 & Hbody); try done; try nia.
    { rewrite Hbuf. by apply int32_window. }
    { unfold span in *. lia. }
    cbn [for_each]. rewrite (bind_step _ _ _ _ _ Hbody).
    pose proof Hbody as Hinv.
    apply group_body_Ret in Hinv
      as (x & Hne & Hx & Hbuf1 & Hdi1 & _ & _ & Hl1 & Hl2 & _ & _);
      try done; try lia.
    apply IH; rewrite ?Hdi1; try done; try lia.
    + rewrite Hbuf1, Hbuf. unfold window_at.
      replace (data_index g + 1 - span sw)
        with (data_index g - span sw + 1) by lia.
      replace (data_index g - span sw + 1 + span sw)
        with (data_index g - span sw + span sw + 1) by lia.
      apply slide_slice; unfold span in *; try lia.
      by replace (data_index g - (2 * sw + 1) + (2 * sw + 1))
        with (data_index g) by lia.
    + unfold len in *. rewrite Hl1. lia.
    + unfold len in *. rewrite Hl2. lia.
Qed.

(** The statements before the loop, for parameters that pass them. *)
Lemma generate_groups_prologue g :
  ns <> 0 -> bs mod ns = 0 -> ns <= 2 * sw -> 0 <= bs -> 0 <= sw ->
  0 <= data_index g ->
  let start := first_start data sw g in
  generate_groups data rand bs ns sw g =
    for_each (range (bs / ns)) (group_body data rand ns sw)
      (Locals (replicate (Z.to_nat bs) None) (replicate (Z.to_nat bs) None)
              (window_at data sw start))
      (Globals (start + span sw) (rng_calls g) (reads g ++ seqZ start (span sw))).
Proof.
  intros Hns Hmod Hle Hbs Hsw Hdi start.
  pose proof (first_start_nonneg data sw g Hdi) as Hstart. fold start in Hstart.
  assert (E0 : (ns =? 0) = false) by lia.
  assert (E1 : (bs <? 0) = false) by lia.
  assert (E2 : (span sw <? 0) = false) by (unfold span; lia).
  assert (E3 : (ns <=? 2 * sw) = true) by lia.
  assert (E4 : (bs mod ns =? 0) = true) by lia.
  unfold generate_groups, py_mod, np_ndarray, deque_new, py_assert,
    get_data_index, put_data_index, data_slice, log_reads, bind, ret.
  rewrite E0, E1, E2. cbv beta iota. rewrite E4. cbv beta iota.
  rewrite E3. cbv beta iota.
  assert (Hroom : forall s, 0 <= s ->
            deque_extend (span sw) [] (slice data s (s + span sw)) =
            window_at data sw s).
  { intros s Hs. rewrite deque_extend_room; [done|].
    pose proof (length_slice_le data s (s + span sw)) as Hl.
    cbn [length]. unfold span in *. lia. }
  subst start. unfold first_start in *.
  destruct (data_index g + span sw >? len data);
    cbn [set_data_index data_index rng_calls reads];
    rewrite Hroom by done; unfold set_data_index;
    cbn [data_index rng_calls reads]; do 4 f_equal; lia.
Qed.

(** A call with valid parameters returns when the corpus holds a full
    window and enough items after it for the slides of all the groups;
    the items are to fit the cells, and the window is to be small enough
    for the sample to be drawn from a copy of the population. *)
Lemma generate_batch_returns g :
  0 < ns -> 0 <= bs -> bs mod ns = 0 -> ns <= 2 * sw ->
  2 * sw <= setsize ns -> int32_corpus data ->
  0 <= data_index g ->
  first_start data sw g + span sw + bs / ns <= len data ->
  exists b lb g', generate_batch data rand bs ns sw g = (Ret (b, lb), g').
Proof.
  intros Hns Hbs Hmod Hle Hpool Hint Hdi Hfit.
  assert (Hsw : 0 <= sw) by lia.
  pose proof (first_start_nonneg data sw g Hdi) as Hstart.
  pose proof (Z.div_pos bs ns Hbs Hns) as HG.
  pose proof (Z.mul_div_le bs ns Hns) as HGle.
  pose proof (generate_groups_prologue g ltac:(lia) Hmod Hle Hbs Hsw Hdi) as Hpro.
  cbv zeta in Hpro. unfold range in Hpro.
  rewrite <- (Z2Nat.id (bs / ns)) in Hpro at 1 by done.
  destruct (groups_run (Z.to_nat (bs / ns)) 0
              (Locals (replicate (Z.to_nat bs) None) (replicate (Z.to_nat bs) None)
                 (window_at data sw (first_start data sw g)))
              (Globals (first_start data sw g + span sw) (rng_calls g)
                 (reads g ++ seqZ (first_start data sw g) (span sw))))
    as (l' & g' & Hrun); cbn [data_index batch labels buffer]; try done; try lia.
  - f_equal. lia.
  - unfold len. rewrite length_replicate. nia.
  - unfold len. rewrite length_replicate. nia.
  - rewrite Hrun in Hpro. unfold generate_batch.
    rewrite (bind_step _ _ _ _ _ Hpro).
    unfold backtrack, bind, get_data_index, py_mod, put_data_index, ret.
    destruct (len data =? 0) eqn:E; [unfold span in Hfit; lia|]. eauto.
Qed.

(** A call with valid parameters raises [TypeError] when the cursor
    reaches the corpus end before the slide of one of its groups (for
    items that fit the cells and a sample drawn from a copy of the
    population). *)
Lemma generate_batch_raises_at_wrap g :
  0 < ns -> 0 <= bs -> bs mod ns = 0 -> ns <= 2 * sw ->
  2 * sw <= setsize ns -> int32_corpus data ->
  0 <= data_index g -> span sw <= len data ->
  len data < first_start data sw g + span sw + bs / ns ->
  exists g', generate_batch data rand bs ns sw g = (Raise TypeError, g') /\
             data_index g' = len data.
Proof.
  intros Hns Hbs Hmod Hle Hpool Hint Hdi Hspan Hwrap.
  assert (Hsw : 0 <= sw) by lia.
  pose proof (first_start_nonneg data sw g Hdi) as Hstart.
  pose proof (Z.mul_div_le bs ns Hns) as HGle.
  set (start := first_start data sw g) in *.
  assert (Hfit : start + span sw <= len data).
  { subst start. unfold first_start in *.
    destruct (data_index g + span sw >? len data) eqn:E; lia. }
  set (n1 := len data - start - span sw).
  pose proof (generate_groups_prologue g ltac:(lia) Hmod Hle Hbs Hsw Hdi) as Hpro.
  cbv zeta in Hpro. fold start in Hpro. unfold range in Hpro.
  replace (bs / ns) with (n1 + (bs / ns - n1)) in Hpro by lia.
  rewrite seqZ_app in Hpro by lia. rewrite (seqZ_cons (0 + n1)) in Hpro by lia.
  set (l0 := Locals _ _ _) in Hpro. set (g0 := Globals _ _ _) in Hpro.
  destruct (groups_run (Z.to_nat n1) 0 l0 g0) as (l1 & g1 & Hrun);
    subst l0 g0; cbn [data_index batch labels buffer]; try done; try lia.
  { f_equal. lia. }
  { unfold len. rewrite length_replicate. nia. }
  { unfold len. rewrite length_replicate. nia. }
  pose proof Hrun as Hinv.
  apply groups_Ret in Hinv
    as (Hdi1 & _ & Hbuf1 & _ & _ & Hl1 & Hl2 & _); cbn [data_index buffer]; try done; try lia.
  2:{ f_equal. lia. }
  rewrite Z2Nat.id in Hrun by lia.
  cbn [data_index batch labels] in *. rewrite length_replicate in Hl1, Hl2.
  assert (Hraise : group_body data rand ns sw (0 + n1) l1 g1 =
            (Raise TypeError,
             Globals (len data) (rng_calls g1 + Z.to_nat ns)
                     (reads g1 ++ seqZ 0 (span sw)))).
  { apply group_raises; try done; try lia.
    - rewrite Hbuf1. unfold window_at, len.
      rewrite length_slice; unfold len, span in *; lia.
    - rewrite Hbuf1. by apply int32_window.
    - unfold len. rewrite Hl1. nia.
    - unfold len. rewrite Hl2. nia. }
  eexists. split.
  - unfold generate_batch. apply bind_Raise. rewrite Hpro.
    rewrite for_each_app. rewrite (bind_step _ _ _ _ _ Hrun).
    cbn [for_each]. apply bind_Raise. exact Hraise.
  - done.
Qed.

End Runs.

(** *** The groups of a returned batch *)

(** C2: in a batch that [generate_batch] returns over a corpus whose
    items fit the [int32] cells, the pairs of every group [i] share one
    center, the middle item of the window of the group (the [span]
    corpus items from the start of the call plus [i]), and their
    contexts are read from that window at [num_skips] pairwise distinct
    positions, none of which is the middle position. *)
Theorem generate_batch_groups data rand bs ns sw g b lb g' i :
  int32_corpus data ->
  0 <= data_index g ->
  generate_batch data rand bs ns sw g = (Ret (b, lb), g') ->
  0 <= i < bs / ns ->
  group_from_window ns sw
    (window_at data sw (first_start data sw g + i)) b lb i.
Proof.
  intros _ Hdi Hrun Hi.
  apply generate_batch_Ret in Hrun as (l & g1 & Hgroups & -> & -> & _ & _).
  apply generate_groups_Ret in Hgroups; [|done].
  destruct Hgroups as (_ & _ & _ & _ & _ & _ & _ & _ & _ & _ & _ & _ & _ & H).
  apply H. lia.
Qed.

Lemma generate_batch_groups_witness :
  group_from_window 2 1 (window_at toy_corpus 1 (first_start toy_corpus 1 initial + 1))
    [Some 2; Some 2; Some 2; Some 2; Some 0; Some 0; Some 5; Some 5]
    [Some 5; Some 2; Some 2; Some 0; Some 2; Some 5; Some 0; Some 2] 1.
Proof.
  apply (generate_batch_groups toy_corpus draws 8 2 1 initial _ _
           (Globals 4 8 [0; 1; 2; 3; 4; 5; 6])).
  - reflexivity.
  - simpl. lia.
  - vm_compute. reflexivity.
  - vm_compute. split; [discriminate|reflexivity].
Defined.

(** *** The cursor after a call *)

Lemma window_overlap data sw s :
  0 <= s -> 0 <= sw ->
  drop 1 (window_at data sw s) =
  take (Z.to_nat (span sw - 1)) (window_at data sw (s + 1)).
Proof.
  intros Hs Hsw. unfold window_at, span. apply list_eq. intros k.
  rewrite lookup_drop, lookup_slice by lia.
  destruct (decide (k < Z.to_nat (2 * sw + 1 - 1))%nat) as [Hk|Hk].
  - rewrite lookup_take_lt, lookup_slice by lia.
    rewrite !decide_True by lia. f_equal. lia.
  - rewrite lookup_take_ge by lia. rewrite decide_False by lia. done.
Qed.

(** C4, as the code has it: a call that returns leaves the cursor [span]
    positions (not [span - 1]) behind its value after the last group,
    modulo the corpus length.  That is the start of the call plus the
    number of groups, so the next call starts on the window the last
    slide produced, which shares [span - 1] items with the window of the
    last group: no position is skipped between two calls. *)
Theorem backtrack_rewinds_span data rand bs ns sw g b lb g' :
  0 <= data_index g ->
  generate_batch data rand bs ns sw g = (Ret (b, lb), g') ->
  exists l g1,
    generate_groups data rand bs ns sw g = (Ret l, g1) /\
    data_index g' = (data_index g1 - span sw) mod len data /\
    data_index g' = first_start data sw g + Z.max 0 (bs / ns) /\
    window_at data sw (first_start data sw g') = buffer l /\
    (0 < bs / ns ->
     drop 1 (window_at data sw (data_index g' - 1)) =
     take (Z.to_nat (span sw - 1)) (window_at data sw (first_start data sw g'))).
Proof.
  intros Hdi Hrun.
  apply generate_batch_Ret in Hrun as (l & g1 & Hgroups & -> & -> & HN & ->).
  exists l, g1. split; [done|].
  apply generate_groups_Ret in Hgroups; [|done].
  destruct Hgroups
    as (_ & _ & _ & _ & Hsw & _ & Hdi1 & Hle & Hbuf & _ & _ & _ & _ & _).
  pose proof (first_start_nonneg data sw g Hdi) as Hstart.
  pose proof (len_nonneg data) as HNpos.
  set (start := first_start data sw g) in *.
  set (G := Z.max 0 (bs / ns)) in *.
  cbn [set_data_index data_index].
  assert (Hfit : start + G + span sw <= len data \/ (G = 0 /\ start = 0)).
  { destruct (Z.lt_trichotomy 0 G) as [HG|[HG|HG]]; [left; lia| |lia].
    subst start. unfold first_start in *.
    destruct (data_index g + span sw >? len data) eqn:E; [by right|left; lia]. }
  assert (Hfinal : (data_index g1 + len data - span sw) mod len data = start + G).
  { replace (data_index g1 + len data - span sw)
      with (start + G + 1 * len data) by lia.
    rewrite Z.mod_add by done. apply Z.mod_small. unfold span in *. lia. }
  assert (Hnext : first_start data sw
            (set_data_index ((data_index g1 + len data - span sw) mod len data) g1)
            = start + G).
  { unfold first_start. cbn [set_data_index data_index]. rewrite Hfinal.
    destruct (start + G + span sw >? len data) eqn:E; [lia|done]. }
  split.
  { replace (data_index g1 + len data - span sw)
      with (data_index g1 - span sw + 1 * len data) by lia.
    by rewrite Z.mod_add. }
  split; [done|]. split; [by rewrite Hnext|].
  intros HG. rewrite Hnext, Hfinal.
  replace (start + G) with (start + G - 1 + 1) at 2 by lia.
  apply window_overlap; lia.
Qed.

Lemma backtrack_rewinds_span_witness :
  exists l g1,
    generate_groups toy_corpus draws 2 2 1 initial = (Ret l, g1) /\
    1 = (data_index g1 - span 1) mod len toy_corpus /\
    1 = first_start toy_corpus 1 initial + Z.max 0 (2 / 2) /\
    window_at toy_corpus 1 (first_start toy_corpus 1 (Globals 1 2 [0; 1; 2; 3]))
      = buffer l /\
    (0 < 2 / 2 ->
     drop 1 (window_at toy_corpus 1 (1 - 1)) =
     take (Z.to_nat (span 1 - 1))
       (window_at toy_corpus 1 (first_start toy_corpus 1 (Globals 1 2 [0; 1; 2; 3])))).
Proof.
  apply (backtrack_rewinds_span toy_corpus draws 2 2 1 initial
           [Some 2; Some 2] [Some 5; Some 2] (Globals 1 2 [0; 1; 2; 3])).
  - simpl. lia.
  - vm_compute. reflexivity.
Defined.

(** C4 as the specification words it fails: on the toy corpus the cursor
    is 4 after the only group of a call for one group, and 1 when the
    call returns; [span - 1] positions behind 4 would be 2. *)
Lemma rewind_is_not_span_minus_one :
  (generate_groups toy_corpus draws 2 2 1 initial).2 = Globals 4 2 [0; 1; 2; 3] /\
  generate_batch toy_corpus draws 2 2 1 initial =
    (Ret ([Some 2; Some 2], [Some 5; Some 2]), Globals 1 2 [0; 1; 2; 3]) /\
  (4 - (span 1 - 1)) mod len toy_corpus = 2 /\
  data_index (generate_batch toy_corpus draws 2 2 1 initial).2 <>
    (data_index (generate_groups toy_corpus draws 2 2 1 initial).2 - (span 1 - 1))
      mod len toy_corpus.
Proof. vm_compute. repeat split; discriminate. Qed.

(** A batch that is returned has [batch_size] centers and as many
    contexts. *)
Lemma generate_batch_length data rand bs ns sw g b lb g' :
  0 <= data_index g ->
  generate_batch data rand bs ns sw g = (Ret (b, lb), g') ->
  len b = bs /\ len lb = bs.
Proof.
  intros Hdi Hrun.
  apply generate_batch_Ret in Hrun as (l & g1 & Hgroups & -> & -> & _ & _).
  apply generate_groups_Ret in Hgroups; [|done].
  destruct Hgroups as (_ & _ & _ & Hbs & _ & _ & _ & _ & _ & _ & _ & H1 & H2 & _).
  unfold len. lia.
Qed.

(** *** Successive calls *)

Lemma generate_batch_cursor data rand bs ns sw g r g' :
  span sw <= len data ->
  0 <= data_index g ->
  generate_batch data rand bs ns sw g = (Ret r, g') ->
  0 <= data_index g' < len data /\
  exists new, reads g' = reads g ++ new /\
    Forall (fun i => 0 <= i < len data) new.
Proof.
  intros Hfit Hdi Hrun. destruct r as [b lb].
  apply generate_batch_Ret in Hrun as (l & g1 & Hgroups & _ & _ & HN & ->).
  apply generate_groups_Ret in Hgroups; [|done].
  destruct Hgroups
    as (_ & _ & _ & _ & Hsw & _ & Hdi1 & Hle & _ & _ & Hreads & _ & _ & _).
  pose proof (first_start_nonneg data sw g Hdi) as Hstart.
  pose proof (len_nonneg data) as HNpos.
  cbn [set_data_index data_index reads]. split.
  - apply Z.mod_pos_bound. lia.
  - eexists. split; [exact Hreads|].
    apply Forall_forall. intros i Hi%elem_of_seqZ.
    set (start := first_start data sw g) in *.
    set (G := Z.max 0 (bs / ns)) in *.
    destruct (Z.lt_trichotomy 0 G) as [HG|[HG|HG]]; [lia| |lia].
    assert (start + span sw <= len data); [|lia].
    subst start. unfold first_start.
    destruct (data_index g + span sw >? len data) eqn:E; lia.
Qed.

Lemma run_calls_loop data rand calls : forall outs0 g outs g',
  Forall (fun c : Z * Z * Z => span c.2 <= len data) calls ->
  0 <= data_index g < len data ->
  for_each calls
    (fun '(batch_size, num_skips, skip_window) outs =>
       r <- generate_batch data rand batch_size num_skips skip_window ;;
       ret (outs ++ [r])) outs0 g = (Ret outs, g') ->
  0 <= data_index g' < len data /\
  length outs = (length outs0 + length calls)%nat /\
  exists new, reads g' = reads g ++ new /\
    Forall (fun i => 0 <= i < len data) new.
Proof.
  induction calls as [|[[bs ns] sw] calls IH]; intros outs0 g outs g' Hfit Hdi Hrun.
  - simpl in Hrun. apply ret_Ret in Hrun as [-> ->].
    split; [done|]. split; [simpl; lia|].
    exists []. by rewrite app_nil_r.
  - apply Forall_cons in Hfit as [Hsw Hfit]. simpl in Hsw.
    apply for_each_cons_Ret in Hrun as (outs1 & g1 & Hcall & Hrest).
    apply bind_Ret in Hcall as (r & g2 & Hcall & Hret).
    apply ret_Ret in Hret as [-> ->].
    apply generate_batch_cursor in Hcall as (Hdi1 & new1 & Hr1 & Hin1);
      [|done|lia].
    apply IH in Hrest as (Hdi' & Hlen & new2 & Hr2 & Hin2); [|done|done].
    split; [done|]. split.
    { rewrite Hlen, length_app. simpl. lia. }
    exists (new1 ++ new2). split.
    + by rewrite Hr2, Hr1, app_assoc.
    + by apply Forall_app.
Qed.

(** C10: on a corpus that holds a full window, from a cursor inside the
    corpus, any number of successive calls that return ask only for
    corpus positions inside the corpus and leave the cursor inside the
    corpus. *)
Theorem cursor_stays_in_corpus data rand calls g outs g' :
  Forall (fun c : Z * Z * Z => span c.2 <= len data) calls ->
  0 <= data_index g < len data ->
  run_calls data rand calls g = (Ret outs, g') ->
  0 <= data_index g' < len data /\
  length outs = length calls /\
  exists new, reads g' = reads g ++ new /\
    Forall (fun i => 0 <= i < len data) new.
Proof. intros Hfit Hdi Hrun. by apply run_calls_loop in Hrun. Qed.

Lemma cursor_stays_in_corpus_witness :
  0 <= 7 < len toy_corpus /\
  length [([Some 2; Some 2; Some 2; Some 2; Some 0; Some 0; Some 5; Some 5],
           [Some 5; Some 2; Some 2; Some 0; Some 2; Some 5; Some 0; Some 2]);
          ([Some 2; Some 2; Some 7; Some 7; Some 1; Some 1],
           [Some 5; Some 7; Some 2; Some 1; Some 7; Some 1])] =
    length [(8, 2, 1); (6, 2, 1)] /\
  exists new,
    [0; 1; 2; 3; 4; 5; 6; 4; 5; 6; 7; 8; 9] = reads initial ++ new /\
    Forall (fun i => 0 <= i < len toy_corpus) new.
Proof.
  apply (cursor_stays_in_corpus toy_corpus draws [(8, 2, 1); (6, 2, 1)] initial
           _ (Globals 7 14 [0; 1; 2; 3; 4; 5; 6; 4; 5; 6; 7; 8; 9])).
  - repeat constructor; vm_compute; discriminate.
  - vm_compute. split; [discriminate|reflexivity].
  - vm_compute. reflexivity.
Defined.

(** *** The wrap at the corpus end *)

(** C1 fails at a wrap.  The corpus [0; 1; 2; 3] holds a full window of
    three items and (4, 2, 1) is a valid parameter triple, yet the call
    returns no batch: the cursor reaches the corpus end after the first
    group and the slide of the second group raises [TypeError]. *)
Theorem wrap_inside_call_returns_no_batch :
  span 1 <= len short_corpus /\ 4 mod 2 = 0 /\ 2 <= 2 * 1 /\
  generate_batch short_corpus draws 4 2 1 initial =
    (Raise TypeError, Globals 4 4 [0; 1; 2; 3; 0; 1; 2]).
Proof. vm_compute. repeat split; discriminate. Qed.

(** C3 fails on a corpus of [span + 1] items.  The first call for one
    group returns and leaves the cursor at 1; the second call loads the
    last window, and its slide, with the cursor at the corpus end, raises
    [TypeError] instead of reloading the window from position 0: the
    cursor stays at the corpus length. *)
Theorem wrap_raises_TypeError :
  len short_corpus = span 1 + 1 /\
  generate_batch short_corpus draws 2 2 1 initial =
    (Ret ([Some 1; Some 1], [Some 0; Some 2]), Globals 1 2 [0; 1; 2; 3]) /\
  run_calls short_corpus draws [(2, 2, 1); (2, 2, 1)] initial =
    (Raise TypeError, Globals 4 4 [0; 1; 2; 3; 1; 2; 3; 0; 1; 2]).
Proof. vm_compute. done. Qed.

(** *** Rejected parameters, populated batches *)

(** Every cell of a returned batch has been written. *)
Lemma generate_batch_populated data rand bs ns sw g b lb g' :
  0 < ns -> 0 <= data_index g ->
  generate_batch data rand bs ns sw g = (Ret (b, lb), g') ->
  len b = bs /\ len lb = bs /\
  Forall is_Some b /\ Forall is_Some lb.
Proof.
  intros Hns Hdi Hrun.
  destruct (generate_batch_length _ _ _ _ _ _ _ _ _ Hdi Hrun) as [Hb Hlb].
  apply generate_batch_Ret in Hrun as (l & g1 & Hgroups & -> & -> & _ & _).
  apply generate_groups_Ret in Hgroups; [|done].
  destruct Hgroups as (_ & Hmod & _ & Hbs & _ & _ & _ & _ & _ & _ & _ & _ & _ & H).
  split; [done|]. split; [done|].
  assert (Hcell : forall p : nat, Z.of_nat p < bs ->
            is_Some (batch l !! p) /\
            (forall y, batch l !! p = Some y -> is_Some y) /\
            (forall y, labels l !! p = Some y -> is_Some y)).
  { intros p Hp.
    pose proof (Z.div_mod bs ns ltac:(lia)) as Hdm. rewrite Hmod in Hdm.
    pose proof (Z.div_mod (Z.of_nat p) ns ltac:(lia)) as Hpd.
    pose proof (Z.mod_pos_bound (Z.of_nat p) ns Hns) as Hpm.
    pose proof (Z.div_pos (Z.of_nat p) ns ltac:(lia) Hns) as Hpq.
    destruct (H (Z.of_nat p / ns)) as (c & ps & _ & Hlen & _ & _ & Hcells).
    { split; [done|]. apply Z.max_lt_iff. right.
      apply Z.div_lt_upper_bound; [done|]. nia. }
    destruct (lookup_lt_is_Some_2 ps (Z.to_nat (Z.of_nat p mod ns))) as [q Hq];
      [unfold len in Hlen; lia|].
    destruct (Hcells _ _ Hq) as (Hbc & x & _ & Hlx).
    replace (Z.to_nat (Z.of_nat p / ns * ns +
               Z.of_nat (Z.to_nat (Z.of_nat p mod ns)))) with p in Hbc, Hlx by lia.
    rewrite Hbc, Hlx. split; [done|]. split; by intros y [= <-]. }
  split; apply Forall_lookup; intros p y Hy;
    pose proof (lookup_lt_Some _ _ _ Hy) as Hlt; unfold len in *.
  - destruct (Hcell p ltac:(lia)) as (_ & Hc & _). by apply Hc.
  - destruct (Hcell p ltac:(lia)) as (_ & _ & Hc). by apply Hc.
Qed.

(** C5, as the code has it.  A call with [num_skips] zero, with
    [batch_size] not a multiple of [num_skips], or with [num_skips]
    above [2 * skip_window] raises at its first statements
    ([ZeroDivisionError] for a zero [num_skips], [AssertionError]
    otherwise) and leaves the globals as they were; nothing is clamped.
    A call that returns, for a positive [num_skips], returns
    [batch_size] centers and as many contexts, every cell written. *)
Theorem rejected_or_populated data rand bs ns sw g b lb g' :
  (ns = 0 \/ bs mod ns <> 0 \/ 2 * sw < ns ->
   exists e,
     (e = AssertionError \/ e = ZeroDivisionError) /\
     generate_batch data rand bs ns sw g = (Raise e, g)) /\
  (0 < ns -> 0 <= data_index g ->
   generate_batch data rand bs ns sw g = (Ret (b, lb), g') ->
   len b = bs /\ len lb = bs /\ Forall is_Some b /\ Forall is_Some lb).
Proof.
  split; [|apply generate_batch_populated].
  intros H. unfold generate_batch, generate_groups, py_mod.
  destruct (ns =? 0) eqn:E0.
  { exists ZeroDivisionError. split; [by right|done]. }
  exists AssertionError. split; [by left|].
  destruct (bs mod ns =? 0) eqn:E1.
  - destruct (ns <=? 2 * sw) eqn:E2; [lia|].
    unfold bind, ret, py_assert. cbv beta iota. by rewrite E1.
  - unfold bind, ret, py_assert. cbv beta iota. by rewrite E1.
Qed.

Lemma rejected_or_populated_witness :
  (exists e,
     (e = AssertionError \/ e = ZeroDivisionError) /\
     generate_batch toy_corpus draws 7 2 1 initial = (Raise e, initial)) /\
  (len [Some 2; Some 2] = 2 /\ len [Some 5; Some 2] = 2 /\
   Forall is_Some [Some 2; Some 2] /\ Forall is_Some [Some 5; Some 2]).
Proof.
  split.
  - apply (proj1 (rejected_or_populated toy_corpus draws 7 2 1 initial [] []
                    initial)).
    right. left. vm_compute. discriminate.
  - apply (proj2 (rejected_or_populated toy_corpus draws 2 2 1 initial
                    [Some 2; Some 2] [Some 5; Some 2]
                    (Globals 1 2 [0; 1; 2; 3]))).
    + reflexivity.
    + simpl. lia.
    + vm_compute. reflexivity.
Defined.

(** C5 as the specification words it fails: a corpus shorter than the
    window is not rejected up front.  On a corpus of two items a call
    with a window of three moves the cursor to 3, draws its sample, and
    raises [IndexError] when it reads the window. *)
Lemma short_corpus_fails_late :
  len tiny_corpus < span 1 /\
  generate_batch tiny_corpus draws 2 2 1 initial =
    (Raise IndexError, Globals 3 2 [0; 1; 2]) /\
  ~ (exists e, generate_batch tiny_corpus draws 2 2 1 initial = (Raise e, initial)).
Proof.
  split; [done|]. split; [done|].
  intros [e He]. vm_compute in He. discriminate.
Qed.

(** *** Determinism *)

Section Determinism.

Variable data : list Z.
Variables rand1 rand2 : source.

(** The two sources are followed for the same number of redraws. *)
Hypothesis same_patience : patience rand1 = patience rand2.

Local Notation "m1 ~~ m2" := (alike rand1 rand2 m1 m2) (at level 70).

(** A statement that neither reads nor writes the globals. *)
Lemma alike_pure {A} (m : M A) :
  (exists o, forall g, m g = (o, g)) -> m ~~ m.
Proof.
  intros [o Ho] g1 g2 Hdi. unfold draws_used. rewrite !Ho. cbn [fst snd].
  split; [done|]. intros _. split; [done|]. split; [done|]. lia.
Qed.

Lemma alike_ret {A} (a : A) : ret a ~~ ret a.
Proof. apply alike_pure. by exists (Ret a). Qed.

Lemma alike_raise {A} e : @raise A e ~~ raise e.
Proof. apply alike_pure. by exists (Raise e). Qed.

Lemma alike_unfinished {A} : @unfinished A ~~ unfinished.
Proof. apply alike_pure. by exists Unfinished. Qed.

Lemma alike_lift {A} e (o : option A) : lift e o ~~ lift e o.
Proof. destruct o; [apply alike_ret|apply alike_raise]. Qed.

Lemma alike_py_assert b : py_assert b ~~ py_assert b.
Proof. destruct b; [apply alike_ret|apply alike_raise]. Qed.

Lemma alike_py_mod a b : py_mod a b ~~ py_mod a b.
Proof. unfold py_mod. destruct (b =? 0); [apply alike_raise|apply alike_ret]. Qed.

Lemma alike_np_ndarray n : np_ndarray n ~~ np_ndarray n.
Proof. unfold np_ndarray. destruct (n <? 0); [apply alike_raise|apply alike_ret]. Qed.

Lemma alike_deque_new n : deque_new n ~~ deque_new n.
Proof. unfold deque_new. destruct (n <? 0); [apply alike_raise|apply alike_ret]. Qed.

Lemma alike_put_data_index v : put_data_index v ~~ put_data_index v.
Proof.
  intros g1 g2 _. unfold draws_used. cbn.
  split; [done|]. intros _. split; [done|]. split; [done|]. lia.
Qed.

Lemma alike_log_reads l : log_reads l ~~ log_reads l.
Proof.
  intros g1 g2 Hdi. unfold draws_used. cbn.
  split; [done|]. intros _. split; [done|]. split; [done|]. lia.
Qed.

(** What the second statement draws comes after what the first one
    drew. *)
Lemma alike_bind {A B} (m1 m2 : M A) (k1 k2 : A -> M B) :
  m1 ~~ m2 -> (forall a, k1 a ~~ k2 a) -> bind m1 k1 ~~ bind m2 k2.
Proof.
  intros Hm Hk g1 g2 Hdi.
  destruct (Hm g1 g2 Hdi) as [Hmono Hm'].
  unfold draws_used, bind in *.
  destruct (m1 g1) as [o1 g1'] eqn:E1. cbn [fst snd] in *.
  destruct o1 as [a|e|].
  - destruct (Hk a g1' g1' eq_refl) as [Hmono' _].
    split; [lia|]. intros Hdraws.
    destruct Hm' as (Ho & Hdi' & Hrng).
    { intros j Hj. apply Hdraws. lia. }
    destruct (m2 g2) as [o2 g2']. cbn [fst snd] in *. subst o2.
    destruct (Hk a g1' g2' Hdi') as [_ Hk'].
    destruct Hk' as (Ho' & Hdi'' & Hrng').
    { intros j Hj. unfold draws_used in Hj.
      replace (rng_calls g1' + j)%nat
        with (rng_calls g1 + (rng_calls g1' - rng_calls g1 + j))%nat by lia.
      rewrite Hrng, <- Nat.add_assoc. apply Hdraws. lia. }
    split; [done|]. split; [done|].
    rewrite Hrng'. unfold draws_used. lia.
  - split; [done|]. intros Hdraws. destruct (Hm' Hdraws) as (Ho & Hdi' & Hrng).
    destruct (m2 g2) as [o2 g2']. cbn [fst snd] in *. by subst o2.
  - split; [done|]. intros Hdraws. destruct (Hm' Hdraws) as (Ho & Hdi' & Hrng).
    destruct (m2 g2) as [o2 g2']. cbn [fst snd] in *. by subst o2.
Qed.

(** The cursor is read alike, and what follows may depend on it. *)
Lemma alike_get_data_index {B} (k1 k2 : Z -> M B) :
  (forall di, k1 di ~~ k2 di) ->
  bind get_data_index k1 ~~ bind get_data_index k2.
Proof.
  intros Hk g1 g2 Hdi. specialize (Hk (data_index g1) g1 g2 Hdi).
  unfold draws_used, bind, get_data_index in *. by rewrite <- Hdi.
Qed.

Lemma alike_for_each {A S} (xs : list A) (body1 body2 : A -> S -> M S) :
  (forall x s, body1 x s ~~ body2 x s) ->
  forall s, for_each xs body1 s ~~ for_each xs body2 s.
Proof.
  intros Hbody. induction xs as [|x xs IH]; intros s; simpl.
  - apply alike_ret.
  - apply alike_bind; [apply Hbody|apply IH].
Qed.

Lemma alike_randbelow n : randbelow rand1 n ~~ randbelow rand2 n.
Proof.
  intros g1 g2 Hdi. unfold draws_used, randbelow. cbn.
  split; [lia|]. intros Hdraws.
  specialize (Hdraws 0%nat ltac:(lia)). rewrite !Nat.add_0_r in Hdraws.
  rewrite Hdraws. split; [done|]. split; [done|]. lia.
Qed.

Lemma alike_sample_from_pool n i s :
  sample_from_pool rand1 n i s ~~ sample_from_pool rand2 n i s.
Proof.
  destruct s as [result pool]. unfold sample_from_pool.
  apply alike_bind; [apply alike_randbelow|intros j].
  repeat (apply alike_bind; [apply alike_lift|intros ?]).
  apply alike_ret.
Qed.

Lemma alike_redraw fuel : forall n selected j,
  redraw rand1 fuel n selected j ~~ redraw rand2 fuel n selected j.
Proof.
  induction fuel as [|fuel IH]; intros n selected j; cbn [redraw];
    destruct (decide (j ∈ selected)); try apply alike_ret.
  - apply alike_unfinished.
  - apply alike_bind; [apply alike_randbelow|intros j']. apply IH.
Qed.

Lemma alike_sample_by_index population n i s :
  sample_by_index rand1 population n i s ~~ sample_by_index rand2 population n i s.
Proof.
  destruct s as [result selected]. unfold sample_by_index.
  rewrite <- same_patience.
  apply alike_bind; [apply alike_randbelow|intros j0].
  apply alike_bind; [apply alike_redraw|intros j].
  apply alike_bind; [apply alike_lift|intros x]. apply alike_ret.
Qed.

Lemma alike_random_sample population k :
  random_sample rand1 population k ~~ random_sample rand2 population k.
Proof.
  unfold random_sample. destruct ((k <? 0) || (len population <? k)).
  - apply alike_raise.
  - destruct (len population <=? setsize k).
    + apply alike_bind; [|intros s; apply alike_ret].
      apply alike_for_each. intros i s. apply alike_sample_from_pool.
    + apply alike_bind; [|intros s; apply alike_ret].
      apply alike_for_each. intros i s. apply alike_sample_by_index.
Qed.

Lemma alike_ndarray_setitem a i v : ndarray_setitem a i v ~~ ndarray_setitem a i v.
Proof.
  unfold ndarray_setitem. apply alike_bind; [apply alike_lift|intros a'].
  destruct (is_int32 v); [apply alike_ret|apply alike_raise].
Qed.

Lemma alike_pair_body ns sw i jc l :
  pair_body ns sw i jc l ~~ pair_body ns sw i jc l.
Proof.
  destruct jc as [j p]. unfold pair_body.
  apply alike_bind; [apply alike_lift|intros c].
  apply alike_bind; [apply alike_ndarray_setitem|intros b'].
  apply alike_bind; [apply alike_lift|intros x].
  apply alike_bind; [apply alike_ndarray_setitem|intros lb'].
  apply alike_ret.
Qed.

Lemma alike_data_slice lo hi : data_slice data lo hi ~~ data_slice data lo hi.
Proof.
  unfold data_slice.
  apply alike_bind; [apply alike_log_reads|intros _; apply alike_ret].
Qed.

Lemma alike_data_getitem i : data_getitem data i ~~ data_getitem data i.
Proof.
  unfold data_getitem.
  apply alike_bind; [apply alike_log_reads|intros _; apply alike_lift].
Qed.

Lemma alike_slide sw l : slide data sw l ~~ slide data sw l.
Proof.
  unfold slide. apply alike_get_data_index. intros di.
  destruct (di =? len data).
  - apply alike_bind; [apply alike_data_slice|intros _; apply alike_raise].
  - apply alike_bind; [apply alike_data_getitem|intros x].
    apply alike_bind; [apply alike_put_data_index|intros _; apply alike_ret].
Qed.

Lemma alike_group_body ns sw i l :
  group_body data rand1 ns sw i l ~~ group_body data rand2 ns sw i l.
Proof.
  unfold group_body.
  apply alike_bind; [apply alike_random_sample|intros ws].
  apply alike_bind; [|intros l'; apply alike_slide].
  apply alike_for_each. intros jc l'. apply alike_pair_body.
Qed.

Lemma alike_generate_groups bs ns sw :
  generate_groups data rand1 bs ns sw ~~ generate_groups data rand2 bs ns sw.
Proof.
  unfold generate_groups.
  apply alike_bind; [apply alike_py_mod|intros r].
  apply alike_bind; [apply alike_py_assert|intros _].
  apply alike_bind; [apply alike_py_assert|intros _].
  apply alike_bind; [apply alike_np_ndarray|intros b0].
  apply alike_bind; [apply alike_np_ndarray|intros lb0].
  apply alike_bind; [apply alike_deque_new|intros d0].
  apply alike_get_data_index. intros di.
  apply alike_bind.
  { destruct (di + span sw >? len data);
      [apply alike_put_data_index|apply alike_ret]. }
  intros _. apply alike_get_data_index. intros di'.
  apply alike_bind; [apply alike_data_slice|intros w].
  apply alike_bind; [apply alike_put_data_index|intros _].
  apply alike_for_each. intros i l. apply alike_group_body.
Qed.

Lemma alike_backtrack sw : backtrack data sw ~~ backtrack data sw.
Proof.
  unfold backtrack. apply alike_get_data_index. intros di.
  apply alike_bind; [apply alike_py_mod|intros v; apply alike_put_data_index].
Qed.

Lemma alike_generate_batch bs ns sw :
  generate_batch data rand1 bs ns sw ~~ generate_batch data rand2 bs ns sw.
Proof.
  unfold generate_batch.
  apply alike_bind; [apply alike_generate_groups|intros l].
  apply alike_bind; [apply alike_backtrack|intros _; apply alike_ret].
Qed.

End Determinism.

(** C9: with the random source injected, the outcome of a call depends
    on the source only through the draws the call takes from it.  Two
    calls with the same parameters on the same corpus, from states with
    the same cursor, whose sources give the same draws as far as the
    first call uses them (however many that is: [random.sample] redraws
    for a population of more than [setsize] positions), end alike: the
    same batch or the same exception, the same cursor, and the same
    number of draws used.  The two sources are followed for the same
    number of redraws.  [num_skips] is positive, as the specification
    has it, so that every cell of a returned batch has been written. *)
Theorem generate_batch_deterministic data rand1 rand2 bs ns sw g1 g2 :
  0 < ns ->
  patience rand1 = patience rand2 ->
  data_index g1 = data_index g2 ->
  same_draws rand1 rand2
    (draws_used (generate_batch data rand1 bs ns sw) g1) g1 g2 ->
  (generate_batch data rand1 bs ns sw g1).1 =
    (generate_batch data rand2 bs ns sw g2).1 /\
  data_index (generate_batch data rand1 bs ns sw g1).2 =
    data_index (generate_batch data rand2 bs ns sw g2).2 /\
  rng_calls (generate_batch data rand2 bs ns sw g2).2 =
    (rng_calls g2 + draws_used (generate_batch data rand1 bs ns sw) g1)%nat.
Proof.
  intros _ Hpat Hdi Hdraws.
  by apply (alike_generate_batch data rand1 rand2 Hpat bs ns sw g1 g2 Hdi).
Qed.

Lemma generate_batch_deterministic_witness :
  (generate_batch long_corpus repeating_draws 2 2 11 initial).1 =
    (generate_batch long_corpus repeating_then_one 2 2 11 initial_with_history).1 /\
  data_index (generate_batch long_corpus repeating_draws 2 2 11 initial).2 =
    data_index
      (generate_batch long_corpus repeating_then_one 2 2 11 initial_with_history).2 /\
  rng_calls
    (generate_batch long_corpus repeating_then_one 2 2 11 initial_with_history).2 =
    (rng_calls initial_with_history +
     draws_used (generate_batch long_corpus repeating_draws 2 2 11) initial)%nat.
Proof.
  apply (generate_batch_deterministic long_corpus repeating_draws
           repeating_then_one 2 2 11 initial initial_with_history).
  - lia.
  - reflexivity.
  - reflexivity.
  - intros j Hj. vm_compute in Hj.
    do 3 (destruct j as [|j]; [reflexivity|]). lia.
Defined.

End SamplerFacts.

(** ** Facts about the vocabulary builder *)

Module VocabFacts.

Import Py PyFacts Vocab.
Local Open Scope Z_scope.

(** *** Dictionaries *)

Section DictFacts.

Context {K V : Type} `{EqDecision K}.
Implicit Types (d : list (K * V)) (k : K) (v : V).

Lemma dict_get_set_eq d k v : dict_get (dict_set d k v) k = Some v.
Proof.
  induction d as [|[k' v'] d IH]; csimpl.
  - by rewrite decide_True.
  - destruct (decide (k' = k)) as [->|Hne]; csimpl.
    + by rewrite decide_True.
    + by rewrite decide_False.
Qed.

Lemma dict_get_set_ne d k k' v :
  k <> k' -> dict_get (dict_set d k v) k' = dict_get d k'.
Proof.
  intros Hne. induction d as [|[k0 v0] d IH]; csimpl.
  - by rewrite decide_False.
  - destruct (decide (k0 = k)) as [->|Hk0]; csimpl.
    + by rewrite !decide_False.
    + destruct (decide (k0 = k')); [done|apply IH].
Qed.

Lemma dict_get_None d k : dict_get d k = None <-> k ∉ keys d.
Proof.
  unfold keys. induction d as [|[k' v'] d IH]; csimpl.
  - split; [intros _; apply not_elem_of_nil|done].
  - rewrite not_elem_of_cons. destruct (decide (k' = k)) as [->|Hne].
    + split; [done|]. by intros [? _].
    + rewrite IH. split; [by split|by intros [_ ?]].
Qed.

Lemma dict_set_new d k v : k ∉ keys d -> dict_set d k v = d ++ [(k, v)].
Proof.
  unfold keys. induction d as [|[k' v'] d IH]; csimpl; [done|].
  rewrite not_elem_of_cons. intros [Hne Hk].
  rewrite decide_False by done. by rewrite IH.
Qed.

Lemma keys_dict_set_old d k v : k ∈ keys d -> keys (dict_set d k v) = keys d.
Proof.
  unfold keys. induction d as [|[k' v'] d IH]; csimpl.
  - by intros ?%elem_of_nil.
  - destruct (decide (k' = k)) as [->|Hne]; [done|].
    intros [?|Hk]%elem_of_cons; [done|]. csimpl. by rewrite IH.
Qed.

Lemma keys_dict_set_NoDup d k v : NoDup (keys d) -> NoDup (keys (dict_set d k v)).
Proof.
  intros Hnd. destruct (decide (k ∈ keys d)) as [Hk|Hk].
  - by rewrite keys_dict_set_old.
  - rewrite dict_set_new by done. unfold keys in *. rewrite fmap_app. csimpl.
    apply NoDup_app. split; [done|]. split.
    + intros x Hx [->|[]%elem_of_nil]%elem_of_cons. done.
    + apply NoDup_singleton.
Qed.

Lemma length_dict_set_ge d k v : (length d <= length (dict_set d k v))%nat.
Proof.
  induction d as [|[k' v'] d IH]; csimpl; [lia|].
  destruct (decide (k' = k)); csimpl; lia.
Qed.

(** A list of items with distinct keys is the dictionary it builds. *)
Lemma dict_of_NoDup_from (pairs : list (K * V)) : forall d,
  NoDup (keys d ++ keys pairs) ->
  foldl (fun d kv => dict_set d kv.1 kv.2) d pairs = d ++ pairs.
Proof.
  unfold keys. induction pairs as [|[k v] pairs IH]; intros d Hnd; csimpl.
  - by rewrite app_nil_r.
  - csimpl in Hnd. rewrite dict_set_new.
    + rewrite IH; [by rewrite <- app_assoc|].
      rewrite fmap_app. csimpl. by rewrite <- app_assoc.
    + apply NoDup_app in Hnd as (_ & Hnd & _).
      intros Hk. apply (Hnd k Hk). left.
Qed.

Lemma dict_of_NoDup (pairs : list (K * V)) :
  NoDup (keys pairs) -> dict_of pairs = pairs.
Proof. intros Hnd. unfold dict_of. by rewrite dict_of_NoDup_from. Qed.

End DictFacts.

(** A dictionary with distinct values, read backwards. *)
Lemma dict_get_swap {K V} `{EqDecision K, EqDecision V} (d : list (K * V)) k v :
  NoDup (values d) ->
  dict_get d k = Some v -> dict_get (zip (values d) (keys d)) v = Some k.
Proof.
  unfold keys, values. induction d as [|[k' v'] d IH]; csimpl; [done|].
  intros [Hv' Hnd]%NoDup_cons.
  destruct (decide (k' = k)) as [->|Hne].
  - intros [= ->]. by rewrite decide_True.
  - intros Hget. rewrite decide_False; [by apply IH|].
    intros ->. apply Hv'. clear -Hget.
    induction d as [|[k0 v0] d IH]; csimpl in *; [done|].
    destruct (decide (k0 = k)); [injection Hget as ->; left|right; by apply IH].
Qed.

Lemma zip_values_keys_swap {K V} (d : list (K * V)) :
  values (zip (values d) (keys d)) = keys d /\
  keys (zip (values d) (keys d)) = values d /\
  zip (values (zip (values d) (keys d))) (keys (zip (values d) (keys d))) = d.
Proof.
  unfold keys, values.
  rewrite snd_zip, fst_zip by (rewrite !length_fmap; lia).
  by rewrite zip_fst_snd.
Qed.

(** *** The counter and its most common items *)

Lemma counter_add_NoDup c w : NoDup (keys c) -> NoDup (keys (counter_add c w)).
Proof.
  intros Hnd. unfold counter_add.
  destruct (dict_get c w); by apply keys_dict_set_NoDup.
Qed.

Lemma Counter_NoDup words : NoDup (keys (Counter words)).
Proof.
  unfold Counter.
  assert (H : forall c, NoDup (keys c) -> NoDup (keys (foldl counter_add c words))).
  { induction words as [|w words IH]; intros c Hc; csimpl; [done|].
    by apply IH, counter_add_NoDup. }
  apply H. constructor.
Qed.

Lemma insert_desc_perm x l : insert_desc x l ≡ₚ x :: l.
Proof.
  induction l as [|y l IH]; csimpl; [done|].
  destruct (x.2 <? y.2); [|done].
  rewrite IH. apply Permutation_swap.
Qed.

Lemma sort_desc_perm l : sort_desc l ≡ₚ l.
Proof.
  unfold sort_desc. induction l as [|x l IH]; csimpl; [done|].
  by rewrite insert_desc_perm, IH.
Qed.

Lemma top_words_NoDup words n_words : NoDup (top_words words n_words).
Proof.
  unfold top_words, most_common, keys. rewrite fmap_take.
  eapply sublist_NoDup; [|apply sublist_take].
  rewrite sort_desc_perm. apply Counter_NoDup.
Qed.

(** The counter holds the number of occurrences of every input word,
    and [most_common] keeps words that occur at least as often as every
    word it leaves out. *)
Lemma keys_dict_set {V} (d : list (string * V)) k v k' :
  k' ∈ keys (dict_set d k v) <-> k' = k \/ k' ∈ keys d.
Proof.
  destruct (decide (k' ∈ keys (dict_set d k v))) as [Hin|Hout].
  - split; [|done]. intros _.
    destruct (decide (k' = k)) as [|Hne]; [by left|right].
    destruct (decide (k' ∈ keys d)) as [|Hk]; [done|].
    apply dict_get_None in Hk. exfalso.
    revert Hin. apply dict_get_None. by rewrite dict_get_set_ne.
  - split; [done|]. intros H. exfalso. apply dict_get_None in Hout.
    destruct (decide (k' = k)) as [->|Hne].
    + by rewrite dict_get_set_eq in Hout.
    + rewrite dict_get_set_ne in Hout by done.
      apply dict_get_None in Hout. by destruct H.
Qed.

Lemma counter_add_keys c w w' :
  w' ∈ keys (counter_add c w) <-> w' = w \/ w' ∈ keys c.
Proof. unfold counter_add. destruct (dict_get c w); apply keys_dict_set. Qed.

Lemma counter_add_count c w w' :
  count_of (counter_add c w) w' =
  count_of c w' + (if decide (w' = w) then 1 else 0).
Proof.
  unfold count_of, counter_add.
  destruct (decide (w' = w)) as [->|Hne].
  - destruct (dict_get c w) as [n|]; rewrite dict_get_set_eq; simpl; lia.
  - destruct (dict_get c w) as [n|]; rewrite dict_get_set_ne by done; lia.
Qed.

Lemma Counter_fold words w : forall c,
  count_of (foldl counter_add c words) w = count_of c w + occurrences w words /\
  (w ∈ keys (foldl counter_add c words) <-> w ∈ keys c \/ w ∈ words).
Proof.
  unfold occurrences, len.
  induction words as [|x words IH]; intros c; csimpl.
  - split; [lia|]. rewrite elem_of_nil. tauto.
  - destruct (IH (counter_add c x)) as [-> ->].
    rewrite counter_add_count, counter_add_keys, elem_of_cons. split.
    + destruct (decide (w = x)) as [->|Hne].
      * rewrite filter_cons_True by done. cbn [length]. lia.
      * rewrite filter_cons_False by done. lia.
    + tauto.
Qed.

Lemma Counter_count words w : count_of (Counter words) w = occurrences w words.
Proof. unfold Counter. by destruct (Counter_fold words w []) as [-> _]. Qed.

Lemma Counter_keys words w : w ∈ keys (Counter words) <-> w ∈ words.
Proof.
  unfold Counter. destruct (Counter_fold words w []) as [_ ->].
  unfold keys. csimpl. rewrite elem_of_nil. tauto.
Qed.

Lemma dict_get_elem_of {V} (d : list (string * V)) k v :
  NoDup (keys d) -> (k, v) ∈ d -> dict_get d k = Some v.
Proof.
  unfold keys. induction d as [|[k' v'] d IH]; csimpl.
  - by intros _ ?%elem_of_nil.
  - intros [Hk' Hnd]%NoDup_cons [[= -> ->]|Hin]%elem_of_cons.
    + by rewrite decide_True.
    + rewrite decide_False; [by apply IH|].
      intros ->. apply Hk'. by apply (list_elem_of_fmap_2 fst) in Hin.
Qed.

Lemma insert_desc_sorted x l :
  StronglySorted by_count_desc l -> StronglySorted by_count_desc (insert_desc x l).
Proof.
  unfold by_count_desc.
  induction l as [|y l IH]; csimpl; intros Hl.
  - repeat constructor.
  - apply StronglySorted_cons in Hl as [Hy Hl].
    destruct (x.2 <? y.2) eqn:E.
    + apply StronglySorted_cons. split; [|by apply IH].
      rewrite insert_desc_perm. constructor; [lia|done].
    + apply StronglySorted_cons. split; [|by apply StronglySorted_cons].
      constructor; [lia|].
      eapply Forall_impl; [exact Hy|]. intros z Hz. simpl in *. lia.
Qed.

Lemma sort_desc_sorted l : StronglySorted by_count_desc (sort_desc l).
Proof.
  unfold sort_desc. induction l as [|x l IH]; csimpl; [constructor|].
  by apply insert_desc_sorted.
Qed.

Lemma top_words_most_frequent words n_words w w' :
  w ∈ top_words words n_words ->
  w' ∈ words -> w' ∉ top_words words n_words ->
  occurrences w' words <= occurrences w words.
Proof.
  unfold top_words, most_common, keys. intros Hw Hw' Hout.
  pose proof (Counter_NoDup words) as Hnd.
  pose proof (sort_desc_sorted (Counter words)) as Hsorted.
  set (n := Z.to_nat (n_words - 1)) in *.
  rewrite <- (take_drop n (sort_desc (Counter words))) in Hsorted.
  apply list_elem_of_fmap in Hw as ([w0 c] & -> & Hwc).
  apply Counter_keys, list_elem_of_fmap in Hw' as ([w0' c'] & -> & Hwc').
  rewrite <- sort_desc_perm, <- (take_drop n) in Hwc'.
  apply elem_of_app in Hwc' as [Hwc'|Hwc'].
  { exfalso. apply Hout. by apply (list_elem_of_fmap_2 fst) in Hwc'. }
  pose proof (StronglySorted_app_1_elem_of _ _ _ _ _ Hsorted Hwc Hwc') as Hle.
  unfold by_count_desc in Hle. simpl in Hle |- *.
  assert (Hget : forall k v, (k, v) ∈ sort_desc (Counter words) ->
                   occurrences k words = v).
  { intros k v Hkv. rewrite sort_desc_perm in Hkv.
    rewrite <- Counter_count. unfold count_of.
    by rewrite (dict_get_elem_of _ _ _ Hnd Hkv). }
  rewrite (Hget w0 c), (Hget w0' c'); [done| |].
  - rewrite <- (take_drop n). apply elem_of_app. by right.
  - rewrite <- (take_drop n). apply elem_of_app. by left.
Qed.

(** *** The ranks *)

(** Every word of the loop ends with a rank of at least 1 when the
    dictionary already holds an item; the other words keep theirs. *)
Lemma rank_fold (ws : list (string * Z)) : forall d,
  (1 <= length d)%nat ->
  (forall w, w ∈ keys ws ->
     exists r, dict_get (foldl rank_step d ws) w = Some r /\ 1 <= r) /\
  (forall w, w ∉ keys ws -> dict_get (foldl rank_step d ws) w = dict_get d w).
Proof.
  unfold keys. induction ws as [|[w0 c0] ws IH]; intros d Hd; csimpl.
  - split; [by intros w ?%elem_of_nil|done].
  - unfold rank_step at 2 4. cbn [fst].
    pose proof (length_dict_set_ge d w0 (len d)) as Hlen.
    destruct (IH (dict_set d w0 (len d)) ltac:(lia)) as [IHin IHout].
    split.
    + intros w Hw. destruct (decide (w ∈ ws.*1)) as [Hin|Hnin].
      * by apply IHin.
      * apply elem_of_cons in Hw as [->|Hw]; [|done].
        rewrite IHout by done. rewrite dict_get_set_eq.
        exists (len d). split; [done|]. unfold len. lia.
    + intros w [Hne Hw]%not_elem_of_cons.
      rewrite IHout by done. by apply dict_get_set_ne.
Qed.

(** With distinct words, each new word takes the next free rank. *)
Lemma rank_fold_NoDup (ws : list (string * Z)) : forall d,
  NoDup (keys d ++ keys ws) ->
  foldl rank_step d ws = d ++ zip (keys ws) (seqZ (len d) (len ws)).
Proof.
  unfold keys. induction ws as [|[w0 c0] ws IH]; intros d Hnd; csimpl.
  - by rewrite app_nil_r.
  - unfold rank_step at 2. cbn [fst]. rewrite dict_set_new.
    2:{ apply NoDup_app in Hnd as (_ & Hnd & _).
        intros Hk. apply (Hnd w0 Hk). left. }
    rewrite IH.
    2:{ rewrite fmap_app. csimpl. by rewrite <- app_assoc. }
    rewrite <- app_assoc. f_equal.
    unfold len. rewrite (seqZ_cons _ (Z.of_nat (length (_ :: ws))))
      by (cbn [length]; lia).
    csimpl. rewrite length_app. cbn [length]. do 3 f_equal; lia.
Qed.

Section Built.

Variable words : list string.
Variable n_words : Z.

Let top := top_words words n_words.
Let dict := assign_ranks
  (("UNK"%string, -1) :: most_common (Counter words) (n_words - 1)).

Lemma dict_fold :
  dict = foldl rank_step [("UNK"%string, 0)]
           (most_common (Counter words) (n_words - 1)).
Proof. done. Qed.

Lemma rank_top w : w ∈ top -> exists r, dict_get dict w = Some r /\ 1 <= r.
Proof.
  rewrite dict_fold. intros Hw.
  apply (rank_fold _ [("UNK"%string, 0)]); [cbn [length]; lia|done].
Qed.

Lemma rank_other w : w ∉ top -> rank_of dict w = 0.
Proof.
  rewrite dict_fold. intros Hw. unfold rank_of.
  destruct (rank_fold (most_common (Counter words) (n_words - 1))
              [("UNK"%string, 0)]) as [_ Hout]; [cbn [length]; lia|].
  rewrite Hout by done.
  csimpl. by destruct (decide ("UNK"%string = w)).
Qed.

Lemma rank_zero_iff w : rank_of dict w = 0 <-> w ∉ top.
Proof.
  split; [|apply rank_other].
  intros H0 Hw. apply rank_top in Hw as (r & Hr & Hpos).
  unfold rank_of in H0. rewrite Hr in H0. simpl in H0. lia.
Qed.

Lemma dict_no_collision :
  "UNK"%string ∉ top ->
  dict = ("UNK"%string, 0) :: zip top (seqZ 1 (len top)).
Proof.
  intros Hunk. rewrite dict_fold, rank_fold_NoDup.
  - subst top. unfold top_words, len, keys. by rewrite length_fmap.
  - csimpl. apply NoDup_cons. split; [done|apply top_words_NoDup].
Qed.

End Built.

(** The loop over the words. *)
Lemma encode_fold dictionary words : forall data0 u0,
  foldl (fun '(data, unk_count) word =>
           let index := rank_of dictionary word in
           (data ++ [index], if index =? 0 then unk_count + 1 else unk_count))
        (data0, u0) words =
  (data0 ++ (rank_of dictionary <$> words),
   u0 + len (filter (fun w => rank_of dictionary w = 0) words)).
Proof.
  induction words as [|w words IH]; intros data0 u0; csimpl.
  - by rewrite app_nil_r, Z.add_0_r.
  - rewrite IH, <- app_assoc. f_equal. unfold len.
    destruct (rank_of dictionary w =? 0) eqn:E.
    + apply Z.eqb_eq in E. rewrite filter_cons_True by done.
      cbn [length]. lia.
    + apply Z.eqb_neq in E. by rewrite filter_cons_False.
Qed.

Lemma build_dataset_unfold words n_words :
  let mc := most_common (Counter words) (n_words - 1) in
  let dict := assign_ranks (("UNK"%string, -1) :: mc) in
  build_dataset words n_words =
    Dataset (rank_of dict <$> words)
            (("UNK"%string, len (filter (fun w => rank_of dict w = 0) words)) :: mc)
            dict
            (dict_of (zip (values dict) (keys dict))).
Proof.
  intros mc dict. unfold build_dataset, encode. fold mc. fold dict.
  by rewrite encode_fold.
Qed.

(** *** The encoded corpus *)

(** The counter holds one item for every distinct input token. *)
Lemma length_Counter words : length (Counter words) = length (remove_dups words).
Proof.
  rewrite <- (length_fmap fst). apply Permutation_length, NoDup_Permutation.
  - apply Counter_NoDup.
  - apply NoDup_remove_dups.
  - intros w. rewrite elem_of_remove_dups. apply Counter_keys.
Qed.

(** The words that keep a rank are as many as asked for, as far as the
    input has distinct tokens. *)
Lemma length_top_words words n_words :
  length (top_words words n_words) =
    Nat.min (Z.to_nat (n_words - 1)) (length (remove_dups words)).
Proof.
  unfold top_words, most_common, keys.
  rewrite length_fmap, length_take, <- length_Counter.
  by rewrite (Permutation_length (sort_desc_perm _)).
Qed.

Lemma top_words_input words n_words w :
  w ∈ top_words words n_words -> w ∈ words.
Proof.
  unfold top_words, most_common, keys. intros Hw.
  apply Counter_keys. unfold keys.
  apply list_elem_of_fmap in Hw as (wc & -> & Hwc).
  apply list_elem_of_fmap_2.
  rewrite <- sort_desc_perm.
  rewrite <- (take_drop (Z.to_nat (n_words - 1))). apply elem_of_app. by left.
Qed.

(** *** The order of the most common words *)

(** The counter lists the distinct tokens in the order of their first
    occurrence. *)
Lemma keys_counter_add c w :
  keys (counter_add c w) = if decide (w ∈ keys c) then keys c else keys c ++ [w].
Proof.
  unfold counter_add. destruct (decide (w ∈ keys c)) as [Hin|Hout].
  - destruct (dict_get c w); by apply keys_dict_set_old.
  - rewrite (proj2 (dict_get_None c w) Hout). rewrite dict_set_new by done.
    unfold keys. by rewrite fmap_app.
Qed.

Lemma keys_Counter_fold words : forall c,
  keys (foldl counter_add c words) =
  keys c ++ filter (fun w => w ∉ keys c) (firsts words).
Proof.
  induction words as [|x words IH]; intros c; cbn [foldl firsts].
  - by rewrite app_nil_r.
  - rewrite IH, keys_counter_add. destruct (decide (x ∈ keys c)) as [Hin|Hout].
    + rewrite filter_cons_False by (intros H; by apply H).
      f_equal. rewrite list_filter_filter. apply list_filter_iff. intros y.
      split; [|by intros [? _]]. intros Hy. split; [done|]. by intros ->.
    + rewrite filter_cons_True by done. rewrite <- app_assoc. cbn [app].
      do 2 f_equal. rewrite list_filter_filter. apply list_filter_iff. intros y.
      rewrite not_elem_of_app, list_elem_of_singleton. done.
Qed.

Lemma keys_Counter words : keys (Counter words) = firsts words.
Proof.
  unfold Counter. rewrite keys_Counter_fold. cbn [keys fmap list_fmap app].
  apply SamplerFacts.filter_all, Forall_forall. intros w _. apply not_elem_of_nil.
Qed.

Lemma StronglySorted_filter_impl {A} (R R' : relation A) (P : A -> Prop)
    `{!forall x, Decision (P x)} (l : list A) :
  (forall y z, P y -> P z -> R y z -> R' y z) ->
  StronglySorted R l -> StronglySorted R' (filter P l).
Proof.
  intros Himpl. induction 1 as [|y l Hs IH Hall]; [constructor|].
  destruct (decide (P y)).
  - rewrite filter_cons_True by done. constructor; [done|].
    apply Forall_forall. intros z [Hz Hin]%list_elem_of_filter.
    rewrite Forall_forall in Hall. apply Himpl; auto.
  - by rewrite filter_cons_False.
Qed.

Lemma StronglySorted_impl_elem_of {A} (R R' : relation A) (l : list A) :
  (forall y z, y ∈ l -> z ∈ l -> R y z -> R' y z) ->
  StronglySorted R l -> StronglySorted R' l.
Proof.
  induction l as [|x l IH]; intros Himpl Hs; [constructor|].
  apply StronglySorted_cons in Hs as [Hall Hs]. constructor.
  - apply IH; [|done]. intros y z Hy Hz. apply Himpl; by right.
  - apply Forall_forall. intros z Hz. rewrite Forall_forall in Hall.
    apply Himpl; [left|by right|by apply Hall].
Qed.

Lemma StronglySorted_fmap_inv {A B} (f : A -> B) (R : relation B) (l : list A) :
  StronglySorted R (f <$> l) -> StronglySorted (fun x y => R (f x) (f y)) l.
Proof.
  induction l as [|x l IH]; csimpl; intros Hs; [constructor|].
  apply StronglySorted_cons in Hs as [Hall Hs]. constructor; [by apply IH|].
  by rewrite Forall_fmap in Hall.
Qed.

Lemma firsts_sorted words :
  StronglySorted
    (fun w w' => (first_occurrence w words < first_occurrence w' words)%nat)
    (firsts words).
Proof.
  induction words as [|x words IH]; cbn [firsts]; [constructor|].
  constructor.
  - eapply StronglySorted_filter_impl; [|exact IH].
    intros y z Hy Hz Hlt. cbv beta in Hlt. cbn [first_occurrence].
    rewrite !decide_False by (by intros ->). lia.
  - apply Forall_forall. intros y [Hy _]%list_elem_of_filter.
    cbn [first_occurrence]. rewrite decide_True by done.
    rewrite decide_False by (by intros ->). lia.
Qed.

(** The insertion sort is stable: items of equal count stay in the
    order they had. *)
Lemma insert_desc_stable (B : relation (string * Z)) x l :
  Forall (B x) l -> StronglySorted (by_count_then B) l ->
  StronglySorted (by_count_then B) (insert_desc x l).
Proof.
  intros HB Hs. induction Hs as [|y l Hs IH Hall]; cbn [insert_desc].
  - repeat constructor.
  - apply Forall_cons in HB as [HBy HBl].
    destruct (x.2 <? y.2) eqn:E.
    + constructor; [by apply IH|].
      rewrite insert_desc_perm. constructor; [left; lia|done].
    + constructor; [by constructor|].
      assert (Hxy : by_count_then B x y).
      { destruct (decide (y.2 = x.2)) as [Heq|Hne]; [by right|left; lia]. }
      constructor; [done|].
      apply Forall_forall. intros z Hz.
      rewrite Forall_forall in Hall, HBl.
      destruct (decide (z.2 = x.2)) as [Heq|Hne]; [right; split; [done|by apply HBl]|].
      left. destruct (Hall z Hz) as [Hlt|[Heq _]]; lia.
Qed.

Lemma sort_desc_stable (B : relation (string * Z)) l :
  StronglySorted B l -> StronglySorted (by_count_then B) (sort_desc l).
Proof.
  unfold sort_desc. induction 1 as [|x l Hs IH Hall]; cbn [foldr]; [constructor|].
  apply insert_desc_stable; [|done]. fold (sort_desc l). by rewrite sort_desc_perm.
Qed.

(** [most_common] lists the words in the order of the vocabulary. *)
Lemma sort_desc_Counter_order words :
  StronglySorted (fun x y => precedes words x.1 y.1) (sort_desc (Counter words)).
Proof.
  pose proof (Counter_NoDup words) as Hnd.
  set (B := fun x y : string * Z =>
              (first_occurrence x.1 words < first_occurrence y.1 words)%nat).
  assert (HB : StronglySorted B (Counter words)).
  { apply (StronglySorted_fmap_inv fst
             (fun w w' => (first_occurrence w words < first_occurrence w' words)%nat)).
    fold (keys (Counter words)). rewrite keys_Counter. apply firsts_sorted. }
  apply (StronglySorted_impl_elem_of (by_count_then B)); [|by apply sort_desc_stable].
  assert (Hget : forall v x, (v, x) ∈ sort_desc (Counter words) ->
                   x = occurrences v words).
  { intros v x Hvx. rewrite sort_desc_perm in Hvx.
    rewrite <- Counter_count. unfold count_of.
    by rewrite (dict_get_elem_of _ v x Hnd Hvx). }
  intros [w c] [w' c'] Hy Hz. apply Hget in Hy, Hz. subst c c'.
  unfold by_count_then, precedes, B. cbn [fst snd]. tauto.
Qed.

(** The most common words come in the order of the vocabulary, and
    before every input token that is left out. *)
Lemma top_words_order words n_words (j k : nat) w w' :
  (j < k)%nat ->
  top_words words n_words !! j = Some w ->
  top_words words n_words !! k = Some w' ->
  precedes words w w'.
Proof.
  unfold top_words, most_common, keys. intros Hjk Hj Hk.
  pose proof (sort_desc_Counter_order words) as Hsorted.
  set (n := Z.to_nat (n_words - 1)) in *.
  set (t := take n (sort_desc (Counter words))) in *.
  rewrite list_lookup_fmap in Hj, Hk.
  destruct (t !! j) as [[w0 c]|] eqn:Ej; [|done]. injection Hj as ->.
  destruct (t !! k) as [[w0' c']|] eqn:Ek; [|done]. injection Hk as ->.
  rewrite <- (take_drop n (sort_desc (Counter words))) in Hsorted.
  apply StronglySorted_app_1_l in Hsorted. fold t in Hsorted.
  rewrite <- (take_drop k t) in Hsorted.
  assert (Hin : (w, c) ∈ take k t).
  { apply (list_elem_of_lookup_2 _ j). by rewrite lookup_take_lt. }
  assert (Hin' : (w', c') ∈ drop k t).
  { apply (list_elem_of_lookup_2 _ 0). by rewrite lookup_drop, Nat.add_0_r. }
  exact (StronglySorted_app_1_elem_of _ _ _ _ _ Hsorted Hin Hin').
Qed.

Lemma top_words_before_rest words n_words w w' :
  w ∈ top_words words n_words ->
  w' ∈ words -> w' ∉ top_words words n_words ->
  precedes words w w'.
Proof.
  unfold top_words, most_common, keys. intros Hw Hw' Hout.
  pose proof (sort_desc_Counter_order words) as Hsorted.
  set (n := Z.to_nat (n_words - 1)) in *.
  rewrite <- (take_drop n (sort_desc (Counter words))) in Hsorted.
  apply list_elem_of_fmap in Hw as ([w0 c] & -> & Hwc).
  apply Counter_keys, list_elem_of_fmap in Hw' as ([w0' c'] & -> & Hwc').
  rewrite <- sort_desc_perm, <- (take_drop n) in Hwc'.
  apply elem_of_app in Hwc' as [Hwc'|Hwc'].
  { exfalso. apply Hout. by apply (list_elem_of_fmap_2 fst) in Hwc'. }
  exact (StronglySorted_app_1_elem_of _ _ _ _ _ Hsorted Hwc Hwc').
Qed.

(** Distinct words numbered from [s] on. *)
Lemma dict_get_zip_ranks (ws : list string) : forall (s : Z) (k : nat) w,
  NoDup ws -> ws !! k = Some w ->
  dict_get (zip ws (seqZ s (len ws))) w = Some (s + Z.of_nat k).
Proof.
  unfold len. induction ws as [|w0 ws IH]; intros s k w Hnd Hk; [done|].
  rewrite seqZ_cons by (cbn [length]; lia).
  replace (Z.pred (Z.of_nat (length (w0 :: ws)))) with (Z.of_nat (length ws))
    by (cbn [length]; lia).
  cbn [zip zip_with dict_get].
  apply NoDup_cons in Hnd as [Hw0 Hnd].
  destruct k as [|k].
  - injection Hk as ->. rewrite decide_True by done. f_equal. lia.
  - cbn in Hk. rewrite decide_False.
    + rewrite (IH (Z.succ s) k w Hnd Hk). f_equal. lia.
    + intros ->. apply Hw0. by apply list_elem_of_lookup_2 in Hk.
Qed.

(** C7: the encoded corpus has one rank per input token, in order: the
    rank the dictionary gives the token, at least 1, when the token is
    one of the [n_words - 1] most common words, and 0 otherwise; the
    count stored at rank 0 is the number of input tokens that are not
    among those words.  The [n_words - 1] most common words are
    [n_words - 1] distinct input tokens, or all the distinct input
    tokens when there are fewer: the first ones in the order of the
    vocabulary (more occurrences first, and of two words with as many
    occurrences the one met first), listed in that order; when ["UNK"]
    is not one of them, their ranks are 1, 2, ... in that order. *)
Theorem build_dataset_encodes words n_words :
  let ds := build_dataset words n_words in
  let top := top_words words n_words in
  (NoDup top /\
   (forall w, w ∈ top -> w ∈ words) /\
   length top = Nat.min (Z.to_nat (n_words - 1)) (length (remove_dups words)) /\
   (forall w w', w ∈ top -> w' ∈ words -> w' ∉ top -> precedes words w w') /\
   (forall (j k : nat) w w', (j < k)%nat ->
      top !! j = Some w -> top !! k = Some w' -> precedes words w w')) /\
  ("UNK"%string ∉ top ->
   forall (k : nat) w, top !! k = Some w ->
     dict_get (dictionary ds) w = Some (Z.of_nat k + 1)) /\
  length (data ds) = length words /\
  (forall (i : nat) w, words !! i = Some w ->
     (w ∈ top ->
      exists r, dict_get (dictionary ds) w = Some r /\ 1 <= r /\
                data ds !! i = Some r) /\
     (w ∉ top -> data ds !! i = Some 0)) /\
  count ds !! 0%nat =
    Some ("UNK"%string, len (filter (fun w => w ∉ top) words)).
Proof.
  intros ds top. subst ds. rewrite build_dataset_unfold. cbn [data count dictionary].
  split.
  { subst top. split; [apply top_words_NoDup|].
    split; [apply top_words_input|].
    split; [apply length_top_words|].
    split; [intros w w'; apply top_words_before_rest|].
    intros j k w w'. apply top_words_order. }
  split.
  { intros Hunk k w Hk.
    rewrite (dict_no_collision words n_words Hunk). fold top.
    cbn [dict_get]. rewrite decide_False.
    - rewrite (dict_get_zip_ranks top 1 k w); [f_equal; lia| |done].
      apply top_words_NoDup.
    - intros <-. apply Hunk. by apply list_elem_of_lookup_2 in Hk. }
  split; [by rewrite length_fmap|]. split.
  - intros i w Hw. rewrite list_lookup_fmap, Hw. csimpl. split.
    + intros Hin. destruct (rank_top words n_words w Hin) as (r & Hr & Hpos).
      exists r. split; [done|]. split; [done|].
      unfold rank_of. by rewrite Hr.
    + intros Hout. by rewrite (rank_other words n_words w Hout).
  - csimpl. do 3 f_equal. apply list_filter_iff. intros w.
    apply rank_zero_iff.
Qed.

(** *** The two mappings *)

(** When ["UNK"] is not itself one of the [n_words - 1] most common
    input words, the dictionary and the reversed dictionary are inverse
    to each other, ["UNK"] has rank 0 and rank 0 maps back to ["UNK"]. *)
Theorem vocabulary_round_trip words n_words :
  "UNK"%string ∉ top_words words n_words ->
  let ds := build_dataset words n_words in
  (forall w r, dict_get (dictionary ds) w = Some r ->
               dict_get (reversed_dictionary ds) r = Some w) /\
  (forall r w, dict_get (reversed_dictionary ds) r = Some w ->
               dict_get (dictionary ds) w = Some r) /\
  dict_get (dictionary ds) "UNK"%string = Some 0 /\
  dict_get (reversed_dictionary ds) 0 = Some "UNK"%string.
Proof.
  intros Hunk ds. subst ds. rewrite build_dataset_unfold.
  cbn [dictionary reversed_dictionary].
  pose proof (dict_no_collision words n_words Hunk) as Hd.
  pose proof (top_words_NoDup words n_words) as Hnd.
  set (top := top_words words n_words) in *.
  set (d := assign_ranks _) in *.
  assert (Hkeys : keys d = "UNK"%string :: top).
  { rewrite Hd. unfold keys. csimpl. f_equal. apply fst_zip.
    rewrite length_seqZ. unfold len. lia. }
  assert (Hvalues : values d = 0 :: seqZ 1 (len top)).
  { rewrite Hd. unfold values. csimpl. f_equal. apply snd_zip.
    rewrite length_seqZ. unfold len. lia. }
  assert (Hndv : NoDup (values d)).
  { rewrite Hvalues. apply NoDup_cons. split; [|apply NoDup_seqZ].
    rewrite elem_of_seqZ. lia. }
  assert (Hndk : NoDup (keys d)).
  { rewrite Hkeys. by apply NoDup_cons. }
  destruct (zip_values_keys_swap d) as (Hv' & Hk' & Hzip).
  rewrite dict_of_NoDup by (by rewrite Hk').
  split; [|split; [|split]].
  - intros w r. by apply dict_get_swap.
  - intros r w Hr. rewrite <- Hzip. apply dict_get_swap; [by rewrite Hv'|done].
  - by rewrite Hd.
  - by rewrite Hvalues, Hkeys.
Qed.

Lemma vocabulary_round_trip_witness :
  let ds := build_dataset toy_words 3 in
  (forall w r, dict_get (dictionary ds) w = Some r ->
               dict_get (reversed_dictionary ds) r = Some w) /\
  (forall r w, dict_get (reversed_dictionary ds) r = Some w ->
               dict_get (dictionary ds) w = Some r) /\
  dict_get (dictionary ds) "UNK"%string = Some 0 /\
  dict_get (reversed_dictionary ds) 0 = Some "UNK"%string.
Proof.
  apply (vocabulary_round_trip toy_words 3).
  change (top_words toy_words 3) with ["b"; "a"]%string.
  rewrite !not_elem_of_cons.
  split; [discriminate|]. split; [discriminate|]. apply not_elem_of_nil.
Defined.

(** C6 fails when the sentinel word is an input token.  On the tokens
    ["UNK"; "a"] with room for both, the loop over [count] meets ["UNK"]
    twice: it gets rank 0, then rank 1 without the dictionary growing,
    and ["a"] gets rank 1 as well.  Rank 1 maps back to ["a"], not to
    ["UNK"], and rank 0 maps back to nothing. *)
Theorem unk_token_breaks_round_trip :
  dictionary (build_dataset unk_words 3) = [("UNK", 1); ("a", 1)]%string /\
  reversed_dictionary (build_dataset unk_words 3) = [(1, "a"%string)] /\
  dict_get (dictionary (build_dataset unk_words 3)) "UNK"%string = Some 1 /\
  dict_get (reversed_dictionary (build_dataset unk_words 3)) 1 = Some "a"%string /\
  dict_get (reversed_dictionary (build_dataset unk_words 3)) 0 = None.
Proof. vm_compute. done. Qed.

(** *** The empty input *)

(** C8: [build_dataset] reads no global and draws nothing at random; it
    is a total function of its two arguments, so it has no failure mode
    and two runs on one input agree.  On the empty token sequence it
    returns the empty corpus and a vocabulary that holds the sentinel
    alone, with count 0, whatever the vocabulary size asked for. *)
Theorem build_dataset_empty n_words :
  build_dataset [] n_words =
    Dataset [] [("UNK"%string, 0)] [("UNK"%string, 0)] [(0, "UNK"%string)].
Proof.
  unfold build_dataset, most_common, Counter. csimpl. by rewrite take_nil.
Qed.

End VocabFacts.

(** ** More about the sampler *)

Module SamplerMore.

Import Py PyFacts Sampler SamplerFacts.
Local Open Scope Z_scope.

(** *** The cells of a returned batch *)

(** The group a cell belongs to, for a batch size that is a multiple of
    the group size. *)
Lemma cell_group bs ns (q : nat) :
  0 < ns -> bs mod ns = 0 -> Z.of_nat q < bs ->
  0 <= Z.of_nat q / ns < Z.max 0 (bs / ns) /\
  0 <= Z.of_nat q mod ns < ns /\
  Z.of_nat q = Z.of_nat q / ns * ns + Z.of_nat q mod ns.
Proof.
  intros Hns Hmod Hq.
  pose proof (Z.div_mod bs ns ltac:(lia)) as Hdm. rewrite Hmod in Hdm.
  pose proof (Z.div_mod (Z.of_nat q) ns ltac:(lia)) as Hpd.
  pose proof (Z.mod_pos_bound (Z.of_nat q) ns Hns) as Hpm.
  pose proof (Z.div_pos (Z.of_nat q) ns ltac:(lia) Hns) as Hpq.
  split; [|split; [done|lia]].
  split; [done|]. apply Z.max_lt_iff. right.
  apply Z.div_lt_upper_bound; [done|]. nia.
Qed.

Lemma lookup_window data sw s (k : Z) x :
  0 <= s -> 0 <= sw -> 0 <= k ->
  window_at data sw s !! Z.to_nat k = Some x ->
  k < span sw /\ data !! Z.to_nat (s + k) = Some x.
Proof.
  intros Hs Hsw Hk. unfold window_at.
  rewrite lookup_slice by (unfold span; lia).
  destruct (decide (s + Z.of_nat (Z.to_nat k) < s + span sw)) as [Hlt|]; [|done].
  intros Hx. split; [lia|]. rewrite <- Hx. f_equal; lia.
Qed.

Lemma batch_cell data rand bs ns sw g b lb g' (q : nat) :
  0 < ns -> 0 <= data_index g ->
  generate_batch data rand bs ns sw g = (Ret (b, lb), g') ->
  Z.of_nat q < bs ->
  exists cv xv d,
    data !! Z.to_nat (first_start data sw g + Z.of_nat q / ns + sw) = Some cv /\
    b !! q = Some (Some cv) /\
    d <> 0 /\ - sw <= d <= sw /\
    data !! Z.to_nat (first_start data sw g + Z.of_nat q / ns + sw + d) = Some xv /\
    lb !! q = Some (Some xv).
Proof.
  intros Hns Hdi Hrun Hq.
  apply generate_batch_Ret in Hrun as (l & g1 & Hgroups & -> & -> & _ & _).
  apply generate_groups_Ret in Hgroups; [|done].
  destruct Hgroups as (_ & Hmod & _ & _ & Hsw & _ & _ & _ & _ & _ & _ & _ & _ & H).
  destruct (cell_group bs ns q Hns Hmod Hq) as (Hi & Hj & Hqe).
  pose proof (first_start_nonneg data sw g Hdi) as Hstart.
  destruct (H _ Hi) as (c & ps & Hc & Hlen & _ & Hps & Hcells).
  destruct (lookup_lt_is_Some_2 ps (Z.to_nat (Z.of_nat q mod ns))) as [p Hp];
    [unfold len in Hlen; lia|].
  destruct (Hcells _ _ Hp) as (Hbc & x & Hx & Hlx).
  replace (Z.to_nat (Z.of_nat q / ns * ns +
             Z.of_nat (Z.to_nat (Z.of_nat q mod ns)))) with q in Hbc, Hlx by lia.
  apply list_elem_of_lookup_2, Hps in Hp. unfold span in Hp.
  apply lookup_window in Hc as [_ Hc]; try lia.
  apply lookup_window in Hx as [_ Hx]; try lia.
  exists c, x, (p - sw). split; [|split; [done|]].
  { rewrite <- Hc. f_equal; lia. }
  split; [lia|]. split; [lia|]. split; [|done].
  rewrite <- Hx. f_equal; lia.
Qed.

(** X1: in a batch returned over a corpus whose items fit the [int32]
    cells, for a positive group size, cell [q] holds the corpus item at
    the start of the call plus [skip_window] plus [q // num_skips] as
    its center, and as its context a corpus item at most [skip_window]
    positions away from the center, never the center's own position. *)
Theorem batch_cells_from_corpus data rand bs ns sw g b lb g' (q : nat) :
  int32_corpus data ->
  0 < ns -> 0 <= data_index g ->
  generate_batch data rand bs ns sw g = (Ret (b, lb), g') ->
  Z.of_nat q < bs ->
  exists cv xv d,
    data !! Z.to_nat (first_start data sw g + Z.of_nat q / ns + sw) = Some cv /\
    b !! q = Some (Some cv) /\
    d <> 0 /\ - sw <= d <= sw /\
    data !! Z.to_nat (first_start data sw g + Z.of_nat q / ns + sw + d) = Some xv /\
    lb !! q = Some (Some xv).
Proof. intros _. apply batch_cell. Qed.

Lemma batch_cells_from_corpus_witness :
  exists cv xv d,
    toy_corpus !! Z.to_nat (first_start toy_corpus 1 initial + Z.of_nat 5 / 2 + 1)
      = Some cv /\
    [Some 2; Some 2; Some 2; Some 2; Some 0; Some 0; Some 5; Some 5] !! 5%nat
      = Some (Some cv) /\
    d <> 0 /\ - 1 <= d <= 1 /\
    toy_corpus !! Z.to_nat (first_start toy_corpus 1 initial + Z.of_nat 5 / 2 + 1 + d)
      = Some xv /\
    [Some 5; Some 2; Some 2; Some 0; Some 2; Some 5; Some 0; Some 2] !! 5%nat
      = Some (Some xv).
Proof.
  apply (batch_cells_from_corpus toy_corpus draws 8 2 1 initial _ _
           (Globals 4 8 [0; 1; 2; 3; 4; 5; 6]) 5).
  - reflexivity.
  - lia.
  - simpl. lia.
  - vm_compute. reflexivity.
  - simpl. lia.
Defined.

(** X2: when [num_skips] is [2 * skip_window], every group of a batch
    returned over a corpus whose items fit the [int32] cells pairs its
    center with every other item of its window: for each offset [d]
    with [1 <= |d| <= skip_window] one cell of the group holds the corpus
    item [d] positions from the center as its context. *)
Theorem full_groups_cover_window data rand bs ns sw g b lb g' i d :
  int32_corpus data ->
  ns = 2 * sw -> 0 <= data_index g ->
  generate_batch data rand bs ns sw g = (Ret (b, lb), g') ->
  0 <= i < bs / ns ->
  d <> 0 -> - sw <= d <= sw ->
  exists (j : nat) xv,
    Z.of_nat j < ns /\
    data !! Z.to_nat (first_start data sw g + i + sw + d) = Some xv /\
    lb !! Z.to_nat (i * ns + Z.of_nat j) = Some (Some xv).
Proof.
  intros _ Hfull Hdi Hrun Hi Hd0 Hd.
  apply generate_batch_Ret in Hrun as (l & g1 & Hgroups & -> & -> & _ & _).
  apply generate_groups_Ret in Hgroups; [|done].
  destruct Hgroups as (_ & _ & _ & _ & Hsw & _ & _ & _ & _ & _ & _ & _ & _ & H).
  pose proof (first_start_nonneg data sw g Hdi) as Hstart.
  destruct (H i ltac:(lia)) as (c & ps & _ & Hlen & Hnd & Hps & Hcells).
  assert (Hperm : ps ≡ₚ filter (fun w => w <> sw) (range (span sw))).
  { apply submseteq_length_Permutation.
    - apply NoDup_submseteq; [done|].
      intros p Hp. by apply elem_of_context_words, Hps.
    - pose proof (length_context_words sw Hsw) as Hcw.
      unfold len in *. lia. }
  assert (Hin : sw + d ∈ ps).
  { rewrite Hperm. apply elem_of_context_words. unfold span. lia. }
  apply list_elem_of_lookup in Hin as [j Hj].
  pose proof (lookup_lt_Some _ _ _ Hj) as Hlt.
  destruct (Hcells _ _ Hj) as (_ & x & Hx & Hlx).
  apply lookup_window in Hx as [_ Hx]; try lia.
  exists j, x. split; [unfold len in Hlen; lia|]. split; [|done].
  rewrite <- Hx. f_equal; lia.
Qed.

Lemma full_groups_cover_window_witness :
  exists (j : nat) xv,
    Z.of_nat j < 2 /\
    toy_corpus !! Z.to_nat (first_start toy_corpus 1 initial + 2 + 1 + -1) = Some xv /\
    [Some 5; Some 2; Some 2; Some 0; Some 2; Some 5; Some 0; Some 2]
      !! Z.to_nat (2 * 2 + Z.of_nat j) = Some (Some xv).
Proof.
  apply (full_groups_cover_window toy_corpus draws 8 2 1 initial
           [Some 2; Some 2; Some 2; Some 2; Some 0; Some 0; Some 5; Some 5] _
           (Globals 4 8 [0; 1; 2; 3; 4; 5; 6]) 2 (-1)).
  - reflexivity.
  - reflexivity.
  - simpl. lia.
  - vm_compute. reflexivity.
  - vm_compute. split; [discriminate|reflexivity].
  - discriminate.
  - lia.
Defined.

(** *** Calls that return *)

Lemma returned_cursor data rand bs ns sw g b lb g' :
  0 <= data_index g ->
  generate_batch data rand bs ns sw g = (Ret (b, lb), g') ->
  data_index g' = first_start data sw g + Z.max 0 (bs / ns).
Proof.
  intros Hdi Hrun.
  apply generate_batch_Ret in Hrun as (l & g1 & Hgroups & _ & _ & HN & ->).
  apply generate_groups_Ret in Hgroups; [|done].
  destruct Hgroups
    as (_ & _ & _ & _ & Hsw & _ & Hdi1 & Hle & _ & _ & _ & _ & _ & _).
  pose proof (first_start_nonneg data sw g Hdi) as Hstart.
  pose proof (len_nonneg data) as HNpos.
  set (start := first_start data sw g) in *.
  set (G := Z.max 0 (bs / ns)) in *.
  cbn [set_data_index data_index].
  assert (Hfit : start + G + span sw <= len data \/ (G = 0 /\ start = 0)).
  { destruct (Z.lt_trichotomy 0 G) as [HG|[HG|HG]]; [left; lia| |lia].
    subst start. unfold first_start in *.
    destruct (data_index g + span sw >? len data) eqn:E; [by right|left; lia]. }
  replace (data_index g1 + len data - span sw)
    with (start + G + 1 * len data) by lia.
  rewrite Z.mod_add by done. apply Z.mod_small. unfold span in *. lia.
Qed.

(** X3: a call with a positive group size that divides the batch size
    and is at most [2 * skip_window], from a cursor inside the corpus,
    returns when the corpus holds a full window from the start of the
    call and one more item for every group, for corpus items that fit
    the [int32] cells and a window of at most [setsize] context
    positions (where [random.sample] never redraws); the batch has
    [batch_size] centers and contexts and the cursor ends
    [batch_size // num_skips] positions after the start of the call. *)
Theorem valid_call_returns data rand bs ns sw g :
  0 < ns -> 0 <= bs -> bs mod ns = 0 -> ns <= 2 * sw ->
  2 * sw <= setsize ns -> int32_corpus data ->
  0 <= data_index g ->
  first_start data sw g + span sw + bs / ns <= len data ->
  exists b lb g',
    generate_batch data rand bs ns sw g = (Ret (b, lb), g') /\
    len b = bs /\ len lb = bs /\
    data_index g' = first_start data sw g + bs / ns.
Proof.
  intros Hns Hbs Hmod Hle Hpool Hint Hdi Hfit.
  destruct (generate_batch_returns data rand bs ns sw g) as (b & lb & g' & Hrun);
    try done.
  exists b, lb, g'. split; [done|].
  destruct (generate_batch_length _ _ _ _ _ _ _ _ _ Hdi Hrun) as [Hb Hlb].
  split; [done|]. split; [done|].
  rewrite (returned_cursor _ _ _ _ _ _ _ _ _ Hdi Hrun).
  pose proof (Z.div_pos bs ns Hbs Hns). lia.
Qed.

Lemma valid_call_returns_witness :
  exists b lb g',
    generate_batch toy_corpus draws 8 2 1 initial = (Ret (b, lb), g') /\
    len b = 8 /\ len lb = 8 /\
    data_index g' = first_start toy_corpus 1 initial + 8 / 2.
Proof.
  apply (valid_call_returns toy_corpus draws 8 2 1 initial);
    vm_compute; (reflexivity || discriminate).
Defined.

(** X4: a call with valid parameters on a corpus that holds a full
    window raises [TypeError] when the groups need more slides than the
    corpus has items left after the first window, and it leaves the
    cursor at the corpus length (for corpus items that fit the [int32]
    cells and a window of at most [setsize] context positions). *)
Theorem call_raises_at_corpus_end data rand bs ns sw g :
  0 < ns -> 0 <= bs -> bs mod ns = 0 -> ns <= 2 * sw ->
  2 * sw <= setsize ns -> int32_corpus data ->
  0 <= data_index g -> span sw <= len data ->
  len data < first_start data sw g + span sw + bs / ns ->
  exists g', generate_batch data rand bs ns sw g = (Raise TypeError, g') /\
             data_index g' = len data.
Proof. apply generate_batch_raises_at_wrap. Qed.

Lemma call_raises_at_corpus_end_witness :
  exists g', generate_batch short_corpus draws 4 2 1 initial = (Raise TypeError, g') /\
             data_index g' = len short_corpus.
Proof.
  apply (call_raises_at_corpus_end short_corpus draws 4 2 1 initial);
    vm_compute; (reflexivity || discriminate).
Defined.

(** *** Calls that raise *)

Lemma pair_body_outcome ns sw i jc l g :
  Forall (fun v => is_int32 v = true) (buffer l) ->
  exists o, pair_body ns sw i jc l g = (o, g) /\
            (o = Raise IndexError \/ exists l', o = Ret l' /\ buffer l' = buffer l).
Proof.
  intros Hint. rewrite Forall_forall in Hint.
  destruct jc as [j p]. unfold pair_body, ndarray_setitem, bind, lift, ret, raise.
  destruct (getitem (buffer l) sw) as [c|] eqn:Hc; [|eauto].
  rewrite (Hint c (getitem_elem_of _ _ _ Hc)).
  destruct (setitem (batch l) (i * ns + j) _); [|eauto].
  destruct (getitem (buffer l) p) as [x|] eqn:Hx; [|eauto].
  rewrite (Hint x (getitem_elem_of _ _ _ Hx)).
  destruct (setitem (labels l) (i * ns + j) _); [|eauto].
  eexists. split; [reflexivity|]. right. eexists. split; reflexivity.
Qed.

Lemma pairs_outcome ns sw i pairs : forall l g,
  Forall (fun v => is_int32 v = true) (buffer l) ->
  exists o, for_each pairs (pair_body ns sw i) l g = (o, g) /\
            (o = Raise IndexError \/ exists l', o = Ret l').
Proof.
  induction pairs as [|jc pairs IH]; intros l g Hint.
  - exists (Ret l). split; [done|]. right. by exists l.
  - cbn [for_each]. unfold bind.
    destruct (pair_body_outcome ns sw i jc l g Hint)
      as (o & -> & [->|(l' & -> & Hbuf)]).
    + exists (Raise IndexError). split; [done|by left].
    + apply IH. by rewrite Hbuf.
Qed.

(** A group that starts with the cursor beyond the corpus end. *)
Lemma group_beyond_end data rand ns sw i l g :
  0 <= sw -> 0 <= ns <= 2 * sw -> 2 * sw <= setsize ns ->
  Forall (fun v => is_int32 v = true) (buffer l) ->
  len data < data_index g ->
  exists g', group_body data rand ns sw i l g = (Raise IndexError, g') /\
             data_index g' = data_index g.
Proof.
  intros Hsw Hns Hpool Hint Hdi.
  pose proof (length_context_words sw Hsw) as Hcw.
  destruct (random_sample_pool rand
              (filter (fun w => w <> sw) (range (span sw))) ns g)
    as [ws Hws]; [lia|lia|].
  unfold group_body. rewrite (bind_step _ _ _ _ _ Hws).
  set (g1 := Globals _ _ _) in *.
  destruct (pairs_outcome ns sw i (enumerate ws) l g1 Hint)
    as (o & Ho & [->|[l' ->]]).
  - exists g1. split; [by apply bind_Raise|done].
  - rewrite (bind_step _ _ _ _ _ Ho).
    unfold slide, bind at 1, get_data_index. cbn [data_index g1].
    destruct (data_index g =? len data) eqn:E; [lia|].
    unfold data_getitem, bind, log_reads, lift, getitem, norm_index.
    pose proof (len_nonneg data).
    destruct (0 <=? data_index g) eqn:E0; [|lia].
    destruct (data_index g <? len data) eqn:E1; [lia|].
    destruct (- len data <=? data_index g) eqn:E2; [|lia].
    destruct (data_index g <? 0) eqn:E3; [lia|].
    simpl. eexists. split; [reflexivity|done].
Qed.

(** X5: on a corpus shorter than the window, a call with valid
    parameters and a positive batch size is not rejected up front: it
    moves the cursor to [span] and raises [IndexError] (for corpus items
    that fit the [int32] cells and a window of at most [setsize] context
    positions). *)
Theorem short_corpus_raises_IndexError data rand bs ns sw g :
  0 < ns -> 0 < bs -> bs mod ns = 0 -> ns <= 2 * sw ->
  2 * sw <= setsize ns -> int32_corpus data ->
  0 <= data_index g -> len data < span sw ->
  exists g', generate_batch data rand bs ns sw g = (Raise IndexError, g') /\
             data_index g' = span sw.
Proof.
  intros Hns Hbs Hmod Hle Hpool Hint Hdi Hshort.
  assert (Hsw : 0 <= sw) by lia.
  pose proof (generate_groups_prologue data rand bs ns sw g
                ltac:(lia) Hmod Hle ltac:(lia) Hsw Hdi) as Hpro.
  cbv zeta in Hpro.
  assert (Hstart : first_start data sw g = 0).
  { unfold first_start. destruct (data_index g + span sw >? len data) eqn:E; lia. }
  rewrite Hstart in Hpro.
  assert (HG : 0 < bs / ns).
  { pose proof (Z.div_mod bs ns ltac:(lia)) as Hdm. rewrite Hmod in Hdm. nia. }
  unfold range in Hpro. rewrite seqZ_cons in Hpro by done.
  cbn [for_each] in Hpro.
  set (l0 := Locals _ _ _) in Hpro. set (g0 := Globals _ _ _) in Hpro.
  destruct (group_beyond_end data rand ns sw 0 l0 g0) as (g' & Hraise & Hg');
    [done|lia|done|by apply int32_window|subst g0; cbn [data_index]; lia|].
  exists g'. split.
  - unfold generate_batch. apply bind_Raise. rewrite Hpro.
    by apply bind_Raise.
  - rewrite Hg'. subst g0. cbn [data_index]. lia.
Qed.

Lemma short_corpus_raises_IndexError_witness :
  exists g', generate_batch tiny_corpus draws 2 2 1 initial = (Raise IndexError, g') /\
             data_index g' = span 1.
Proof.
  apply (short_corpus_raises_IndexError tiny_corpus draws 2 2 1 initial);
    vm_compute; (reflexivity || discriminate).
Defined.

(** X6: on the empty corpus no call returns, whatever its parameters
    and the state it starts from. *)
Theorem empty_corpus_never_returns rand bs ns sw g r g' :
  generate_batch [] rand bs ns sw g <> (Ret r, g').
Proof.
  destruct r as [b lb]. intros Hrun.
  apply generate_batch_Ret in Hrun as (_ & _ & _ & _ & _ & HN & _).
  by apply HN.
Qed.

(** X7: a negative [batch_size] or a negative [skip_window] that passes
    the two asserts raises [ValueError] (from the array or from the
    deque) before the cursor is touched. *)
Theorem negative_sizes_raise_ValueError data rand bs ns sw g :
  ns <> 0 -> bs mod ns = 0 -> ns <= 2 * sw ->
  bs < 0 \/ sw < 0 ->
  generate_batch data rand bs ns sw g = (Raise ValueError, g).
Proof.
  intros Hns Hmod Hle Hneg.
  assert (E0 : (ns =? 0) = false) by lia.
  assert (E3 : (ns <=? 2 * sw) = true) by lia.
  assert (E4 : (bs mod ns =? 0) = true) by lia.
  unfold generate_batch, generate_groups, py_mod, np_ndarray, deque_new,
    py_assert, bind, ret, raise.
  rewrite E0. cbv beta iota. rewrite E4. cbv beta iota.
  rewrite E3. cbv beta iota.
  destruct (bs <? 0) eqn:E1; [done|]. cbv beta iota.
  destruct (span sw <? 0) eqn:E2; [done|]. unfold span in E2. lia.
Qed.

Lemma negative_sizes_raise_ValueError_witness :
  generate_batch toy_corpus draws (-4) 2 1 initial = (Raise ValueError, initial).
Proof.
  apply (negative_sizes_raise_ValueError toy_corpus draws (-4) 2 1 initial).
  - discriminate.
  - reflexivity.
  - vm_compute. discriminate.
  - left. reflexivity.
Defined.

(** X8: the asserts let a negative [num_skips] through.  With a
    non-negative [batch_size] that it divides, the call runs no group,
    draws nothing, and returns two arrays of [batch_size] cells none of
    which it has written; the cursor is left at the start of the call. *)
Theorem negative_num_skips_writes_nothing data rand bs ns sw g :
  ns < 0 -> 0 <= bs -> bs mod ns = 0 -> 0 <= sw ->
  0 <= data_index g -> 0 < len data ->
  generate_batch data rand bs ns sw g =
    (Ret (replicate (Z.to_nat bs) None, replicate (Z.to_nat bs) None),
     Globals (first_start data sw g) (rng_calls g)
       (reads g ++ seqZ (first_start data sw g) (span sw))).
Proof.
  intros Hns Hbs Hmod Hsw Hdi HN.
  pose proof (generate_groups_prologue data rand bs ns sw g
                ltac:(lia) Hmod ltac:(lia) Hbs Hsw Hdi) as Hpro.
  cbv zeta in Hpro.
  pose proof (floordiv_nonneg_neg bs ns Hbs Hns) as HG.
  unfold range in Hpro. rewrite seqZ_nil in Hpro by done.
  cbn [for_each] in Hpro. unfold ret in Hpro.
  pose proof (first_start_nonneg data sw g Hdi) as Hstart.
  assert (Hlt : first_start data sw g < len data).
  { unfold first_start, span in *.
    destruct (data_index g + (2 * sw + 1) >? len data) eqn:E; lia. }
  unfold generate_batch. rewrite (bind_step _ _ _ _ _ Hpro).
  unfold backtrack, bind, get_data_index, py_mod, put_data_index, ret.
  destruct (len data =? 0) eqn:E; [lia|].
  cbn [data_index rng_calls reads batch labels].
  replace (first_start data sw g + span sw + len data - span sw)
    with (first_start data sw g + 1 * len data) by lia.
  rewrite Z.mod_add by lia. rewrite Z.mod_small by lia. done.
Qed.

Lemma negative_num_skips_writes_nothing_witness :
  generate_batch toy_corpus draws 4 (-2) 1 initial =
    (Ret (replicate (Z.to_nat 4) None, replicate (Z.to_nat 4) None),
     Globals (first_start toy_corpus 1 initial) (rng_calls initial)
       (reads initial ++ seqZ (first_start toy_corpus 1 initial) (span 1))).
Proof.
  apply (negative_num_skips_writes_nothing toy_corpus draws 4 (-2) 1 initial);
    vm_compute; (reflexivity || discriminate).
Defined.

(** *** Successive calls with the same parameters *)

Lemma first_start_fits data sw g :
  data_index g + span sw <= len data -> first_start data sw g = data_index g.
Proof.
  intros H. unfold first_start.
  destruct (data_index g + span sw >? len data) eqn:E; [lia|done].
Qed.

Lemma walk_loop data rand bs ns sw (k : nat) : forall outs0 g,
  0 < ns -> 0 <= bs -> bs mod ns = 0 -> ns <= 2 * sw ->
  2 * sw <= setsize ns -> int32_corpus data ->
  0 <= data_index g ->
  data_index g + Z.of_nat k * (bs / ns) + span sw <= len data ->
  exists outs g',
    for_each (replicate k (bs, ns, sw))
      (fun '(batch_size, num_skips, skip_window) outs =>
         r <- generate_batch data rand batch_size num_skips skip_window ;;
         ret (outs ++ [r])) outs0 g = (Ret (outs0 ++ outs), g') /\
    length outs = k /\
    data_index g' = data_index g + Z.of_nat k * (bs / ns) /\
    forall (j q : nat) b lb,
      outs !! j = Some (b, lb) -> Z.of_nat q < bs ->
      exists cv,
        data !! Z.to_nat (data_index g + Z.of_nat j * (bs / ns)
                          + Z.of_nat q / ns + sw) = Some cv /\
        b !! q = Some (Some cv).
Proof.
  induction k as [|k IH]; intros outs0 g Hns Hbs Hmod Hle Hpool Hint Hdi Hfit.
  - exists [], g. cbn [replicate for_each]. unfold ret.
    rewrite app_nil_r. repeat split; try done; lia.
  - pose proof (Z.div_pos bs ns Hbs Hns) as HG.
    assert (Hstart : first_start data sw g = data_index g)
      by (apply first_start_fits; nia).
    destruct (generate_batch_returns data rand bs ns sw g)
      as (b & lb & g1 & Hcall); try done; [rewrite Hstart; nia|].
    pose proof (returned_cursor _ _ _ _ _ _ _ _ _ Hdi Hcall) as Hdi1.
    rewrite Hstart, Z.max_r in Hdi1 by done.
    destruct (IH (outs0 ++ [(b, lb)]) g1) as (outs & g' & Hrun & Hlen & Hdi' & Hcells);
      try done; try lia.
    exists ((b, lb) :: outs), g'. split; [|split; [|split]].
    + cbn [replicate for_each]. unfold bind at 1.
      unfold bind at 1. rewrite Hcall. unfold ret at 1.
      rewrite Hrun. by rewrite <- app_assoc.
    + cbn [length]. lia.
    + lia.
    + intros [|j] q b' lb' Hj Hq.
      * injection Hj as <- <-.
        destruct (batch_cell _ _ _ _ _ _ _ _ _ q Hns Hdi Hcall Hq)
          as (cv & _ & _ & Hcv & Hb & _).
        exists cv. split; [|done]. rewrite <- Hcv, Hstart. f_equal; lia.
      * destruct (Hcells j q b' lb' Hj Hq) as (cv & Hcv & Hb).
        exists cv. split; [|done]. rewrite <- Hcv, Hdi1. f_equal; lia.
Qed.

(** X9: successive calls with the same valid parameters walk the
    corpus without a gap (for corpus items that fit the [int32] cells
    and a window of at most [setsize] context positions).  From a cursor
    inside the corpus, as long as the corpus holds a full window after
    all the groups of [k] calls, the [k] calls all return, the cursor
    ends [k] times
    [batch_size // num_skips] positions further, and cell [q] of the
    [j]-th batch has as its center the corpus item at the first cursor
    plus [skip_window] plus [j * (batch_size // num_skips) +
    q // num_skips]. *)
Theorem successive_calls_walk_corpus data rand bs ns sw (k : nat) g :
  0 < ns -> 0 <= bs -> bs mod ns = 0 -> ns <= 2 * sw ->
  2 * sw <= setsize ns -> int32_corpus data ->
  0 <= data_index g ->
  data_index g + Z.of_nat k * (bs / ns) + span sw <= len data ->
  exists outs g',
    run_calls data rand (replicate k (bs, ns, sw)) g = (Ret outs, g') /\
    length outs = k /\
    data_index g' = data_index g + Z.of_nat k * (bs / ns) /\
    forall (j q : nat) b lb,
      outs !! j = Some (b, lb) -> Z.of_nat q < bs ->
      exists cv,
        data !! Z.to_nat (data_index g + Z.of_nat j * (bs / ns)
                          + Z.of_nat q / ns + sw) = Some cv /\
        b !! q = Some (Some cv).
Proof.
  intros Hns Hbs Hmod Hle Hpool Hint Hdi Hfit.
  destruct (walk_loop data rand bs ns sw k [] g) as (outs & g' & Hrun & H);
    try done.
  exists outs, g'. split; [|done]. exact Hrun.
Qed.

Lemma successive_calls_walk_corpus_witness :
  exists outs g',
    run_calls toy_corpus draws (replicate 3 (4, 2, 1)) initial = (Ret outs, g') /\
    length outs = 3%nat /\
    data_index g' = data_index initial + Z.of_nat 3 * (4 / 2) /\
    forall (j q : nat) b lb,
      outs !! j = Some (b, lb) -> Z.of_nat q < 4 ->
      exists cv,
        toy_corpus !! Z.to_nat (data_index initial + Z.of_nat j * (4 / 2)
                                + Z.of_nat q / 2 + 1) = Some cv /\
        b !! q = Some (Some cv).
Proof.
  apply (successive_calls_walk_corpus toy_corpus draws 4 2 1 3 initial);
    vm_compute; (reflexivity || discriminate).
Defined.

End SamplerMore.

(** ** More about the vocabulary builder *)

Module VocabMore.

Import Py PyFacts Vocab VocabFacts Glue.
Local Open Scope Z_scope.

(** *** The count table *)

Lemma occurrences_pos w words : w ∈ words -> 0 < occurrences w words.
Proof.
  intros Hw. unfold occurrences, len.
  assert (Hin : w ∈ filter (fun x => x = w) words)
    by (by apply list_elem_of_filter).
  destruct (filter (fun x => x = w) words); [by apply elem_of_nil in Hin|].
  cbn [length]. lia.
Qed.

Lemma most_common_item words n w c :
  (w, c) ∈ most_common (Counter words) n ->
  c = occurrences w words /\ w ∈ words.
Proof.
  unfold most_common. intros Hin.
  apply elem_of_take in Hin as (i & Hi & _).
  apply list_elem_of_lookup_2 in Hi. rewrite sort_desc_perm in Hi.
  pose proof (dict_get_elem_of _ _ _ (Counter_NoDup words) Hi) as Hget.
  split.
  - rewrite <- Counter_count. unfold count_of. by rewrite Hget.
  - apply Counter_keys. by apply (list_elem_of_fmap_2 fst) in Hi.
Qed.

Lemma length_filter_cons_key (w : string) (ks words : list string) :
  w ∉ ks ->
  len (filter (fun x => x ∈ w :: ks) words) =
  occurrences w words + len (filter (fun x => x ∈ ks) words).
Proof.
  intros Hw. unfold occurrences, len.
  induction words as [|x words IH]; [done|].
  destruct (decide (x = w)) as [->|Hne].
  - rewrite (filter_cons_True (fun x => x ∈ w :: ks)) by left.
    rewrite (filter_cons_True (fun x => x = w)) by done.
    rewrite (filter_cons_False (fun x => x ∈ ks)) by done.
    cbn [length]. lia.
  - rewrite (filter_cons_False (fun x => x = w)) by done.
    destruct (decide (x ∈ ks)) as [Hin|Hout].
    + rewrite (filter_cons_True (fun x => x ∈ w :: ks)) by (by right).
      rewrite (filter_cons_True (fun x => x ∈ ks)) by done.
      cbn [length]. lia.
    + rewrite (filter_cons_False (fun x => x ∈ w :: ks)).
      2:{ intros [?|?]%elem_of_cons; done. }
      rewrite (filter_cons_False (fun x => x ∈ ks)) by done. lia.
Qed.

Lemma total_counts words (l : list (string * Z)) :
  NoDup (keys l) ->
  (forall w c, (w, c) ∈ l -> c = occurrences w words) ->
  total l = len (filter (fun x => x ∈ keys l) words).
Proof.
  unfold keys. induction l as [|[w c] l IH]; csimpl; intros Hnd Hc.
  - clear Hc. unfold len. induction words as [|x words IHw]; [done|].
    rewrite filter_cons_False; [exact IHw|]. apply not_elem_of_nil.
  - apply NoDup_cons in Hnd as [Hw Hnd].
    rewrite length_filter_cons_key by done.
    rewrite <- IH; [|done|intros w' c' Hin; apply Hc; by right].
    rewrite (Hc w c) by left. done.
Qed.

Lemma length_filter_split (P : string -> Prop) `{!forall x, Decision (P x)}
    (words : list string) :
  len (filter P words) + len (filter (fun x => ~ P x) words) = len words.
Proof.
  unfold len. rewrite <- Nat2Z.inj_add, <- length_app.
  by rewrite filter_app_complement.
Qed.

(** X10: the counts of the count table add up to the number of input
    tokens: the count at rank 0 and the counts of the words that kept a
    rank of their own leave no token out and count none twice. *)
Theorem counts_add_up words n_words :
  total (count (build_dataset words n_words)) = len words.
Proof.
  rewrite build_dataset_unfold. cbn [count total foldr snd].
  fold (total (most_common (Counter words) (n_words - 1))).
  rewrite (total_counts words).
  - fold (top_words words n_words).
    rewrite (list_filter_iff _ (fun w => ~ w ∈ top_words words n_words))
      by (intros w; apply rank_zero_iff).
    rewrite Z.add_comm. apply length_filter_split.
  - apply top_words_NoDup.
  - intros w c Hin. by apply most_common_item in Hin as [-> _].
Qed.

(** X11: after its first item the count table lists distinct input
    words, each with the number of its occurrences among the input
    tokens, in descending order of that number. *)
Theorem count_table_sound words n_words :
  let tail := drop 1 (count (build_dataset words n_words)) in
  NoDup (keys tail) /\
  StronglySorted by_count_desc tail /\
  forall w c, (w, c) ∈ tail -> w ∈ words /\ c = occurrences w words /\ 0 < c.
Proof.
  rewrite build_dataset_unfold. cbn [count drop]. split; [|split].
  - apply top_words_NoDup.
  - unfold most_common.
    pose proof (sort_desc_sorted (Counter words)) as Hs.
    rewrite <- (take_drop (Z.to_nat (n_words - 1))) in Hs.
    by apply StronglySorted_app_1_l in Hs.
  - intros w c Hin. apply most_common_item in Hin as [-> Hw].
    split; [done|]. split; [done|]. by apply occurrences_pos.
Qed.

(** *** The ranks *)

Lemma length_dict_set_le (d : list (string * Z)) k v :
  (length (dict_set d k v) <= S (length d))%nat.
Proof.
  induction d as [|[k' v'] d IH]; csimpl; [lia|].
  destruct (decide (k' = k)); csimpl; lia.
Qed.

(** The ranks the loop hands out lie between the size of the dictionary
    at its start and that size plus the number of items of the loop. *)
Lemma rank_fold_range (ws : list (string * Z)) : forall d w r,
  dict_get (foldl rank_step d ws) w = Some r ->
  dict_get d w = Some r \/ len d <= r < len d + len ws.
Proof.
  unfold len. induction ws as [|[w0 c0] ws IH]; intros d w r; csimpl.
  - by left.
  - unfold rank_step at 2. cbn [fst]. intros Hget.
    pose proof (length_dict_set_le d w0 (len d)) as Hle.
    pose proof (length_dict_set_ge d w0 (len d)) as Hge.
    apply IH in Hget as [Hget|Hr]; [|right; lia].
    destruct (decide (w0 = w)) as [->|Hne].
    + rewrite dict_get_set_eq in Hget. injection Hget as <-.
      right. unfold len. lia.
    + rewrite dict_get_set_ne in Hget by done. by left.
Qed.

Lemma rank_of_range words n_words w :
  0 <= rank_of (assign_ranks
                  (("UNK"%string, -1) :: most_common (Counter words) (n_words - 1))) w
    < 1 + len (most_common (Counter words) (n_words - 1)).
Proof.
  rewrite dict_fold. unfold rank_of.
  pose proof (len_nonneg (most_common (Counter words) (n_words - 1))).
  destruct (dict_get _ w) as [r|] eqn:E; csimpl; [|lia].
  apply rank_fold_range in E as [E|E].
  - csimpl in E. destruct (decide ("UNK"%string = w)); [|done].
    injection E as <-. lia.
  - unfold len in *. cbn [length] in E. lia.
Qed.

(** X12: every value of the encoded corpus is a rank between 0 and the
    size of the count table, and that table has at most [n_words] items
    (one item when [n_words] is below 1): with [n_words >= 1] every
    value of the corpus is below [n_words]. *)
Theorem corpus_values_in_range words n_words :
  let ds := build_dataset words n_words in
  Forall (fun v => 0 <= v < len (count ds)) (data ds) /\
  len (count ds) <= Z.max 1 n_words.
Proof.
  rewrite build_dataset_unfold. cbn [count data]. split.
  - apply Forall_fmap, Forall_forall. intros w _. unfold compose.
    pose proof (rank_of_range words n_words w) as H.
    unfold len in *. cbn [length]. lia.
  - unfold len, most_common. cbn [length]. rewrite length_take. lia.
Qed.

(** The builder without a collision, item by item. *)
Lemma built_tables words n_words :
  "UNK"%string ∉ top_words words n_words ->
  let ds := build_dataset words n_words in
  let top := top_words words n_words in
  keys (count ds) = "UNK"%string :: top /\
  dictionary ds = zip ("UNK"%string :: top) (seqZ 0 (1 + len top)) /\
  reversed_dictionary ds = zip (seqZ 0 (1 + len top)) ("UNK"%string :: top) /\
  NoDup ("UNK"%string :: top).
Proof.
  intros Hunk ds top. subst ds. rewrite build_dataset_unfold.
  cbn [count dictionary reversed_dictionary].
  pose proof (dict_no_collision words n_words Hunk) as Hd.
  pose proof (top_words_NoDup words n_words) as Hnd.
  fold top in Hd, Hnd, Hunk.
  pose proof (len_nonneg top) as Hlen.
  assert (Hseq : seqZ 0 (1 + len top) = 0 :: seqZ 1 (len top)).
  { rewrite seqZ_cons by lia. do 2 f_equal; lia. }
  set (d := assign_ranks _) in *.
  assert (Hkeys : keys d = "UNK"%string :: top).
  { rewrite Hd. unfold keys. csimpl. f_equal. apply fst_zip.
    rewrite length_seqZ. unfold len. lia. }
  assert (Hvalues : values d = 0 :: seqZ 1 (len top)).
  { rewrite Hd. unfold values. csimpl. f_equal. apply snd_zip.
    rewrite length_seqZ. unfold len. lia. }
  split; [done|]. split; [by rewrite Hd, Hseq|]. split.
  - rewrite dict_of_NoDup; [by rewrite Hvalues, Hkeys, Hseq|].
    destruct (zip_values_keys_swap d) as (_ & -> & _).
    rewrite Hvalues, <- Hseq. apply NoDup_seqZ.
  - by apply NoDup_cons.
Qed.

(** X13: when ["UNK"] is not itself among the most common input words,
    the rank of a word is its position in the count table: the item at
    position [k] is the word the dictionary sends to [k] and the
    reversed dictionary sends [k] back to. *)
Theorem ranks_follow_count_table words n_words (k : nat) w c :
  "UNK"%string ∉ top_words words n_words ->
  count (build_dataset words n_words) !! k = Some (w, c) ->
  dict_get (dictionary (build_dataset words n_words)) w = Some (Z.of_nat k) /\
  dict_get (reversed_dictionary (build_dataset words n_words)) (Z.of_nat k) = Some w.
Proof.
  intros Hunk Hk.
  destruct (built_tables words n_words Hunk) as (Hkeys & Hd & Hrd & Hnd).
  destruct (vocabulary_round_trip words n_words Hunk) as (Hfwd & _).
  assert (Hw : ("UNK"%string :: top_words words n_words) !! k = Some w).
  { rewrite <- Hkeys. unfold keys. by rewrite list_lookup_fmap, Hk. }
  pose proof (lookup_lt_Some _ _ _ Hw) as Hlt. cbn [length] in Hlt.
  assert (Hget : dict_get (dictionary (build_dataset words n_words)) w
                 = Some (Z.of_nat k)).
  { apply dict_get_elem_of.
    - rewrite Hd. unfold keys. rewrite fst_zip; [done|].
      rewrite length_seqZ. unfold len. cbn [length]. lia.
    - rewrite Hd. apply list_elem_of_lookup. exists k.
      rewrite lookup_zip_with, Hw. csimpl.
      rewrite lookup_seqZ_lt by (unfold len; cbn [length]; lia). csimpl.
      do 2 f_equal; lia. }
  split; [done|]. by apply Hfwd.
Qed.

Lemma ranks_follow_count_table_witness :
  dict_get (dictionary (build_dataset toy_words 3)) "a"%string = Some (Z.of_nat 2) /\
  dict_get (reversed_dictionary (build_dataset toy_words 3)) (Z.of_nat 2)
    = Some "a"%string.
Proof.
  apply (ranks_follow_count_table toy_words 3 2 "a"%string 2).
  - change (top_words toy_words 3) with ["b"; "a"]%string.
    rewrite !not_elem_of_cons.
    split; [discriminate|]. split; [discriminate|]. apply not_elem_of_nil.
  - reflexivity.
Defined.

Lemma decode_rank words n_words w :
  "UNK"%string ∉ top_words words n_words ->
  dict_get (reversed_dictionary (build_dataset words n_words))
    (rank_of (dictionary (build_dataset words n_words)) w)
  = Some (shown_word (top_words words n_words) w).
Proof.
  intros Hunk.
  destruct (vocabulary_round_trip words n_words Hunk) as (Hfwd & _ & _ & H0).
  unfold shown_word. rewrite build_dataset_unfold in *.
  cbn [dictionary reversed_dictionary] in *.
  destruct (decide (w ∈ top_words words n_words)) as [Hin|Hout].
  - destruct (rank_top words n_words w Hin) as (r & Hr & _).
    unfold rank_of. rewrite Hr. csimpl. by apply Hfwd.
  - by rewrite (rank_other words n_words w Hout).
Qed.

(** X14: when ["UNK"] is not itself among the most common input words,
    encoding and decoding a token gives the token back if it is one of
    those words and ["UNK"] otherwise: the reversed dictionary sends the
    [i]-th value of the corpus to the [i]-th input token or to ["UNK"]. *)
Theorem decode_after_encode words n_words (i : nat) w :
  "UNK"%string ∉ top_words words n_words ->
  words !! i = Some w ->
  exists r,
    data (build_dataset words n_words) !! i = Some r /\
    dict_get (reversed_dictionary (build_dataset words n_words)) r
      = Some (shown_word (top_words words n_words) w).
Proof.
  intros Hunk Hw.
  exists (rank_of (dictionary (build_dataset words n_words)) w).
  split; [|by apply decode_rank].
  rewrite build_dataset_unfold. cbn [data dictionary].
  by rewrite list_lookup_fmap, Hw.
Qed.

Lemma decode_after_encode_witness :
  exists r,
    data (build_dataset toy_words 3) !! 3%nat = Some r /\
    dict_get (reversed_dictionary (build_dataset toy_words 3)) r
      = Some (shown_word (top_words toy_words 3) "c"%string).
Proof.
  apply (decode_after_encode toy_words 3 3 "c"%string).
  - change (top_words toy_words 3) with ["b"; "a"]%string.
    rewrite !not_elem_of_cons.
    split; [discriminate|]. split; [discriminate|]. apply not_elem_of_nil.
  - reflexivity.
Defined.

(** X15: a token encoded with a rank of its own occurs at least as often
    among the input tokens as any token encoded as 0. *)
Theorem kept_words_more_frequent words n_words (i j : nat) w w' r :
  words !! i = Some w -> words !! j = Some w' ->
  data (build_dataset words n_words) !! i = Some r -> r <> 0 ->
  data (build_dataset words n_words) !! j = Some 0 ->
  occurrences w' words <= occurrences w words.
Proof.
  rewrite build_dataset_unfold. cbn [data].
  rewrite !list_lookup_fmap. intros Hw Hw'. rewrite Hw, Hw'. csimpl.
  intros [= <-] Hr [= H0].
  apply (top_words_most_frequent words n_words).
  - destruct (decide (w ∈ top_words words n_words)) as [|Hout]; [done|].
    by apply rank_other in Hout.
  - by apply list_elem_of_lookup_2 in Hw'.
  - by apply rank_zero_iff.
Qed.

Lemma kept_words_more_frequent_witness :
  occurrences "c"%string toy_words <= occurrences "a"%string toy_words.
Proof.
  apply (kept_words_more_frequent toy_words 3 1 3 "a"%string "c"%string 2);
    (reflexivity || discriminate).
Defined.

(** X16: with [n_words] at most 1 no word keeps a rank: every token is
    encoded as 0, the count table holds the sentinel with the number of
    input tokens, and the two dictionaries hold the sentinel alone. *)
Theorem no_room_for_words words n_words :
  n_words <= 1 ->
  build_dataset words n_words =
    Dataset (replicate (length words) 0) [("UNK"%string, len words)]
            [("UNK"%string, 0)] [(0, "UNK"%string)].
Proof.
  intros Hn. rewrite build_dataset_unfold.
  assert (Hmc : most_common (Counter words) (n_words - 1) = []).
  { unfold most_common. replace (Z.to_nat (n_words - 1)) with 0%nat by lia.
    apply take_0. }
  rewrite Hmc.
  change (assign_ranks [("UNK"%string, -1)]) with [("UNK"%string, 0)].
  assert (Hrank : forall w, rank_of [("UNK"%string, 0)] w = 0).
  { intros w. unfold rank_of. csimpl. by destruct (decide ("UNK"%string = w)). }
  f_equal.
  - clear Hmc. induction words as [|w words IH]; [done|].
    by rewrite fmap_cons, Hrank, IH.
  - do 3 f_equal. apply SamplerFacts.filter_all, Forall_forall.
    intros w _. apply Hrank.
Qed.

Lemma no_room_for_words_witness :
  build_dataset toy_words 1 =
    Dataset (replicate (length toy_words) 0) [("UNK"%string, len toy_words)]
            [("UNK"%string, 0)] [(0, "UNK"%string)].
Proof. apply (no_room_for_words toy_words 1). lia. Defined.

End VocabMore.

(** ** The builder, the sampler and the cells that use them *)

Module GlueFacts.

Import Py PyFacts Sampler SamplerFacts Vocab VocabFacts Glue.
Local Open Scope Z_scope.

(** *** The labels of the plots *)

Lemma dict_get_zip_seqZ (l : list string) : forall a r,
  dict_get (zip (seqZ a (len l)) l) r =
  if decide (a <= r < a + len l) then l !! Z.to_nat (r - a) else None.
Proof.
  unfold len. induction l as [|x l IH]; intros a r.
  - cbn [length]. destruct (decide _); [lia|done].
  - rewrite seqZ_cons by (cbn [length]; lia).
    replace (Z.pred (Z.of_nat (length (x :: l)))) with (Z.of_nat (length l))
      by (cbn [length]; lia).
    cbn [zip zip_with dict_get]. cbn [length].
    destruct (decide (a = r)) as [->|Hne].
    + rewrite decide_True by lia. by replace (r - r) with 0 by lia.
    + rewrite IH. destruct (decide (a <= r < a + Z.of_nat (S (length l)))).
      * rewrite decide_True by lia.
        replace (Z.to_nat (r - a)) with (S (Z.to_nat (r - Z.succ a))) by lia.
        done.
      * by rewrite decide_False by lia.
Qed.

(** X17: when ["UNK"] is not itself among the most common input words,
    the list of the words of ranks [0] to [n - 1] is the first [n] words
    of the count table, the sentinel first; asking for more ranks than
    the table has items raises [KeyError]. *)
Theorem labels_are_count_table_words words n_words n :
  "UNK"%string ∉ top_words words n_words ->
  words_of_ranks (reversed_dictionary (build_dataset words n_words)) n =
    if decide (n <= len (count (build_dataset words n_words)))
    then Some (take (Z.to_nat n) (keys (count (build_dataset words n_words))))
    else None.
Proof.
  intros Hunk.
  destruct (VocabMore.built_tables words n_words Hunk) as (Hkeys & _ & Hrd & _).
  assert (Hlen : len (count (build_dataset words n_words))
                 = 1 + len (top_words words n_words)).
  { unfold len. rewrite <- (length_fmap fst).
    change (fst <$> count (build_dataset words n_words))
      with (keys (count (build_dataset words n_words))).
    rewrite Hkeys. cbn [length]. lia. }
  rewrite Hkeys, Hlen, Hrd. unfold words_of_ranks, range.
  set (l := "UNK"%string :: top_words words n_words).
  assert (Hl : 1 + len (top_words words n_words) = len l)
    by (unfold len, l; cbn [length]; lia).
  rewrite Hl. destruct (decide (n <= len l)) as [Hn|Hn].
  - apply mapM_Some_2, Forall2_same_length_lookup_2.
    + rewrite length_seqZ, length_take. unfold len in Hn. lia.
    + intros i x y Hx Hy. apply lookup_seqZ in Hx as [-> Hi].
      apply lookup_take_Some in Hy as [Hy _].
      pose proof (lookup_lt_Some _ _ _ Hy) as Hlt.
      rewrite dict_get_zip_seqZ, decide_True by (unfold len; lia).
      rewrite <- Hy. f_equal. lia.
  - apply mapM_None_2, Exists_exists. exists (len l). split.
    + apply elem_of_seqZ. pose proof (len_nonneg l). lia.
    + rewrite dict_get_zip_seqZ. by rewrite decide_False by lia.
Qed.

Lemma labels_are_count_table_words_witness :
  words_of_ranks (reversed_dictionary (build_dataset toy_words 3)) 2 =
    if decide (2 <= len (count (build_dataset toy_words 3)))
    then Some (take (Z.to_nat 2) (keys (count (build_dataset toy_words 3))))
    else None.
Proof.
  apply (labels_are_count_table_words toy_words 3 2).
  change (top_words toy_words 3) with ["b"; "a"]%string.
  rewrite !not_elem_of_cons.
  split; [discriminate|]. split; [discriminate|]. apply not_elem_of_nil.
Defined.

(** *** Showing a batch *)

(** X18: from the input tokens to the words shown for a batch.  When
    ["UNK"] is not itself among the most common input words, a batch
    returned over the corpus that [build_dataset] built is shown without
    an exception, one line per cell; the center word of line [q] is the
    input token at the start of the call plus [skip_window] plus
    [q // num_skips], the context word is an input token at most
    [skip_window] positions from it and not at its position, each
    shown as itself when it kept a rank and as ["UNK"] otherwise. *)
Theorem batch_shows_input_words words n_words rand bs ns sw g b lb g' :
  "UNK"%string ∉ top_words words n_words ->
  0 < ns -> 0 <= data_index g ->
  generate_batch (data (build_dataset words n_words)) rand bs ns sw g
    = (Ret (b, lb), g') ->
  exists lines,
    show_pairs (reversed_dictionary (build_dataset words n_words)) b lb bs
      = Some lines /\
    length lines = Z.to_nat bs /\
    forall (q : nat) c w x v,
      lines !! q = Some (c, w, x, v) ->
      exists tc tx d,
        words !! Z.to_nat (first_start (data (build_dataset words n_words)) sw g
                           + Z.of_nat q / ns + sw) = Some tc /\
        w = shown_word (top_words words n_words) tc /\
        d <> 0 /\ - sw <= d <= sw /\
        words !! Z.to_nat (first_start (data (build_dataset words n_words)) sw g
                           + Z.of_nat q / ns + sw + d) = Some tx /\
        v = shown_word (top_words words n_words) tx.
Proof.
  intros Hunk Hns Hdi Hrun.
  set (ds := build_dataset words n_words) in *.
  set (top := top_words words n_words) in *.
  destruct (generate_batch_length _ _ _ _ _ _ _ _ _ Hdi Hrun) as [Hb Hlb].
  assert (Hdata : data ds = rank_of (dictionary ds) <$> words).
  { subst ds. by rewrite build_dataset_unfold. }
  assert (Hline : forall q : nat, Z.of_nat q < bs ->
            exists c x tc tx d,
              pair_line (reversed_dictionary ds) b lb (Z.of_nat q)
                = Some (c, shown_word top tc, x, shown_word top tx) /\
              words !! Z.to_nat (first_start (data ds) sw g
                                 + Z.of_nat q / ns + sw) = Some tc /\
              d <> 0 /\ - sw <= d <= sw /\
              words !! Z.to_nat (first_start (data ds) sw g
                                 + Z.of_nat q / ns + sw + d) = Some tx).
  { intros q Hq.
    destruct (SamplerMore.batch_cell _ _ _ _ _ _ _ _ _ q Hns Hdi Hrun Hq)
      as (cv & xv & d & Hcv & Hbq & Hd0 & Hd & Hxv & Hlq).
    rewrite Hdata in Hcv, Hxv.
    apply list_lookup_fmap_Some in Hcv as (tc & -> & Htc).
    apply list_lookup_fmap_Some in Hxv as (tx & -> & Htx).
    exists (rank_of (dictionary ds) tc), (rank_of (dictionary ds) tx), tc, tx, d.
    split; [|by rewrite Hdata].
    unfold pair_line.
    rewrite !getitem_in_range by lia. rewrite Nat2Z.id, Hbq, Hlq.
    subst ds top. by rewrite !VocabMore.decode_rank by done. }
  assert (Hsome : is_Some (show_pairs (reversed_dictionary ds) b lb bs)).
  { apply mapM_is_Some_2, Forall_forall. intros i Hi%elem_of_seqZ.
    destruct (Hline (Z.to_nat i) ltac:(lia)) as (c & x & tc & tx & d & Hp & _).
    rewrite Z2Nat.id in Hp by lia. unfold compose. by rewrite Hp. }
  destruct Hsome as [lines Hlines]. exists lines. split; [done|].
  pose proof (length_mapM _ _ _ Hlines) as Hlen.
  unfold range in Hlen. rewrite length_seqZ in Hlen. split; [done|].
  intros q c w x v Hq.
  pose proof (lookup_lt_Some _ _ _ Hq) as Hlt.
  apply mapM_Some_1 in Hlines.
  destruct (Forall2_lookup_r _ _ _ _ _ Hlines Hq) as (i & Hi & Hp).
  apply lookup_seqZ in Hi as [-> _]. rewrite Z.add_0_l in Hp.
  destruct (Hline q ltac:(lia)) as (c' & x' & tc & tx & d & Hp' & Htc & Hd0 & Hd & Htx).
  rewrite Hp in Hp'. injection Hp' as -> -> -> ->.
  by exists tc, tx, d.
Qed.

Lemma batch_shows_input_words_witness :
  exists lines,
    show_pairs (reversed_dictionary (build_dataset toy_words 3))
      [Some 2; Some 2; Some 1; Some 1] [Some 1; Some 1; Some 2; Some 0] 4
      = Some lines /\
    length lines = Z.to_nat 4 /\
    forall (q : nat) c w x v,
      lines !! q = Some (c, w, x, v) ->
      exists tc tx d,
        toy_words !! Z.to_nat (first_start (data (build_dataset toy_words 3)) 1 initial
                               + Z.of_nat q / 2 + 1) = Some tc /\
        w = shown_word (top_words toy_words 3) tc /\
        d <> 0 /\ - 1 <= d <= 1 /\
        toy_words !! Z.to_nat (first_start (data (build_dataset toy_words 3)) 1 initial
                               + Z.of_nat q / 2 + 1 + d) = Some tx /\
        v = shown_word (top_words toy_words 3) tx.
Proof.
  apply (batch_shows_input_words toy_words 3 draws 4 2 1 initial
           [Some 2; Some 2; Some 1; Some 1] [Some 1; Some 1; Some 2; Some 0]
           (Globals 2 4 [0; 1; 2; 3; 4])).
  - change (top_words toy_words 3) with ["b"; "a"]%string.
    rewrite !not_elem_of_cons.
    split; [discriminate|]. split; [discriminate|]. apply not_elem_of_nil.
  - lia.
  - simpl. lia.
  - vm_compute. reflexivity.
Defined.

End GlueFacts.

(** ** Fetching and plotting *)

Module DownloadFacts.

Import Download.
Local Open Scope Z_scope.

(** X19: [maybe_download] returns only a file whose size it has
    checked: when it returns, it returns the file name it was given, the
    file at [path + filename] has exactly [expected_bytes] bytes, the
    one line printed says so, and the files are as they were before the
    call unless the file was missing and had to be fetched. *)
Theorem maybe_download_checks_size W path_exists st_size urlretrieve
    (path filename : string) expected_bytes (w : W) out name w' out' :
  maybe_download W path_exists st_size urlretrieve path filename
    expected_bytes w out = (inr name, w', out') ->
  name = filename /\
  st_size w' (path ++ filename)%string = Some expected_bytes /\
  out' = out ++ [Line ("Found and verified " ++ filename)%string] /\
  (path_exists w (path ++ filename)%string = true -> w' = w) /\
  (path_exists w (path ++ filename)%string = false ->
   urlretrieve w (url ++ filename)%string filename = (true, w')).
Proof.
  unfold maybe_download.
  destruct (path_exists w (path ++ filename)%string) eqn:Hex; cbn [negb].
  - destruct (st_size w (path ++ filename)%string) as [size|] eqn:Hsize; [|done].
    destruct (size =? expected_bytes) eqn:E; [|done].
    intros [= <- <- <-]. apply Z.eqb_eq in E. subst size. by repeat split.
  - destruct (urlretrieve w (url ++ filename)%string filename) as [[] w1] eqn:Hf;
      cbn [negb]; [|done].
    destruct (st_size w1 (path ++ filename)%string) as [size|] eqn:Hsize; [|done].
    destruct (size =? expected_bytes) eqn:E; [|done].
    intros [= <- <- <-]. apply Z.eqb_eq in E. subst size. by repeat split.
Qed.

Lemma maybe_download_checks_size_witness :
  "text8.zip"%string = "text8.zip"%string /\
  world_size (World [("text8.zip"%string, 31344016)] (remote_files remote_only))
    ("" ++ "text8.zip")%string = Some 31344016 /\
  [Line ("Found and verified " ++ "text8.zip")%string] =
    [] ++ [Line ("Found and verified " ++ "text8.zip")%string] /\
  (world_exists remote_only ("" ++ "text8.zip")%string = true ->
   World [("text8.zip"%string, 31344016)] (remote_files remote_only) = remote_only) /\
  (world_exists remote_only ("" ++ "text8.zip")%string = false ->
   world_fetch remote_only (url ++ "text8.zip")%string "text8.zip" =
     (true, World [("text8.zip"%string, 31344016)] (remote_files remote_only))).
Proof.
  apply (maybe_download_checks_size world world_exists world_size world_fetch
           "" "text8.zip" 31344016 remote_only [] "text8.zip").
  vm_compute. reflexivity.
Defined.

End DownloadFacts.

Module PlotFacts.

Import Py PyFacts Plot.
Local Open Scope Z_scope.

Section Coordinates.

Variable C : Type.

Lemma plot_labels_in_rows (embs : list (list C)) (labels : list string) :
  forall (j : Z) out,
    0 <= j -> j + len labels <= len embs ->
    (plot_labels C embs (enumerate_from j labels) out).1 <> Some (IndexError).
Proof.
  unfold len. induction labels as [|label labels IH]; intros j out Hj Hfit.
  - done.
  - rewrite SamplerFacts.enumerate_from_cons. cbn [plot_labels plot_label].
    cbn [length] in Hfit.
    rewrite getitem_in_range by (unfold len; lia).
    destruct (lookup_lt_is_Some_2 embs (Z.to_nat j)) as [row Hrow]; [lia|].
    rewrite Hrow.
    destruct row as [|x [|y [|z row]]]; try done.
    apply IH; lia.
Qed.

(** X20: the assertion of [plot_with_labels] keeps the loop inside the
    embedding: whatever the embedding, the labels and the figure so far,
    the call never raises [IndexError]. *)
Theorem plot_never_leaves_embedding (embs : list (list C)) labels out :
  (plot_with_labels C embs labels out).1 <> Some (IndexError).
Proof.
  unfold plot_with_labels.
  destruct (len embs <? len labels) eqn:E; [done|].
  apply plot_labels_in_rows; lia.
Qed.

Lemma plot_labels_drawn (embs : list (list C)) (labels : list string) :
  forall (j : Z) out out',
    0 <= j ->
    plot_labels C embs (enumerate_from j labels) out = (None, out') ->
    length out' = (length out + 2 * length labels)%nat /\
    take (length out) out' = out /\
    forall (i : nat) label, labels !! i = Some label ->
      exists x y,
        embs !! Z.to_nat (j + Z.of_nat i) = Some [x; y] /\
        out' !! (length out + 2 * i)%nat = Some (Scatter C x y) /\
        out' !! (length out + 2 * i + 1)%nat = Some (Annotate C label x y).
Proof.
  induction labels as [|label labels IH]; intros j out out' Hj Hrun.
  - cbn in Hrun. injection Hrun as <-. split; [cbn; lia|]. split.
    + by rewrite take_ge by lia.
    + intros i l Hi. by rewrite lookup_nil in Hi.
  - rewrite SamplerFacts.enumerate_from_cons in Hrun.
    cbn [plot_labels plot_label] in Hrun.
    destruct (getitem embs j) as [row|] eqn:Hrow; [|done].
    destruct row as [|x [|y [|z row]]]; try done.
    apply getitem_nonneg in Hrow; [|done].
    apply IH in Hrun as (Hlen & Htake & Hcells); [|lia].
    rewrite length_app in Hlen, Htake, Hcells. cbn [length] in *.
    split; [lia|]. split.
    + transitivity (take (length out) (take (length out + 2) out')).
      { rewrite take_take. f_equal. lia. }
      rewrite Htake. apply take_app_length.
    + assert (Hpre : forall k : nat, (k < length out + 2)%nat ->
                out' !! k = (out ++ [Scatter C x y; Annotate C label x y]) !! k).
      { intros k Hk. rewrite <- Htake. by rewrite lookup_take_lt by lia. }
      intros [|i] l Hi.
      * injection Hi as <-. exists x, y.
        rewrite Z.add_0_r, Nat.mul_0_r, Nat.add_0_r. split; [done|].
        rewrite !Hpre by lia.
        rewrite !lookup_app_r by lia.
        replace (length out - length out)%nat with 0%nat by lia.
        replace (length out + 1 - length out)%nat with 1%nat by lia. done.
      * destruct (Hcells i l Hi) as (x' & y' & Hrow' & Hs & Ha).
        exists x', y'. split; [|split].
        -- rewrite <- Hrow'. f_equal. lia.
        -- rewrite <- Hs. f_equal. lia.
        -- rewrite <- Ha. f_equal. lia.
Qed.

(** X21: a call of [plot_with_labels] that raises nothing has no more
    labels than the embedding has rows; it leaves what was drawn before
    as it was, opens one figure, and then draws for every label, in
    order, one point at the two coordinates of the row with the index of
    the label and one annotation with the label at that point. *)
Theorem plot_draws_every_label (embs : list (list C)) labels out out' :
  plot_with_labels C embs labels out = (None, out') ->
  len labels <= len embs /\
  take (length out) out' = out /\
  out' !! length out = Some (Figure C 18 18) /\
  length out' = (length out + 1 + 2 * length labels)%nat /\
  forall (i : nat) label, labels !! i = Some label ->
    exists x y,
      embs !! i = Some [x; y] /\
      out' !! (length out + 1 + 2 * i)%nat = Some (Scatter C x y) /\
      out' !! (length out + 1 + 2 * i + 1)%nat = Some (Annotate C label x y).
Proof.
  unfold plot_with_labels.
  destruct (len embs <? len labels) eqn:E; [done|].
  intros Hrun. unfold enumerate in Hrun.
  apply plot_labels_drawn in Hrun as (Hlen & Htake & Hcells); [|done].
  rewrite length_app in Hlen, Htake, Hcells. cbn [length] in *.
  split; [lia|]. split; [|split; [|split]].
  - transitivity (take (length out) (take (length out + 1) out')).
    { rewrite take_take. f_equal. lia. }
    rewrite Htake. apply take_app_length.
  - assert (Hfig : take (length out + 1) out' !! length out = out' !! length out)
      by (apply lookup_take_lt; lia).
    rewrite <- Hfig, Htake, lookup_app_r by lia. by rewrite Nat.sub_diag.
  - lia.
  - intros i label Hi. destruct (Hcells i label Hi) as (x & y & Hrow & Hs & Ha).
    exists x, y. rewrite Z.add_0_l, Nat2Z.id in Hrow. done.
Qed.

End Coordinates.

Lemma plot_draws_every_label_witness :
  len ["a"; "b"]%string <= len [[1; 2]; [3; 4]; [5; 6]] /\
  take (length (@nil (drawn Z)))
    [Figure Z 18 18; Scatter Z 1 2; Annotate Z "a" 1 2;
     Scatter Z 3 4; Annotate Z "b" 3 4] = [] /\
  [Figure Z 18 18; Scatter Z 1 2; Annotate Z "a" 1 2;
   Scatter Z 3 4; Annotate Z "b" 3 4] !! length (@nil (drawn Z))
    = Some (Figure Z 18 18) /\
  length [Figure Z 18 18; Scatter Z 1 2; Annotate Z "a" 1 2;
          Scatter Z 3 4; Annotate Z "b" 3 4]
    = (length (@nil (drawn Z)) + 1 + 2 * length ["a"; "b"]%string)%nat /\
  forall (i : nat) label, ["a"; "b"]%string !! i = Some label ->
    exists x y,
      [[1; 2]; [3; 4]; [5; 6]] !! i = Some [x; y] /\
      [Figure Z 18 18; Scatter Z 1 2; Annotate Z "a" 1 2;
       Scatter Z 3 4; Annotate Z "b" 3 4] !! (length (@nil (drawn Z)) + 1 + 2 * i)%nat
        = Some (Scatter Z x y) /\
      [Figure Z 18 18; Scatter Z 1 2; Annotate Z "a" 1 2;
       Scatter Z 3 4; Annotate Z "b" 3 4] !! (length (@nil (drawn Z)) + 1 + 2 * i + 1)%nat
        = Some (Annotate Z label x y).
Proof.
  apply (plot_draws_every_label Z [[1; 2]; [3; 4]; [5; 6]] ["a"; "b"]%string []).
  vm_compute. reflexivity.
Defined.

End PlotFacts.
